(** * Well-structure depth mapping and trajectory validation

    A shallow embedding of the numeric core of [main_origin.py]:

    - [StratigraphyExtractor.validate_continuity] and
      [StratigraphyExtractor.map_raw_data] (module [Stratigraphy]),
    - [DepthMappingMixin.calculate_mapped_depth] (module [DepthMapping]),
    - [DeviationDataExtractor.validate_deviation_data] and the angle and
      geometry steps of [DeviationDataExtractor.map_raw_data]
      (module [Deviation]).

    Python numbers (JSON ints and floats) are modelled as real numbers [R];
    every theorem below is a statement of exact real arithmetic, except
    those of module [Binary64], which evaluate the build-arc formulas in
    IEEE 754 double precision.  Python
    exceptions are modelled by the [result] type, [print] calls that the
    properties talk about are modelled as events appended to a log. *)

From Stdlib Require Import Reals Lra Lia List String Ascii Bool Permutation Sorted.
From Stdlib Require PrimFloat.
Import ListNotations.
Open Scope R_scope.

(** ** Exceptions and results *)

Inductive exn : Type :=
| ValueError
| TypeError
| KeyError
| IndexError
| ZeroDivisionError
| AttributeError.

Inductive result (A : Type) : Type :=
| Ok (a : A)
| Raise (e : exn).

Arguments Ok {A} a.
Arguments Raise {A} e.

Definition bind {A B : Type} (m : result A) (k : A -> result B) : result B :=
  match m with
  | Ok a => k a
  | Raise e => Raise e
  end.

Notation "x <- m ;; k" := (bind m (fun x => k))
  (at level 61, m at next level, right associativity).

Definition raises {A : Type} (m : result A) : Prop := exists e, m = Raise e.

(** Sum of a list of reals, as Python's [sum]. *)
Definition Rsum (l : list R) : R := fold_right Rplus 0 l.

(** [round(x, ndigits)] on a float: the nearest multiple of [10 ** -ndigits],
    an exact half going to the even neighbour. *)
Definition round_half_even (x : R) : Z :=
  let n := Int_part x in
  let f := x - IZR n in
  if Rlt_dec f (1 / 2) then n
  else if Rgt_dec f (1 / 2) then (n + 1)%Z
  else if Z.even n then n else (n + 1)%Z.

Definition round (x : R) (ndigits : nat) : R :=
  IZR (round_half_even (x * 10 ^ ndigits)) / 10 ^ ndigits.

(** ** Stratigraphy: continuity validation and thickness mapping *)

Module Stratigraphy.

(** A layer of the JSON [stratigraphy] list.  A field is [None] when the key
    is absent from the dict; depths that are present are JSON numbers. *)
Record raw_layer : Type := mk_raw_layer {
  name : option string;
  topDepth_m : option R;
  bottomDepth_m : option R
}.

(** [sorted(stratigraphy, key=lambda x: x['topDepth_m'])]: the keys are
    computed first (a missing key raises [KeyError]), then the list is sorted
    stably. *)
Fixpoint sort_keys (l : list raw_layer) : result (list (R * raw_layer)) :=
  match l with
  | [] => Ok []
  | x :: r =>
      match topDepth_m x with
      | None => Raise KeyError
      | Some k => ks <- sort_keys r ;; Ok ((k, x) :: ks)
      end
  end.

Fixpoint insert_by_key (x : R * raw_layer) (l : list (R * raw_layer))
  : list (R * raw_layer) :=
  match l with
  | [] => [x]
  | y :: r =>
      if Rle_dec (fst x) (fst y) then x :: y :: r
      else y :: insert_by_key x r
  end.

Definition stable_sort (l : list (R * raw_layer)) : list (R * raw_layer) :=
  fold_right insert_by_key [] l.

Definition sorted_by_top (l : list raw_layer) : result (list raw_layer) :=
  ks <- sort_keys l ;; Ok (map snd (stable_sort ks)).

(** [next_layer['name']], read while the gap message or the continuity
    line is formatted: a next layer without a name raises [KeyError] there,
    before its own fields are checked. *)
Definition format_next_name {A : Type} (next_layer : raw_layer) (k : result A)
  : result A :=
  match name next_layer with
  | None => Raise KeyError
  | Some _ => k
  end.

(** The body of the [for i in range(len(sorted_stratigraphy))] loop. *)
Fixpoint check_layers (s : list raw_layer) : result bool :=
  match s with
  | [] => Ok true
  | current_layer :: rest =>
      match name current_layer, topDepth_m current_layer,
            bottomDepth_m current_layer with
      | Some _, Some top, Some bottom =>
          if Rge_dec top bottom then Raise ValueError
          else
            match rest with
            | [] => check_layers rest
            | next_layer :: _ =>
                match topDepth_m next_layer with
                | None => Raise KeyError
                | Some next_top =>
                    if Req_dec_T bottom next_top
                    then format_next_name next_layer (check_layers rest)
                    else format_next_name next_layer (Raise ValueError)
                end
            end
      | _, _, _ => Raise ValueError
      end
  end.

Definition validate_continuity (stratigraphy : list raw_layer) : result bool :=
  match stratigraphy with
  | [] => Raise ValueError
  | _ :: _ =>
      sorted_stratigraphy <- sorted_by_top stratigraphy ;;
      check_layers sorted_stratigraphy
  end.

(** A layer as read back from [stratigraphy_raw.csv] by [map_raw_data]. *)
Record csv_layer : Type := mk_csv_layer {
  csv_name : string;
  csv_topDepth_m : R;
  csv_bottomDepth_m : R
}.

(** A layer after [map_raw_data] has filled in the computed keys. *)
Record mapped_layer : Type := mk_mapped_layer {
  source : csv_layer;
  actual_thickness_m : R;
  mapped_thickness_cm : R;
  mapped_top_cm : R;
  mapped_bottom_cm : R
}.

Definition actual_thickness (l : csv_layer) : R :=
  csv_bottomDepth_m l - csv_topDepth_m l.

Definition min_thickness : R := 0.24.

(** First two loops of the mapping step: the proportional share, then the
    adjustment to the minimum thickness. *)
Definition proportional_share (total_actual_thickness total_mapped_thickness : R)
  (l : csv_layer) : R :=
  actual_thickness l / total_actual_thickness * total_mapped_thickness.

Definition adjust_min (mapped : R) : R :=
  if Rlt_dec mapped min_thickness then min_thickness else mapped.

(** Third loop: running [mapped_top]. *)
Fixpoint assign_boundaries (mapped_top : R) (ls : list (csv_layer * R))
  : list mapped_layer :=
  match ls with
  | [] => []
  | (l, th) :: r =>
      mk_mapped_layer l (actual_thickness l) th mapped_top (mapped_top + th)
        :: assign_boundaries (mapped_top + th) r
  end.

Definition map_raw_data (stratigraphy : list csv_layer)
  (total_mapped_thickness : R) : result (list mapped_layer) :=
  let total_actual_thickness := Rsum (map actual_thickness stratigraphy) in
  match stratigraphy with
  | [] => Ok []
  | _ :: _ =>
      if Req_dec_T total_actual_thickness 0 then Raise ZeroDivisionError
      else
        Ok (assign_boundaries 0
              (map (fun l =>
                      (l, adjust_min (proportional_share total_actual_thickness
                                        total_mapped_thickness l)))
                   stratigraphy))
  end.

Definition default_total_mapped_thickness : R := 10.0.

End Stratigraphy.

(** ** Depth mapping *)

Module DepthMapping.

(** A row of [stratigraphy.csv] as loaded by [load_stratigraphy_mapping]. *)
Record mapping_layer : Type := mk_mapping_layer {
  topDepth_m : R;
  bottomDepth_m : R;
  mapped_top_cm : R;
  mapped_bottom_cm : R
}.

Definition in_layer (actual_depth_m : R) (layer : mapping_layer) : bool :=
  if Rle_dec (topDepth_m layer) actual_depth_m then
    if Rle_dec actual_depth_m (bottomDepth_m layer) then true else false
  else false.

Definition interpolate (actual_depth_m : R) (layer : mapping_layer) : R :=
  let layer_thickness_m := bottomDepth_m layer - topDepth_m layer in
  let layer_mapped_thickness_cm := mapped_bottom_cm layer - mapped_top_cm layer in
  if Req_dec_T layer_thickness_m 0 then mapped_top_cm layer
  else
    let depth_ratio := (actual_depth_m - topDepth_m layer) / layer_thickness_m in
    mapped_top_cm layer + depth_ratio * layer_mapped_thickness_cm.

(** The [for layer in stratigraphy_mapping] loop: the first layer that
    contains the depth answers. *)
Fixpoint scan_layers (actual_depth_m : R) (stratigraphy_mapping : list mapping_layer)
  : option R :=
  match stratigraphy_mapping with
  | [] => None
  | layer :: rest =>
      if in_layer actual_depth_m layer then Some (interpolate actual_depth_m layer)
      else scan_layers actual_depth_m rest
  end.

Definition calculate_mapped_depth (actual_depth_m : R)
  (stratigraphy_mapping : list mapping_layer) : result R :=
  match scan_layers actual_depth_m stratigraphy_mapping with
  | Some mapped_depth_cm => Ok mapped_depth_cm
  | None =>
      match stratigraphy_mapping with
      | [] => Raise IndexError
      | first :: _ =>
          if Rlt_dec actual_depth_m (topDepth_m first) then Ok (mapped_top_cm first)
          else
            let deepest_layer := last stratigraphy_mapping first in
            let deepest_bottom_m := bottomDepth_m deepest_layer in
            let deepest_mapped_bottom_cm := mapped_bottom_cm deepest_layer in
            if Req_dec_T deepest_bottom_m 0 then Raise ZeroDivisionError
            else Ok (deepest_mapped_bottom_cm * actual_depth_m / deepest_bottom_m)
      end
  end.

(** The table that [load_stratigraphy_mapping] reads is the one
    [Stratigraphy.map_raw_data] wrote: the depths as they are, the mapped
    boundaries rounded to four decimals in the row. *)
Definition of_mapped (l : Stratigraphy.mapped_layer) : mapping_layer :=
  mk_mapping_layer
    (Stratigraphy.csv_topDepth_m (Stratigraphy.source l))
    (Stratigraphy.csv_bottomDepth_m (Stratigraphy.source l))
    (round (Stratigraphy.mapped_top_cm l) 4)
    (round (Stratigraphy.mapped_bottom_cm l) 4).

(** A validated mapping table: every layer has [top < bottom] and a
    nonnegative mapped thickness, and each layer starts, in both coordinates,
    where the previous one ended. *)
Definition layer_ok (l : mapping_layer) : Prop :=
  topDepth_m l < bottomDepth_m l /\ mapped_top_cm l <= mapped_bottom_cm l.

Fixpoint chained (prev : mapping_layer) (rest : list mapping_layer) : Prop :=
  match rest with
  | [] => True
  | l :: r =>
      bottomDepth_m prev = topDepth_m l /\
      mapped_bottom_cm prev = mapped_top_cm l /\
      layer_ok l /\ chained l r
  end.

Definition validated_table (t : list mapping_layer) : Prop :=
  match t with
  | [] => False
  | l :: r => layer_ok l /\ chained l r
  end.

Definition last_layer (t : list mapping_layer) : mapping_layer :=
  last t (mk_mapping_layer 0 0 0 0).

End DepthMapping.

(** ** Python strings and JSON values *)

Module PyStr.

(** A string is a sequence of code points below 256; [lower] and [strip]
    follow [str.lower] and [str.strip] on that range. *)
Definition is_upper (n : nat) : bool :=
  ((65 <=? n) && (n <=? 90) || (192 <=? n) && (n <=? 222) && negb (n =? 215))%nat.

Definition lower_char (c : ascii) : ascii :=
  let n := nat_of_ascii c in
  if is_upper n then ascii_of_nat (n + 32) else c.

Fixpoint lower (s : string) : string :=
  match s with
  | EmptyString => EmptyString
  | String c r => String (lower_char c) (lower r)
  end.

Definition is_space (c : ascii) : bool :=
  let n := nat_of_ascii c in
  ((9 <=? n) && (n <=? 13) || (28 <=? n) && (n <=? 32) || (n =? 133) || (n =? 160))%nat.

Fixpoint lstrip (s : list ascii) : list ascii :=
  match s with
  | [] => []
  | c :: r => if is_space c then lstrip r else s
  end.

Definition strip (s : string) : string :=
  string_of_list_ascii
    (rev (lstrip (rev (lstrip (list_ascii_of_string s))))).

End PyStr.

(** ** Trajectory (deviation) data *)

Module Deviation.

(** A JSON value of a [deviationData] or well-record entry: [null], a string
    or a number (an int or a float, both read as reals).  Booleans, arrays
    and objects are not modelled as values of these keys. *)
Inductive value : Type :=
| VNone
| VStr (s : string)
| VNum (r : R).

(** The [deviation_data] dict, restricted to the keys the code reads or
    writes.  A field is [None] when the key is absent. *)
Record deviation_data : Type := mk_deviation_data {
  deviationAngle_deg : option value;
  kickoffPoint_m : option value;
  targetPointA_m : option value;
  targetPointA_verticalDepth_m : option value;
  REAL_kickoffPoint_m : option value;
  targetPointB_m : option value;
  DistanceAB_m : option value
}.

Definition set_deviationAngle_deg (v : value) (d : deviation_data) :=
  mk_deviation_data (Some v) (kickoffPoint_m d) (targetPointA_m d)
    (targetPointA_verticalDepth_m d) (REAL_kickoffPoint_m d)
    (targetPointB_m d) (DistanceAB_m d).

Definition set_kickoffPoint_m (v : value) (d : deviation_data) :=
  mk_deviation_data (deviationAngle_deg d) (Some v) (targetPointA_m d)
    (targetPointA_verticalDepth_m d) (REAL_kickoffPoint_m d)
    (targetPointB_m d) (DistanceAB_m d).

Definition set_targetPointA_m (v : value) (d : deviation_data) :=
  mk_deviation_data (deviationAngle_deg d) (kickoffPoint_m d) (Some v)
    (targetPointA_verticalDepth_m d) (REAL_kickoffPoint_m d)
    (targetPointB_m d) (DistanceAB_m d).

Definition set_targetPointA_verticalDepth_m (v : value) (d : deviation_data) :=
  mk_deviation_data (deviationAngle_deg d) (kickoffPoint_m d) (targetPointA_m d)
    (Some v) (REAL_kickoffPoint_m d)
    (targetPointB_m d) (DistanceAB_m d).

Definition set_REAL_kickoffPoint_m (v : value) (d : deviation_data) :=
  mk_deviation_data (deviationAngle_deg d) (kickoffPoint_m d) (targetPointA_m d)
    (targetPointA_verticalDepth_m d) (Some v)
    (targetPointB_m d) (DistanceAB_m d).

Definition set_targetPointB_m (v : value) (d : deviation_data) :=
  mk_deviation_data (deviationAngle_deg d) (kickoffPoint_m d) (targetPointA_m d)
    (targetPointA_verticalDepth_m d) (REAL_kickoffPoint_m d)
    (Some v) (DistanceAB_m d).

Definition set_DistanceAB_m (v : value) (d : deviation_data) :=
  mk_deviation_data (deviationAngle_deg d) (kickoffPoint_m d) (targetPointA_m d)
    (targetPointA_verticalDepth_m d) (REAL_kickoffPoint_m d)
    (targetPointB_m d) (Some v).

(** [dict.get(key)]: [None] for an absent key. *)
Definition get (field : option value) : value :=
  match field with
  | Some v => v
  | None => VNone
  end.

(** [dict[key]]. *)
Definition item (field : option value) : result value :=
  match field with
  | Some v => Ok v
  | None => Raise KeyError
  end.

(** The well record of the JSON file, restricted to the two keys read. *)
Record well_data : Type := mk_well_data {
  wellType : option value;
  totalDepth_m : option value
}.

(** What [open] followed by [json.load] yields: [None] when either fails or
    the document is not an object. *)
Definition json_file : Type := option well_data.

(** [v is None or v == '' or str(v).lower() == 'null'] *)
Definition is_null (v : value) : bool :=
  match v with
  | VNone => true
  | VStr s => (s =? "")%string || (PyStr.lower s =? "null")%string
  | VNum _ => false
  end.

Definition is_valid (v : value) : bool := negb (is_null v).

(** *** Python operators on values *)

Definition num (v : value) : result R :=
  match v with
  | VNum r => Ok r
  | _ => Raise TypeError
  end.

Definition py_lt (a b : value) : result bool :=
  match a, b with
  | VNum x, VNum y => Ok (if Rlt_dec x y then true else false)
  | VStr x, VStr y => Ok (String.ltb x y)
  | _, _ => Raise TypeError
  end.

Definition py_le (a b : value) : result bool :=
  match a, b with
  | VNum x, VNum y => Ok (if Rle_dec x y then true else false)
  | VStr x, VStr y => Ok (String.leb x y)
  | _, _ => Raise TypeError
  end.

Definition py_add (a b : value) : result value :=
  match a, b with
  | VNum x, VNum y => Ok (VNum (x + y))
  | VStr x, VStr y => Ok (VStr (x ++ y))
  | _, _ => Raise TypeError
  end.

(** [a - b]: only numbers subtract. *)
Definition py_sub (a b : value) : result R :=
  x <- num a ;; y <- num b ;; Ok (x - y).

(** [math.radians] *)
Definition radians (deg : R) : R := deg * (PI / 180).

(** *** Reading the well record *)

(** [well_data.get('wellType', '').strip().lower()]: a value that is not a
    string has no [strip] and raises. *)
Definition get_well_type (wd : well_data) : result string :=
  match wellType wd with
  | None => Ok (PyStr.lower (PyStr.strip ""))
  | Some (VStr s) => Ok (PyStr.lower (PyStr.strip s))
  | Some _ => Raise AttributeError
  end.

(** [well_data.get('totalDepth_m', 0)] *)
Definition get_total_depth (wd : well_data) : value :=
  match totalDepth_m wd with
  | Some v => v
  | None => VNum 0
  end.

(** Every caller catches whatever [open] or [json.load] raises, so the
    exception raised here is never observed. *)
Definition load (f : json_file) : result well_data :=
  match f with
  | Some wd => Ok wd
  | None => Raise ValueError
  end.

(** *** Effects: the dict is mutated in place and messages are printed *)

Inductive event : Type :=
| PrintStart
| PrintStraightDefaults (total_depth : value)
| WarnReadWellType
| PrintKickoffFromReal (v : value)
| PrintKickoffFromTotalDepth (v : value)
| PrintKickoffZero
| PrintAngleDefault (angle : R)
| PrintLowAngleOverride (angle : value)
| WarnHorizontalAngle (angle : value)
| PrintGeometricParams (kickoff target_a target_a_vertical : bool)
| PrintVertical (calculated_vertical : R)
| PrintTargetA (calculated_target_a : R)
| PrintKickoff (calculated_kickoff : R)
| WarnNoVertical
| WarnNoTargetA
| WarnNoKickoff
| PrintDistanceAB (calculated_ab : R)
| PrintTargetB (calculated_b : value)
| PrintTargetAFromB (calculated_a : R)
| PrintPassed.

Record state : Type := mk_state {
  data : deviation_data;
  log : list event
}.

(** A computation returns or raises, and leaves a state behind either way. *)
Definition M (A : Type) : Type := state -> result A * state.

Definition ret {A : Type} (a : A) : M A := fun s => (Ok a, s).

Definition raise {A : Type} (e : exn) : M A := fun s => (Raise e, s).

Definition mbind {A B : Type} (m : M A) (k : A -> M B) : M B :=
  fun s =>
    match m s with
    | (Ok a, s') => k a s'
    | (Raise e, s') => (Raise e, s')
    end.

Definition lift {A : Type} (r : result A) : M A := fun s => (r, s).

Definition read : M deviation_data := fun s => (Ok (data s), s).

Definition update (f : deviation_data -> deviation_data) : M unit :=
  fun s => (Ok tt, mk_state (f (data s)) (log s)).

Definition print (e : event) : M unit :=
  fun s => (Ok tt, mk_state (data s) (log s ++ [e])).

Notation "x <~ m ;; k" := (mbind m (fun x => k))
  (at level 61, m at next level, right associativity).
Notation "m ;;; k" := (mbind m (fun _ => k))
  (at level 61, right associativity).

(** *** [validate_deviation_data], stage by stage *)

(** The straight-well defaults. *)
Definition straight_defaults (total_depth : value) (d : deviation_data)
  : deviation_data :=
  set_DistanceAB_m (VNum 0)
    (set_targetPointB_m total_depth
       (set_REAL_kickoffPoint_m total_depth
          (set_targetPointA_verticalDepth_m total_depth
             (set_targetPointA_m total_depth
                (set_kickoffPoint_m total_depth
                   (set_deviationAngle_deg (VNum 0) d)))))).

(** The fallback value read from the file when [kickoffPoint_m] and
    [REAL_kickoffPoint_m] give nothing. *)
Definition kickoff_from_file (f : json_file) : M value :=
  match load f with
  | Ok wd =>
      let total_depth := get_total_depth wd in
      match py_lt (VNum 0) total_depth with
      | Ok true => print (PrintKickoffFromTotalDepth total_depth) ;;; ret total_depth
      | Ok false => print PrintKickoffZero ;;; ret (VNum 0)
      | Raise _ => print PrintKickoffZero ;;; ret (VNum 0)
      end
  | Raise _ => print PrintKickoffZero ;;; ret (VNum 0)
  end.

(** Lines "处理kickoffPoint_m的备选值" up to the required-field check. *)
Definition resolve_kickoff (f : json_file) : M unit :=
  d <~ read ;;
  (if is_null (get (kickoffPoint_m d)) then
     kickoff_point <~
       match REAL_kickoffPoint_m d with
       | Some v => print (PrintKickoffFromReal v) ;;; ret v
       | None => kickoff_from_file f
       end ;;
     update (set_kickoffPoint_m kickoff_point)
   else ret tt) ;;;
  d <~ read ;;
  match kickoffPoint_m d with
  | None => raise ValueError
  | Some _ => ret tt
  end.

Definition well_type_or_empty (f : json_file) : string :=
  match wd <- load f ;; get_well_type wd with
  | Ok s => s
  | Raise _ => ""%string
  end.

(** Lines "处理井斜角度" up to the horizontal-well hint; returns the local
    [deviation_angle]. *)
Definition resolve_angle (f : json_file) : M R :=
  d <~ read ;;
  let deviation_angle := get (deviationAngle_deg d) in
  let well_type := well_type_or_empty f in
  deviation_angle <~
    (if is_null deviation_angle then
       let default :=
         if (well_type =? "horizontal well")%string then 90.0
         else if (well_type =? "deviated well")%string then 45.0
         else 0.0 in
       update (set_deviationAngle_deg (VNum default)) ;;;
       print (PrintAngleDefault default) ;;;
       ret (VNum default)
     else ret deviation_angle) ;;
  deviation_angle <~
    (if (well_type =? "deviated well")%string then
       match deviation_angle with
       | VNone => ret deviation_angle
       | _ =>
           low <~ lift (py_le deviation_angle (VNum 1)) ;;
           if (low : bool) then
             print (PrintLowAngleOverride deviation_angle) ;;;
             update (set_deviationAngle_deg (VNum 30.0)) ;;;
             ret (VNum 30.0)
           else ret deviation_angle
       end
     else ret deviation_angle) ;;
  lo <~ lift (py_le (VNum 0) deviation_angle) ;;
  hi <~ (if (lo : bool) then lift (py_le deviation_angle (VNum 90)) else ret false) ;;
  if negb (lo && hi) then raise ValueError
  else
    below <~
      (if (well_type =? "horizontal well")%string
       then lift (py_lt deviation_angle (VNum 90)) else ret false) ;;
    (if (below : bool) then print (WarnHorizontalAngle deviation_angle) else ret tt) ;;;
    lift (num deviation_angle).

(** The three build-arc formulas. *)
Definition solve_vertical (kickoff_point target_point_a theta sin_theta : R) : R :=
  let R := (target_point_a - kickoff_point) / theta in
  R * sin_theta + kickoff_point.

Definition solve_target_a (kickoff_point target_point_a_vertical theta sin_theta : R) : R :=
  let R := (target_point_a_vertical - kickoff_point) / sin_theta in
  R * theta + kickoff_point.

Definition solve_kickoff (target_point_a target_point_a_vertical theta sin_theta : R) : R :=
  (target_point_a * sin_theta - target_point_a_vertical * theta) / (sin_theta - theta).

Definition Rneqb (x y : R) : bool := if Req_dec_T x y then false else true.

(** Lines "处理造斜点、A点深度、A点垂深的几何关系": [kickoff_point] is the
    local read after the fallback, [deviation_angle] the resolved angle. *)
Definition resolve_geometry (kickoff_point : value) (deviation_angle : R) : M unit :=
  d <~ read ;;
  let target_point_a := get (targetPointA_m d) in
  let target_point_a_vertical := get (targetPointA_verticalDepth_m d) in
  let has_kickoff := is_valid kickoff_point in
  let has_target_a := is_valid target_point_a in
  let has_target_a_vertical := is_valid target_point_a_vertical in
  let count := (Nat.b2n has_kickoff + Nat.b2n has_target_a
                + Nat.b2n has_target_a_vertical)%nat in
  if (2 <=? count)%nat then
    let theta := radians deviation_angle in
    let sin_theta := sin theta in
    print (PrintGeometricParams has_kickoff has_target_a has_target_a_vertical) ;;;
    if has_kickoff && has_target_a && negb has_target_a_vertical then
      if Rneqb theta 0 && Rneqb sin_theta 0 then
        a <~ lift (num target_point_a) ;;
        k <~ lift (num kickoff_point) ;;
        let calculated_vertical := solve_vertical k a theta sin_theta in
        update (set_targetPointA_verticalDepth_m (VNum calculated_vertical)) ;;;
        print (PrintVertical calculated_vertical)
      else print WarnNoVertical
    else if has_kickoff && has_target_a_vertical && negb has_target_a then
      if Rneqb theta 0 && Rneqb sin_theta 0 then
        v <~ lift (num target_point_a_vertical) ;;
        k <~ lift (num kickoff_point) ;;
        let calculated_target_a := solve_target_a k v theta sin_theta in
        update (set_targetPointA_m (VNum calculated_target_a)) ;;;
        print (PrintTargetA calculated_target_a)
      else print WarnNoTargetA
    else if has_target_a && has_target_a_vertical && negb has_kickoff then
      if Rneqb sin_theta theta && Rneqb sin_theta 0 then
        a <~ lift (num target_point_a) ;;
        v <~ lift (num target_point_a_vertical) ;;
        let calculated_kickoff := solve_kickoff a v theta sin_theta in
        update (set_kickoffPoint_m (VNum calculated_kickoff)) ;;;
        print (PrintKickoff calculated_kickoff)
      else print WarnNoKickoff
    else ret tt
  else ret tt.

(** Lines "处理A点、B点深度和AB点距离的逻辑关系". *)
Definition resolve_ab : M unit :=
  d <~ read ;;
  let target_point_a := get (targetPointA_m d) in
  let target_point_b := get (targetPointB_m d) in
  let distance_ab := get (DistanceAB_m d) in
  let has_a := is_valid target_point_a in
  let has_b := is_valid target_point_b in
  let has_ab := is_valid distance_ab in
  if (Nat.b2n has_a + Nat.b2n has_b + Nat.b2n has_ab <? 2)%nat then raise ValueError
  else if has_a && has_b then
    diff <~ lift (py_sub target_point_b target_point_a) ;;
    let calculated_ab := Rabs diff in
    if has_ab then
      err <~ lift (py_sub (VNum calculated_ab) distance_ab) ;;
      if Rgt_dec (Rabs err) 0.001 then raise ValueError else ret tt
    else
      update (set_DistanceAB_m (VNum calculated_ab)) ;;;
      print (PrintDistanceAB calculated_ab)
  else if has_a && has_ab then
    calculated_b <~ lift (py_add target_point_a distance_ab) ;;
    update (set_targetPointB_m calculated_b) ;;;
    print (PrintTargetB calculated_b)
  else if has_b && has_ab then
    calculated_a <~ lift (py_sub target_point_b distance_ab) ;;
    update (set_targetPointA_m (VNum calculated_a)) ;;;
    print (PrintTargetAFromB calculated_a)
  else ret tt.

(** Lines "验证深度顺序": the chained comparison
    [kickoff_point < target_point_a <= target_point_b]. *)
Definition check_order (kickoff_point : value) : M unit :=
  d <~ read ;;
  target_point_a <~ lift (item (targetPointA_m d)) ;;
  target_point_b <~ lift (item (targetPointB_m d)) ;;
  lt <~ lift (py_lt kickoff_point target_point_a) ;;
  le <~ (if (lt : bool) then lift (py_le target_point_a target_point_b) else ret false) ;;
  if lt && le then ret tt else raise ValueError.

(** Everything after the straight-well shortcut. *)
Definition validate_directional (f : json_file) : M bool :=
  resolve_kickoff f ;;;
  d <~ read ;;
  kickoff_point <~ lift (item (kickoffPoint_m d)) ;;
  deviation_angle <~ resolve_angle f ;;
  resolve_geometry kickoff_point deviation_angle ;;;
  resolve_ab ;;;
  check_order kickoff_point ;;;
  print PrintPassed ;;;
  ret true.

Definition validate_deviation_data (f : json_file) : M bool :=
  print PrintStart ;;;
  match wd <- load f ;; wt <- get_well_type wd ;; Ok (wt, get_total_depth wd) with
  | Ok (well_type, total_depth) =>
      if (well_type =? "straight well")%string then
        update (straight_defaults total_depth) ;;;
        print (PrintStraightDefaults total_depth) ;;;
        ret true
      else validate_directional f
  | Raise _ => print WarnReadWellType ;;; validate_directional f
  end.

(** Running the validation on a dict: the returned value or exception, the
    dict as mutated, and what was printed. *)
Definition run (f : json_file) (d : deviation_data) : result bool * state :=
  validate_deviation_data f (mk_state d []).

(** *** The angle and geometry steps of [map_raw_data] *)

(** The angle of the raw CSV is a float, or missing ([None] or no row). *)
Definition map_angle (f : json_file) (raw_angle : option R) : R :=
  let angle :=
    match raw_angle with
    | Some a => a
    | None =>
        match wd <- load f ;; get_well_type wd with
        | Ok well_type =>
            if (well_type =? "horizontal well")%string then 90.0
            else if (well_type =? "deviated well")%string then 45.0
            else 0.0
        | Raise _ => 0.0
        end
    end in
  match wd <- load f ;; get_well_type wd with
  | Ok well_type =>
      if (well_type =? "deviated well")%string then
        if Rle_dec angle 1 then 30.0 else angle
      else angle
  | Raise _ => angle
  end.

Record mapped_triple : Type := mk_mapped_triple {
  kickoff_mapped : option R;
  target_a_mapped : option R;
  target_a_vertical_mapped : option R
}.

(** "第二步：使用直接映射值进行几何关系计算": three successive completions. *)
Definition map_geometry (deviation_angle : R) (t : mapped_triple) : mapped_triple :=
  let theta := radians deviation_angle in
  let sin_theta := sin theta in
  let k1 :=
    match kickoff_mapped t, target_a_mapped t, target_a_vertical_mapped t with
    | None, Some a, Some v =>
        if Rneqb sin_theta theta && Rneqb sin_theta 0
        then Some (solve_kickoff a v theta sin_theta) else None
    | k, _, _ => k
    end in
  let a1 :=
    match target_a_mapped t, k1, target_a_vertical_mapped t with
    | None, Some k, Some v =>
        if Rneqb sin_theta 0 then Some (solve_target_a k v theta sin_theta) else None
    | a, _, _ => a
    end in
  let v1 :=
    match target_a_vertical_mapped t, k1, a1 with
    | None, Some k, Some a =>
        if Rneqb theta 0 then Some (solve_vertical k a theta sin_theta) else None
    | v, _, _ => v
    end in
  mk_mapped_triple k1 a1 v1.

End Deviation.

(** ** Specification-side predicates and sample data *)

Module Spec.

Import Stratigraphy.

(** All three required fields are present. *)
Definition complete (l : raw_layer) : Prop :=
  name l <> None /\ topDepth_m l <> None /\ bottomDepth_m l <> None.

(** A gapless partition: every layer has [top < bottom] and ends exactly
    where the next one starts. *)
Fixpoint gapless_partition (s : list raw_layer) : Prop :=
  match s with
  | [] => True
  | current :: rest =>
      (exists top bottom,
          topDepth_m current = Some top /\
          bottomDepth_m current = Some bottom /\
          top < bottom /\
          match rest with
          | [] => True
          | next :: _ => topDepth_m next = Some bottom
          end) /\
      gapless_partition rest
  end.

(** Order of the sort keys. *)
Definition key_le (a b : R * raw_layer) : Prop := fst a <= fst b.

(** The same for the layers read back from the raw CSV. *)
Fixpoint csv_chained (prev : csv_layer) (rest : list csv_layer) : Prop :=
  match rest with
  | [] => True
  | l :: r =>
      csv_bottomDepth_m prev = csv_topDepth_m l /\
      csv_topDepth_m l < csv_bottomDepth_m l /\
      csv_chained l r
  end.

Definition csv_gapless (ls : list csv_layer) : Prop :=
  match ls with
  | [] => False
  | l :: r => csv_topDepth_m l < csv_bottomDepth_m l /\ csv_chained l r
  end.

(** Events of the kickoff-reconstruction branch of the geometric stage. *)
Definition kickoff_branch_event (e : Deviation.event) : bool :=
  match e with
  | Deviation.PrintKickoff _ | Deviation.WarnNoKickoff => true
  | _ => false
  end.

End Spec.

Module Examples.

Definition layer (n : string) (top bottom : R) : Stratigraphy.raw_layer :=
  Stratigraphy.mk_raw_layer (Some n) (Some top) (Some bottom).

(** The list [[{0,100},{105,200}]] with a gap of 5. *)
Definition gap_layers : list Stratigraphy.raw_layer :=
  [layer "Q" 0 100; layer "N" 105 200].

(** A continuous list given out of order. *)
Definition good_layers : list Stratigraphy.raw_layer :=
  [layer "N" 100 200; layer "Q" 0 100].

Definition csv_layers : list Stratigraphy.csv_layer :=
  [Stratigraphy.mk_csv_layer "Q" 0 10; Stratigraphy.mk_csv_layer "N" 10 1000].

Definition table : list DepthMapping.mapping_layer :=
  [DepthMapping.mk_mapping_layer 0 100 0 1;
   DepthMapping.mk_mapping_layer 100 200 1 5].

Import Deviation.

Definition well_file (well_type : string) (total_depth : R) : json_file :=
  Some (mk_well_data (Some (VStr well_type)) (Some (VNum total_depth))).

Definition straight_file : json_file := well_file "  Straight Well " 3000.
Definition horizontal_file : json_file := well_file "Horizontal Well" 3000.
Definition deviated_file : json_file := well_file "deviated well" 3000.

(** Kickoff and target A known, A's vertical depth missing, angle 0. *)
Definition degenerate_data : deviation_data :=
  mk_deviation_data (Some (VNum 0)) (Some (VNum 1000)) (Some (VNum 2000))
    None None (Some (VNum 3000)) None.

(** [kickoffPoint_m] and [REAL_kickoffPoint_m] both present and null. *)
Definition null_kickoff_data : deviation_data :=
  mk_deviation_data (Some (VNum 90)) (Some VNone) (Some (VNum 2000))
    (Some (VNum 1800)) (Some VNone) (Some (VNum 2500)) None.

Definition negative_angle_data : deviation_data :=
  mk_deviation_data (Some (VNum (-5))) (Some (VNum 1000)) (Some (VNum 2000))
    None None (Some (VNum 3000)) None.

(** All three of target A, target B and their distance, in agreement. *)
Definition consistent_ab_data : deviation_data :=
  mk_deviation_data (Some (VNum 45)) (Some (VNum 1000)) (Some (VNum 2000))
    None None (Some (VNum 2500)) (Some (VNum 500)).

Definition low_angle_data : deviation_data :=
  mk_deviation_data (Some (VNum 0.5)) (Some (VNum 1000)) (Some (VNum 2000))
    None None (Some (VNum 3000)) None.

End Examples.

(** ** Stratigraphy: the raw export and the two steps in a row *)

Module StratigraphyExport.

Import Stratigraphy.

(** A row is written when [layer.get('name')] is truthy (a non-empty
    string) and both depths are there. *)
Definition export_row (layer : raw_layer) : option csv_layer :=
  match name layer, topDepth_m layer, bottomDepth_m layer with
  | Some n, Some top, Some bottom =>
      if (n =? "")%string then None else Some (mk_csv_layer n top bottom)
  | _, _, _ => None
  end.

Fixpoint export_rows (sorted_stratigraphy : list raw_layer) : list csv_layer :=
  match sorted_stratigraphy with
  | [] => []
  | layer :: rest =>
      match export_row layer with
      | Some row => row :: export_rows rest
      | None => export_rows rest
      end
  end.

(** [export_raw_data]: the rows of [stratigraphy_raw.csv].  Writing a number
    and reading it back with [float] is the identity on the reals. *)
Definition export_raw_data (stratigraphy : list raw_layer)
  : result (list csv_layer) :=
  sorted_stratigraphy <- sorted_by_top stratigraphy ;;
  Ok (export_rows sorted_stratigraphy).

(** [process_step1_extract] followed by [process_step2_map]. *)
Definition process_steps (stratigraphy : list raw_layer)
  (total_mapped_thickness : R) : result (list mapped_layer) :=
  rows <- export_raw_data stratigraphy ;;
  map_raw_data rows total_mapped_thickness.

End StratigraphyExport.

(** ** Interval datasets: drilling fluid, hole sections, casing sections *)

Module Sorting.

Section ByKey.

Context {A : Type}.
Variable key : A -> option R.

(** [sorted(xs, key=lambda x: x[k])] for a key [k] that may be absent. *)
Fixpoint sort_keys (l : list A) : result (list (R * A)) :=
  match l with
  | [] => Ok []
  | x :: r =>
      match key x with
      | None => Raise KeyError
      | Some k => ks <- sort_keys r ;; Ok ((k, x) :: ks)
      end
  end.

Fixpoint insert_by_key (x : R * A) (l : list (R * A)) : list (R * A) :=
  match l with
  | [] => [x]
  | y :: r =>
      if Rle_dec (fst x) (fst y) then x :: y :: r
      else y :: insert_by_key x r
  end.

Definition stable_sort (l : list (R * A)) : list (R * A) :=
  fold_right insert_by_key [] l.

Definition sorted (l : list A) : result (list A) :=
  ks <- sort_keys l ;; Ok (map snd (stable_sort ks)).

End ByKey.

End Sorting.

Module DrillingFluid.

(** The value under [pressureWindow_gcm3]: a dict, with or without its
    [min] and [max] keys, or something that is not a dict. *)
Inductive window : Type :=
| NotADict
| Window (min max : option R).

Record section : Type := mk_section {
  topDepth_m : option R;
  bottomDepth_m : option R;
  porePressure_gcm3 : option R;
  pressureWindow_gcm3 : option window
}.

Definition window_ok (pressure_window : window) : bool :=
  match pressure_window with
  | Window (Some _) (Some _) => true
  | _ => false
  end.

Fixpoint check_sections (s : list section) : result bool :=
  match s with
  | [] => Ok true
  | current_section :: rest =>
      match topDepth_m current_section, bottomDepth_m current_section,
            porePressure_gcm3 current_section,
            pressureWindow_gcm3 current_section with
      | Some top, Some bottom, Some _, Some pressure_window =>
          if negb (window_ok pressure_window) then Raise ValueError
          else if Rge_dec top bottom then Raise ValueError
          else
            match rest with
            | [] => check_sections rest
            | next_section :: _ =>
                match topDepth_m next_section with
                | None => Raise KeyError
                | Some next_top =>
                    if Req_dec_T bottom next_top then check_sections rest
                    else Raise ValueError
                end
            end
      | _, _, _, _ => Raise ValueError
      end
  end.

Definition validate_continuity (drilling_fluid_data : list section) : result bool :=
  match drilling_fluid_data with
  | [] => Raise ValueError
  | _ :: _ =>
      sorted_data <- Sorting.sorted topDepth_m drilling_fluid_data ;;
      check_sections sorted_data
  end.

(** The section seen as a stratigraphic layer: the layer has a name exactly
    when the pore pressure and a well-formed window are there. *)
Definition as_layer (s : section) : Stratigraphy.raw_layer :=
  Stratigraphy.mk_raw_layer
    (match porePressure_gcm3 s, pressureWindow_gcm3 s with
     | Some _, Some pressure_window =>
         if window_ok pressure_window then Some "section"%string else None
     | _, _ => None
     end)
    (topDepth_m s) (bottomDepth_m s).

Definition as_pair (p : R * section) : R * Stratigraphy.raw_layer :=
  (fst p, as_layer (snd p)).

End DrillingFluid.

Module HoleSections.

Record section : Type := mk_section {
  topDepth_m : option R;
  bottomDepth_m : option R;
  diameter_mm : option R;
  note_in : option string
}.

Fixpoint check_sections (s : list section) : result bool :=
  match s with
  | [] => Ok true
  | current_section :: rest =>
      match topDepth_m current_section, bottomDepth_m current_section,
            diameter_mm current_section, note_in current_section with
      | Some top, Some bottom, Some _, Some _ =>
          if Rge_dec top bottom then Raise ValueError else check_sections rest
      | _, _, _, _ => Raise ValueError
      end
  end.

Definition validate_data (hole_sections : list section) : result bool :=
  match hole_sections with
  | [] => Raise ValueError
  | _ :: _ =>
      sorted_sections <- Sorting.sorted topDepth_m hole_sections ;;
      check_sections sorted_sections
  end.

(** What the check asks of one section. *)
Definition valid (s : section) : Prop :=
  exists top bottom,
    topDepth_m s = Some top /\ bottomDepth_m s = Some bottom /\
    diameter_mm s <> None /\ note_in s <> None /\ top < bottom.

End HoleSections.

Module CasingSections.

Record section : Type := mk_section {
  topDepth_m : option R;
  bottomDepth_m : option R;
  od_mm : option R;
  note_in : option string
}.

Fixpoint check_sections (s : list section) : result bool :=
  match s with
  | [] => Ok true
  | current_section :: rest =>
      match topDepth_m current_section, bottomDepth_m current_section,
            od_mm current_section, note_in current_section with
      | Some top, Some bottom, Some _, Some _ =>
          if Rgt_dec top bottom then Raise ValueError else check_sections rest
      | _, _, _, _ => Raise ValueError
      end
  end.

(** Casing sections are sorted by their bottom depth. *)
Definition validate_data (casing_sections : list section) : result bool :=
  match casing_sections with
  | [] => Raise ValueError
  | _ :: _ =>
      sorted_sections <- Sorting.sorted bottomDepth_m casing_sections ;;
      check_sections sorted_sections
  end.

Definition valid (s : section) : Prop :=
  exists top bottom,
    topDepth_m s = Some top /\ bottomDepth_m s = Some bottom /\
    od_mm s <> None /\ note_in s <> None /\ top <= bottom.

End CasingSections.

Module SectionMapping.

(** The loop shared by the [map_raw_data] and [export_to_csv] of the
    drilling-fluid, hole and casing extractors:
    [section['mapped_top_cm'] = calculate_mapped_depth(section['topDepth_m'])]
    and the same for the bottom, section after section. *)
Record interval : Type := mk_interval {
  topDepth_m : R;
  bottomDepth_m : R
}.

Record mapped_interval : Type := mk_mapped_interval {
  source : interval;
  mapped_top_cm : R;
  mapped_bottom_cm : R
}.

Fixpoint map_sections (sections : list interval)
  (stratigraphy_mapping : list DepthMapping.mapping_layer)
  : result (list mapped_interval) :=
  match sections with
  | [] => Ok []
  | section :: rest =>
      top <- DepthMapping.calculate_mapped_depth (topDepth_m section)
               stratigraphy_mapping ;;
      bottom <- DepthMapping.calculate_mapped_depth (bottomDepth_m section)
                  stratigraphy_mapping ;;
      mapped <- map_sections rest stratigraphy_mapping ;;
      Ok (mk_mapped_interval section top bottom :: mapped)
  end.

(** Diameters in mm become cm, then are drawn at 1:20. *)
Definition mapped_diameter_cm (diameter_mm : R) : R :=
  let diameter_cm := diameter_mm / 10 in
  diameter_cm / 20.

End SectionMapping.

(** ** More specification-side predicates *)

Module Spec2.

Import Stratigraphy.

(** Mapped boundaries laid end to end from [mapped_top]. *)
Fixpoint cumulative (mapped_top : R) (ms : list mapped_layer) : Prop :=
  match ms with
  | [] => True
  | m :: r =>
      mapped_top_cm m = mapped_top /\
      mapped_bottom_cm m = mapped_top + mapped_thickness_cm m /\
      cumulative (mapped_bottom_cm m) r
  end.

(** The sort key of a layer as a real (0 when the key is absent). *)
Definition top_of (l : raw_layer) : R :=
  match topDepth_m l with
  | Some t => t
  | None => 0
  end.

(** The layer's name is not the empty string. *)
Definition named (x : raw_layer) : Prop := name x <> Some ""%string.

(** An outcome with [KeyError] read as [ValueError]. *)
Definition key_error_as_value_error {A : Type} (r : result A) : result A :=
  match r with
  | Raise KeyError => Raise ValueError
  | _ => r
  end.

End Spec2.

Module Examples2.

(** Two hole sections that overlap, given deepest first. *)
Definition overlapping_holes : list HoleSections.section :=
  [HoleSections.mk_section (Some 0) (Some 1500) (Some 311.2) (Some "12-1/4"%string);
   HoleSections.mk_section (Some 0) (Some 500) (Some 444.5) (Some "17-1/2"%string)].

(** A casing section of length zero. *)
Definition zero_length_casing : list CasingSections.section :=
  [CasingSections.mk_section (Some 500) (Some 500) (Some 339.7) (Some "13-3/8"%string)].

Definition fluid_sections : list DrillingFluid.section :=
  [DrillingFluid.mk_section (Some 100) (Some 200) (Some 1.05)
     (Some (DrillingFluid.Window (Some 1.1) (Some 1.3)));
   DrillingFluid.mk_section (Some 0) (Some 100) (Some 1.0)
     (Some (DrillingFluid.Window (Some 1.05) (Some 1.2)))].

Definition intervals : list SectionMapping.interval :=
  [SectionMapping.mk_interval 0 150; SectionMapping.mk_interval 150 300].

(** Two layers with the same top, one of them without a name, in both
    orders. *)
Definition named_first : list Stratigraphy.raw_layer :=
  [Stratigraphy.mk_raw_layer (Some "A"%string) (Some 0) (Some 100);
   Stratigraphy.mk_raw_layer None (Some 0) (Some 50)].

Definition unnamed_first : list Stratigraphy.raw_layer :=
  [Stratigraphy.mk_raw_layer None (Some 0) (Some 50);
   Stratigraphy.mk_raw_layer (Some "A"%string) (Some 0) (Some 100)].

(** A complete section followed by one without its pore pressure. *)
Definition unfinished_fluid : list DrillingFluid.section :=
  [DrillingFluid.mk_section (Some 0) (Some 100) (Some 1.0)
     (Some (DrillingFluid.Window (Some 1.05) (Some 1.2)));
   DrillingFluid.mk_section (Some 100) (Some 200) None
     (Some (DrillingFluid.Window (Some 1.1) (Some 1.3)))].

End Examples2.

(** ** Predicates on the trajectory dict *)

Module Spec3.

Import Deviation.

(** Two dicts that differ at most in [kickoffPoint_m]. *)
Definition same_but_kickoff (d d' : deviation_data) : Prop :=
  deviationAngle_deg d' = deviationAngle_deg d /\
  targetPointA_m d' = targetPointA_m d /\
  targetPointA_verticalDepth_m d' = targetPointA_verticalDepth_m d /\
  REAL_kickoffPoint_m d' = REAL_kickoffPoint_m d /\
  targetPointB_m d' = targetPointB_m d /\
  DistanceAB_m d' = DistanceAB_m d.

(** What a dict looks like once a directional well has been validated. *)
Definition resolved (d : deviation_data) : Prop :=
  exists deg kickoff target_a target_b distance_ab,
    deviationAngle_deg d = Some (VNum deg) /\ 0 <= deg <= 90 /\
    kickoffPoint_m d = Some kickoff /\
    targetPointA_m d = Some target_a /\
    targetPointB_m d = Some target_b /\
    DistanceAB_m d = Some distance_ab /\
    py_lt kickoff target_a = Ok true /\
    py_le target_a target_b = Ok true.

(** Two dicts that differ at most in [deviationAngle_deg]. *)
Definition same_but_angle (d d' : deviation_data) : Prop :=
  kickoffPoint_m d' = kickoffPoint_m d /\
  targetPointA_m d' = targetPointA_m d /\
  targetPointA_verticalDepth_m d' = targetPointA_verticalDepth_m d /\
  REAL_kickoffPoint_m d' = REAL_kickoffPoint_m d /\
  targetPointB_m d' = targetPointB_m d /\
  DistanceAB_m d' = DistanceAB_m d.

End Spec3.

(** ** Trajectory: the geometric step of [export_to_csv] *)

Module DeviationExport.

Import Deviation.

(** "根据几何关系计算映射深度" in [export_to_csv]: an [if]/[elif] chain
    that first looks for target A and its vertical depth, then for kickoff
    and target A, then for kickoff and the vertical depth. *)
Definition export_geometry (deviation_angle : R) (t : mapped_triple)
  : mapped_triple :=
  let theta := radians deviation_angle in
  let sin_theta := sin theta in
  match target_a_mapped t, target_a_vertical_mapped t with
  | Some a, Some v =>
      if Rneqb sin_theta theta && Rneqb sin_theta 0 then
        mk_mapped_triple (Some (solve_kickoff a v theta sin_theta)) (Some a) (Some v)
      else t
  | _, _ =>
      match kickoff_mapped t, target_a_mapped t with
      | Some k, Some a =>
          if Rneqb theta 0 then
            mk_mapped_triple (Some k) (Some a)
              (Some (solve_vertical k a theta sin_theta))
          else t
      | _, _ =>
          match kickoff_mapped t, target_a_vertical_mapped t with
          | Some k, Some v =>
              if Rneqb sin_theta 0 then
                mk_mapped_triple (Some k)
                  (Some (solve_target_a k v theta sin_theta)) (Some v)
              else t
          | _, _ => t
          end
      end
  end.

(** A triple that obeys the two build-arc equations
    [R*θ + kickoff = targetA] and [R*sin θ + kickoff = vertical]. *)
Definition on_arc (deviation_angle : R) (t : mapped_triple) : Prop :=
  exists k a v,
    t = mk_mapped_triple (Some k) (Some a) (Some v) /\
    let theta := radians deviation_angle in
    let R := (a - k) / theta in
    R * sin theta + k = v.

End DeviationExport.

(** ** Plot: the trajectory drawn by [draw_trajectory_design] *)

Module Plot.

Import Deviation.

(** The nine numbers [draw_trajectory_design] hands to [draw_wellbore] and
    [draw_casing]. *)
Record trajectory : Type := mk_trajectory {
  radius : R;
  aux_x : R;
  aux_y : R;
  a_x : R;
  a_y : R;
  b_x : R;
  b_y : R;
  extend_x : R;
  extend_y : R
}.

(** [deviation_angle_deg], forced to 90 on a well drawn as horizontal. *)
Definition plot_angle_deg (is_horizontal_well : bool) (deviation_angle : R) : R :=
  if is_horizontal_well then 90.0 else deviation_angle.

(** Lines "如果是直井 ... else 非直井，绘制完整的井眼轨迹": [straight] is
    [self.well_type == "straight well"], [target_a_vertical_depth] is [None]
    when the table has no row for it. *)
Definition trajectory_points (straight : bool)
    (origin_x kickoff_depth deviation_angle_rad target_a_depth ab_distance : R)
    (target_a_vertical_depth : option R) : trajectory :=
  if straight then
    mk_trajectory 0 origin_x kickoff_depth origin_x kickoff_depth
      origin_x kickoff_depth origin_x kickoff_depth
  else
    let radius :=
      match target_a_vertical_depth with
      | Some v =>
          if Rneqb (sin deviation_angle_rad) 0
          then (v - kickoff_depth) / sin deviation_angle_rad
          else (target_a_depth - kickoff_depth) / 3.1415
      | None => (target_a_depth - kickoff_depth) / 3.1415
      end in
    let aux_x := origin_x + radius in
    let aux_y := kickoff_depth in
    let a_x := aux_x + radius * cos (PI - deviation_angle_rad) in
    let a_y := aux_y + radius * sin (PI - deviation_angle_rad) in
    let b_x := a_x + ab_distance * sin deviation_angle_rad in
    let b_y := a_y + ab_distance * cos deviation_angle_rad in
    let extend_length := ab_distance / 10 in
    let extend_x := b_x + extend_length * sin deviation_angle_rad in
    let extend_y := b_y + extend_length * cos deviation_angle_rad in
    mk_trajectory radius aux_x aux_y a_x a_y b_x b_y extend_x extend_y.

(** [draw_wellbore], the loop over the hole sections: what is drawn of a
    section above the kickoff point, as (top, bottom), or nothing. *)
Definition vertical_segment (kickoff_depth top_depth bottom_depth : R)
  : option (R * R) :=
  if Rle_dec bottom_depth kickoff_depth then Some (top_depth, bottom_depth)
  else if (if Rlt_dec top_depth kickoff_depth then true else false)
          && (if Rgt_dec bottom_depth kickoff_depth then true else false)
  then Some (top_depth, kickoff_depth)
  else None.

(** [np.clip] *)
Definition clip (x lo hi : R) : R := Rmin (Rmax x lo) hi.

(** [depth_to_angle] of [draw_curved_wellbore_section]. *)
Definition depth_to_angle (aux_y radius depth : R) : R :=
  let ratio := (depth - aux_y) / Rmax radius 1e-9 in
  let ratio := clip ratio 0.0 1.0 in
  PI - asin ratio.

(** The call of [draw_curved_wellbore_section] in [draw_wellbore]: the
    (start, end) angles of the drawn arc, or nothing when the call is
    skipped. *)
Definition curved_section (t : trajectory) (kickoff_depth : R) : option (R * R) :=
  let curved_end := Rmax (a_y t) kickoff_depth in
  if Rgt_dec curved_end kickoff_depth then
    Some (depth_to_angle (aux_y t) (radius t) kickoff_depth,
          depth_to_angle (aux_y t) (radius t) curved_end)
  else None.

(** [depth_to_trajectory_position] of [draw_inclined_wellbore_section].  The
    caller passes depths up to [extend_y] only, for which the branch taken
    never divides by zero. *)
Definition depth_to_trajectory_position (t : trajectory) (depth : R) : R * R :=
  if Rle_dec depth (a_y t) then (a_x t, depth)
  else if Rle_dec depth (b_y t) then
    let depth_ratio := (depth - a_y t) / (b_y t - a_y t) in
    (a_x t + depth_ratio * (b_x t - a_x t), depth)
  else
    let depth_ratio := (depth - b_y t) / (extend_y t - b_y t) in
    (b_x t + depth_ratio * (extend_x t - b_x t), depth).

(** [detect_well_type]: the returned type and the dict
    [well_data.get('deviationData', {})] after the call, [d] being that dict
    before it.  An exception leaves the dict as it was at that point;
    [process] catches whatever is raised. *)
Definition required_fields_present (d : deviation_data) : bool :=
  match kickoffPoint_m d, deviationAngle_deg d, targetPointA_m d, targetPointB_m d with
  | Some _, Some _, Some _, Some _ => true
  | _, _, _, _ => false
  end.

Definition detect_well_type (wd : well_data) (d : deviation_data)
  : result string * deviation_data :=
  let total_depth_m := get_total_depth wd in
  match get_well_type wd with
  | Raise e => (Raise e, d)
  | Ok well_type =>
      if (well_type =? "")%string then (Ok "straight well"%string, d)
      else if (well_type =? "horizontal well")%string
              || (well_type =? "deviated well")%string then
        let check d' :=
          if required_fields_present d' then (Ok well_type, d')
          else (Ok "straight well"%string, d') in
        if is_null (get (kickoffPoint_m d)) then
          match REAL_kickoffPoint_m d with
          | Some v => check (set_kickoffPoint_m v d)
          | None =>
              match py_lt (VNum 0) total_depth_m with
              | Ok true => check (set_kickoffPoint_m total_depth_m d)
              | Ok false => check (set_kickoffPoint_m (VNum 0) d)
              | Raise e => (Raise e, d)
              end
          end
        else check d
      else if (well_type =? "straight well")%string then
        (Ok well_type, straight_defaults total_depth_m d)
      else (Ok "straight well"%string, d)
  end.

(** Squared distance of two points of the drawing. *)
Definition dist2 (x1 y1 x2 y2 : R) : R := (x1 - x2)² + (y1 - y2)².

End Plot.

(** ** The build-arc formulas in double precision *)

Module Binary64.

Import PrimFloat.
Local Open Scope float_scope.

(** [math.pi], and [math.radians], which multiplies by [pi / 180]. *)
Definition pi : float := 0x1.921fb54442d18p+1.

Definition radians (x : float) : float := x * (pi / 180).

(** The formulas of [validate_deviation_data], operation by operation. *)
Definition solve_vertical (kickoff_point target_point_a theta sin_theta : float)
  : float :=
  let R := (target_point_a - kickoff_point) / theta in
  R * sin_theta + kickoff_point.

Definition solve_kickoff (target_point_a target_point_a_vertical theta sin_theta : float)
  : float :=
  (target_point_a * sin_theta - target_point_a_vertical * theta)
  / (sin_theta - theta).

Definition relative_error (computed original : float) : float :=
  abs (computed - original) / abs original.

(** A's vertical depth from kickoff and target A, then the kickoff back from
    target A and that vertical depth: the relative error of the result.
    [sin_theta] is what [math.sin] returned for the angle. *)
Definition round_trip_error (deg sin_theta kickoff_point target_point_a : float)
  : float :=
  let theta := radians deg in
  let vertical := solve_vertical kickoff_point target_point_a theta sin_theta in
  relative_error (solve_kickoff target_point_a vertical theta sin_theta)
    kickoff_point.

(** The doubles nearest to 1e-5 and to 1e-6. *)
Definition small_angle_deg : float := 0x1.4f8b588e368f1p-17.

Definition tolerance : float := 0x1.0c6f7a0b5ed8dp-20.

(** The double nearest to the sine of [radians small_angle_deg], with the
    double below it and the double above it: whichever way [math.sin]
    rounds, it returns one of the three. *)
Definition small_angle_sines : list float :=
  [0x1.76ce7d8722e87p-23; 0x1.76ce7d8722e88p-23; 0x1.76ce7d8722e89p-23].

(** Where the claim applies: the angle is in (0, 90], [kickoff < targetA],
    and the guards of the kickoff branch pass. *)
Definition in_domain (deg kickoff_point target_point_a sin_theta : float) : bool :=
  (0 <? deg) && (deg <=? 90) && (kickoff_point <? target_point_a)
  && negb (sin_theta =? radians deg) && negb (sin_theta =? 0).

(** The kickoff is reproduced within the tolerance. *)
Definition within_tolerance (deg kickoff_point target_point_a sin_theta : float)
  : bool :=
  round_trip_error deg sin_theta kickoff_point target_point_a <=? tolerance.

(** The double nearest to the sine of [radians 30], with its two
    neighbours. *)
Definition thirty_degree_sines : list float :=
  [0x1.ffffffffffffep-2; 0x1.fffffffffffffp-2; 0x1p-1].

Definition thirty_deg : float := 30.

Definition kickoff_example : float := 1000.

Definition target_a_example : float := 2000.

End Binary64.

(** * Properties *)

(** ** Proof automation *)

(** Decide the comparisons of reals met while running the code on concrete
    numbers. *)
Ltac decide_reals :=
  repeat match goal with
    | |- context [Rle_dec ?a ?b] => destruct (Rle_dec a b); try (exfalso; lra)
    | |- context [Rlt_dec ?a ?b] => destruct (Rlt_dec a b); try (exfalso; lra)
    | |- context [Rge_dec ?a ?b] => destruct (Rge_dec a b); try (exfalso; lra)
    | |- context [Rgt_dec ?a ?b] => destruct (Rgt_dec a b); try (exfalso; lra)
    | |- context [Req_dec_T ?a ?b] => destruct (Req_dec_T a b); try (exfalso; lra)
    end.

(** Unfold the monadic plumbing of one stage. *)
Ltac run_stage :=
  unfold Deviation.mbind, Deviation.read, Deviation.update, Deviation.print,
    Deviation.lift, Deviation.ret, Deviation.raise; cbn beta iota.

(** Split on every test met in a hypothesis. *)
Ltac split_ifs H :=
  repeat match type of H with
    | context [if ?c then _ else _] => destruct c eqn:?; simpl in H
    | context [match ?x with _ => _ end] => destruct x eqn:?; simpl in H
    end.

(** Turn the comparisons recorded as booleans into facts for [lra]. *)
Ltac reals_from_hyps :=
  repeat match goal with
    | H : context [Rle_dec ?a ?b] |- _ => destruct (Rle_dec a b); simpl in H; try discriminate
    | H : context [Rlt_dec ?a ?b] |- _ => destruct (Rlt_dec a b); simpl in H; try discriminate
    | H : context [Rgt_dec ?a ?b] |- _ => destruct (Rgt_dec a b); simpl in H; try discriminate
    | H : context [Rge_dec ?a ?b] |- _ => destruct (Rge_dec a b); simpl in H; try discriminate
    end.

(** Run the whole validation on concrete data. *)
Ltac run_concrete :=
  unfold Deviation.run, Deviation.validate_deviation_data,
    Deviation.validate_directional, Deviation.resolve_kickoff,
    Deviation.kickoff_from_file, Deviation.resolve_angle,
    Deviation.resolve_geometry, Deviation.resolve_ab, Deviation.check_order;
  run_stage; repeat (simpl; decide_reals).

(** ** Rounding *)

Section RoundingFacts.

Lemma Int_part_spec (x : R) : IZR (Int_part x) <= x < IZR (Int_part x) + 1.
Proof. destruct (base_Int_part x). lra. Qed.

Lemma Int_part_le (x y : R) : x <= y -> (Int_part x <= Int_part y)%Z.
Proof.
  intros H. pose proof (Int_part_spec x) as Hx. pose proof (Int_part_spec y) as Hy.
  assert (Hlt : IZR (Int_part x) < IZR (Int_part y + 1)) by (rewrite plus_IZR; lra).
  apply lt_IZR in Hlt. lia.
Qed.

Lemma round_half_even_bounds (x : R) :
  (Int_part x <= round_half_even x <= Int_part x + 1)%Z /\
  - (1 / 2) <= IZR (round_half_even x) - x <= 1 / 2.
Proof.
  pose proof (Int_part_spec x) as Hx. unfold round_half_even. cbv zeta.
  destruct (Rlt_dec (x - IZR (Int_part x)) (1 / 2)); [split; [lia | lra]|].
  destruct (Rgt_dec (x - IZR (Int_part x)) (1 / 2));
    [split; [lia | rewrite plus_IZR; lra]|].
  destruct (Z.even (Int_part x)); [split; [lia | lra]|].
  split; [lia | rewrite plus_IZR; lra].
Qed.

Lemma round_half_even_le (x y : R) :
  x <= y -> (round_half_even x <= round_half_even y)%Z.
Proof.
  intros H. pose proof (Int_part_le x y H) as Hn.
  destruct (Z.eq_dec (Int_part x) (Int_part y)) as [E|Hne].
  - unfold round_half_even. cbv zeta. rewrite <- E.
    destruct (Rlt_dec (x - IZR (Int_part x)) (1 / 2));
      destruct (Rlt_dec (y - IZR (Int_part x)) (1 / 2));
      try lia; try (exfalso; lra);
      destruct (Rgt_dec (x - IZR (Int_part x)) (1 / 2));
      destruct (Rgt_dec (y - IZR (Int_part x)) (1 / 2));
      try lia; try (exfalso; lra);
      destruct (Z.even (Int_part x)); lia.
  - pose proof (proj1 (round_half_even_bounds x)).
    pose proof (proj1 (round_half_even_bounds y)). lia.
Qed.

Lemma pow10_pos (n : nat) : 0 < 10 ^ n.
Proof. apply pow_lt. lra. Qed.

(** Rounding keeps the order. *)
Lemma round_le (x y : R) (n : nat) : x <= y -> round x n <= round y n.
Proof.
  intros H. unfold round. pose proof (pow10_pos n) as Hp.
  apply Rmult_le_compat_r; [left; now apply Rinv_0_lt_compat|].
  apply IZR_le, round_half_even_le. apply Rmult_le_compat_r; lra.
Qed.

(** Rounding moves a value by at most half a unit of the last digit. *)
Lemma round_error (x : R) (n : nat) :
  - (1 / 2 / 10 ^ n) <= round x n - x <= 1 / 2 / 10 ^ n.
Proof.
  unfold round. pose proof (pow10_pos n) as Hp.
  destruct (round_half_even_bounds (x * 10 ^ n)) as [_ [H1 H2]].
  set (z := IZR (round_half_even (x * 10 ^ n))) in *.
  replace (z / 10 ^ n - x) with ((z - x * 10 ^ n) / 10 ^ n) by (field; lra).
  replace (- (1 / 2 / 10 ^ n)) with (- (1 / 2) / 10 ^ n) by (field; lra).
  split; apply Rmult_le_compat_r; try lra; left; now apply Rinv_0_lt_compat.
Qed.

Lemma round4_error (x : R) : - (0.00005) <= round x 4 - x <= 0.00005.
Proof.
  pose proof (round_error x 4) as H.
  replace (1 / 2 / 10 ^ 4) with 0.00005 in H by (simpl; lra). lra.
Qed.

Lemma interpolation_error (r a b eps : R) :
  0 <= r <= 1 -> - eps <= a <= eps -> - eps <= b <= eps ->
  - eps <= (1 - r) * a + r * b <= eps.
Proof. intros. nra. Qed.

End RoundingFacts.

(** ** Depth mapping: interpolation inside the table *)

Section DepthMappingFacts.

Import DepthMapping.

Lemma in_layer_true (d : R) (l : mapping_layer) :
  in_layer d l = true <-> topDepth_m l <= d <= bottomDepth_m l.
Proof.
  unfold in_layer.
  destruct (Rle_dec (topDepth_m l) d); [destruct (Rle_dec d (bottomDepth_m l))|];
    split; intros H; try discriminate; try reflexivity; lra.
Qed.

Lemma in_layer_false (d : R) (l : mapping_layer) :
  in_layer d l = false <-> d < topDepth_m l \/ bottomDepth_m l < d.
Proof.
  destruct (in_layer d l) eqn:E.
  - apply in_layer_true in E. split; [discriminate | lra].
  - split; [intros _ | reflexivity].
    destruct (Rlt_dec d (topDepth_m l)) as [?|Ht]; [now left|].
    destruct (Rlt_dec (bottomDepth_m l) d) as [?|Hb]; [now right|].
    assert (in_layer d l = true) by (apply in_layer_true; lra).
    congruence.
Qed.

Lemma interpolate_eq (d : R) (l : mapping_layer) :
  topDepth_m l < bottomDepth_m l ->
  interpolate d l =
  mapped_top_cm l
  + (d - topDepth_m l) / (bottomDepth_m l - topDepth_m l)
    * (mapped_bottom_cm l - mapped_top_cm l).
Proof.
  intros H. unfold interpolate.
  destruct (Req_dec_T (bottomDepth_m l - topDepth_m l) 0); [lra | reflexivity].
Qed.

Lemma interpolate_monotone (d1 d2 : R) (l : mapping_layer) :
  layer_ok l -> d1 <= d2 -> interpolate d1 l <= interpolate d2 l.
Proof.
  intros [Ht Hm] Hd. rewrite !interpolate_eq by assumption.
  apply Rplus_le_compat_l, Rmult_le_compat_r; [lra|].
  apply Rmult_le_compat_r; [|lra].
  left. apply Rinv_0_lt_compat. lra.
Qed.

Lemma interpolate_top (l : mapping_layer) :
  interpolate (topDepth_m l) l = mapped_top_cm l.
Proof.
  unfold interpolate.
  destruct (Req_dec_T (bottomDepth_m l - topDepth_m l) 0); [reflexivity|].
  unfold Rdiv. rewrite Rminus_diag. lra.
Qed.

Lemma interpolate_bottom (l : mapping_layer) :
  topDepth_m l < bottomDepth_m l ->
  interpolate (bottomDepth_m l) l = mapped_bottom_cm l.
Proof.
  intros H. rewrite interpolate_eq by assumption. field. lra.
Qed.

Lemma interpolate_bounds (d : R) (l : mapping_layer) :
  layer_ok l -> topDepth_m l <= d <= bottomDepth_m l ->
  mapped_top_cm l <= interpolate d l <= mapped_bottom_cm l.
Proof.
  intros Hl [H1 H2]. split.
  - rewrite <- (interpolate_top l). now apply interpolate_monotone.
  - rewrite <- (interpolate_bottom l) by apply Hl. now apply interpolate_monotone.
Qed.

Lemma last_default_irrelevant {A : Type} (r : list A) (x d d' : A) :
  last (x :: r) d = last (x :: r) d'.
Proof.
  revert x. induction r as [|y r IH]; intros x; [reflexivity|].
  change (last (y :: r) d = last (y :: r) d'). apply IH.
Qed.

(** In a chained table the bottoms only grow. *)
Lemma chained_last_bottom (r : list mapping_layer) (l : mapping_layer) :
  layer_ok l -> chained l r ->
  bottomDepth_m l <= bottomDepth_m (last (l :: r) l).
Proof.
  revert l. induction r as [|x r IH]; intros l Hl Hc.
  - simpl. lra.
  - destruct Hc as (Hb & _ & Hx & Hc).
    specialize (IH x Hx Hc).
    change (last (l :: x :: r) l) with (last (x :: r) l).
    rewrite (last_default_irrelevant r x l x).
    destruct Hx. lra.
Qed.

Lemma chained_last_mapped_bottom (r : list mapping_layer) (l : mapping_layer) :
  layer_ok l -> chained l r ->
  mapped_bottom_cm l <= mapped_bottom_cm (last (l :: r) l).
Proof.
  revert l. induction r as [|x r IH]; intros l Hl Hc.
  - simpl. lra.
  - destruct Hc as (_ & Hm & Hx & Hc).
    specialize (IH x Hx Hc).
    change (last (l :: x :: r) l) with (last (x :: r) l).
    rewrite (last_default_irrelevant r x l x).
    destruct Hx. lra.
Qed.

(** A depth shallower than the first top lies in no layer. *)
Lemma scan_below (r : list mapping_layer) (l : mapping_layer) (d : R) :
  layer_ok l -> chained l r -> d < topDepth_m l -> scan_layers d (l :: r) = None.
Proof.
  revert l. induction r as [|x r IH]; intros l Hl Hc Hd; simpl.
  - assert (E : in_layer d l = false) by (apply in_layer_false; now left).
    now rewrite E.
  - assert (E : in_layer d l = false) by (apply in_layer_false; now left).
    rewrite E. destruct Hc as (Hb & _ & Hx & Hc).
    apply (IH x Hx Hc). destruct Hl. lra.
Qed.

Lemma scan_above (r : list mapping_layer) (l : mapping_layer) (d : R) :
  layer_ok l -> chained l r ->
  bottomDepth_m (last (l :: r) l) < d -> scan_layers d (l :: r) = None.
Proof.
  revert l. induction r as [|x r IH]; intros l Hl Hc Hd.
  - simpl in *.
    assert (E : in_layer d l = false) by (apply in_layer_false; now right).
    now rewrite E.
  - pose proof (chained_last_bottom (x :: r) l Hl Hc) as Hle.
    assert (E : in_layer d l = false) by (apply in_layer_false; right; lra).
    change (scan_layers d (l :: x :: r))
      with (if in_layer d l then Some (interpolate d l) else scan_layers d (x :: r)).
    rewrite E. destruct Hc as (Hb & _ & Hx & Hc).
    apply (IH x Hx Hc).
    change (last (l :: x :: r) l) with (last (x :: r) l) in Hd.
    now rewrite (last_default_irrelevant r x l x) in Hd.
Qed.

(** Inside the table the scan answers, monotonically, between the first
    mapped top and the last mapped bottom. *)
Lemma scan_monotone (r : list mapping_layer) :
  forall (l : mapping_layer) (d1 d2 : R),
    layer_ok l -> chained l r ->
    topDepth_m l <= d1 -> d1 <= d2 -> d2 <= bottomDepth_m (last (l :: r) l) ->
    exists v1 v2,
      scan_layers d1 (l :: r) = Some v1 /\
      scan_layers d2 (l :: r) = Some v2 /\
      mapped_top_cm l <= v1 /\ v1 <= v2 /\
      v2 <= mapped_bottom_cm (last (l :: r) l).
Proof.
  induction r as [|x r IH]; intros l d1 d2 Hl Hc H1 H12 H2.
  - simpl in H2. simpl.
    assert (E1 : in_layer d1 l = true) by (apply in_layer_true; lra).
    assert (E2 : in_layer d2 l = true) by (apply in_layer_true; lra).
    rewrite E1, E2. exists (interpolate d1 l), (interpolate d2 l).
    pose proof (interpolate_bounds d1 l Hl ltac:(lra)).
    pose proof (interpolate_bounds d2 l Hl ltac:(lra)).
    pose proof (interpolate_monotone d1 d2 l Hl H12). repeat split; lra.
  - pose proof (chained_last_mapped_bottom (x :: r) l Hl Hc) as Hmb.
    change (last (l :: x :: r) l) with (last (x :: r) l) in *.
    rewrite (last_default_irrelevant r x l x) in *.
    destruct Hc as (Hb & Hm & Hx & Hc).
    change (scan_layers d1 (l :: x :: r))
      with (if in_layer d1 l then Some (interpolate d1 l) else scan_layers d1 (x :: r)).
    change (scan_layers d2 (l :: x :: r))
      with (if in_layer d2 l then Some (interpolate d2 l) else scan_layers d2 (x :: r)).
    destruct (Rle_dec d1 (bottomDepth_m l)) as [Hin1|Hout1].
    + assert (E1 : in_layer d1 l = true) by (apply in_layer_true; lra).
      rewrite E1.
      pose proof (interpolate_bounds d1 l Hl ltac:(lra)) as B1.
      destruct (Rle_dec d2 (bottomDepth_m l)) as [Hin2|Hout2].
      * assert (E2 : in_layer d2 l = true) by (apply in_layer_true; lra).
        rewrite E2. exists (interpolate d1 l), (interpolate d2 l).
        pose proof (interpolate_bounds d2 l Hl ltac:(lra)).
        pose proof (interpolate_monotone d1 d2 l Hl H12). repeat split; lra.
      * assert (E2 : in_layer d2 l = false) by (apply in_layer_false; right; lra).
        rewrite E2.
        destruct (IH x d2 d2 Hx Hc ltac:(lra) ltac:(lra) H2)
          as (v & v' & Hv & Hv' & Hlo & _ & Hhi).
        rewrite Hv in Hv'. injection Hv' as <-.
        exists (interpolate d1 l), v. repeat split; try assumption; lra.
    + assert (E1 : in_layer d1 l = false) by (apply in_layer_false; right; lra).
      assert (E2 : in_layer d2 l = false) by (apply in_layer_false; right; lra).
      rewrite E1, E2.
      destruct (IH x d1 d2 Hx Hc ltac:(lra) H12 H2)
        as (v1 & v2 & Hv1 & Hv2 & Hlo & Hmid & Hhi).
      exists v1, v2. destruct Hl. repeat split; try assumption; lra.
Qed.

(** Below the first top the answer is the first mapped top. *)
Lemma calculate_mapped_depth_below (l : mapping_layer) (r : list mapping_layer) (d : R) :
  layer_ok l -> chained l r -> d < topDepth_m l ->
  calculate_mapped_depth d (l :: r) = Ok (mapped_top_cm l).
Proof.
  intros Hl Hc Hd. unfold calculate_mapped_depth.
  rewrite (scan_below r l d Hl Hc Hd).
  destruct (Rlt_dec d (topDepth_m l)); [reflexivity | contradiction].
Qed.

(** With a last bottom of zero the extrapolation divides by zero. *)
Lemma calculate_mapped_depth_zero_bottom (t : list mapping_layer) (d : R) :
  validated_table t ->
  bottomDepth_m (last_layer t) < d ->
  bottomDepth_m (last_layer t) = 0 ->
  calculate_mapped_depth d t = Raise ZeroDivisionError.
Proof.
  destruct t as [|l r]; [intros []|]. intros [Hl Hc] Hd Hz.
  unfold last_layer in *.
  rewrite (last_default_irrelevant r l _ l) in *.
  unfold calculate_mapped_depth. rewrite (scan_above r l d Hl Hc Hd).
  pose proof (chained_last_bottom r l Hl Hc). destruct Hl.
  destruct (Rlt_dec d (topDepth_m l)); [lra|].
  destruct (Req_dec_T (bottomDepth_m (last (l :: r) l)) 0); [reflexivity | contradiction].
Qed.

(** [C1] Monotonicity: on a validated mapping table, for depths [d1 < d2]
    up to the bottom of the last layer (in particular for both inside the
    total depth range), [calculate_mapped_depth] returns at both and the
    mapped depth of [d1] is at most the mapped depth of [d2]. *)
Theorem calculate_mapped_depth_monotone (t : list mapping_layer) (d1 d2 : R) :
  validated_table t ->
  d1 < d2 ->
  d2 <= bottomDepth_m (last_layer t) ->
  exists m1 m2,
    calculate_mapped_depth d1 t = Ok m1 /\
    calculate_mapped_depth d2 t = Ok m2 /\
    m1 <= m2.
Proof.
  destruct t as [|l r]; [intros []|]. intros [Hl Hc] H12 H2.
  unfold last_layer in H2. rewrite (last_default_irrelevant r l _ l) in H2.
  destruct (Rlt_dec d2 (topDepth_m l)) as [Hb2|Hb2].
  - exists (mapped_top_cm l), (mapped_top_cm l).
    rewrite !calculate_mapped_depth_below by (assumption || lra).
    repeat split; lra.
  - destruct (Rlt_dec d1 (topDepth_m l)) as [Hb1|Hb1].
    + destruct (scan_monotone r l d2 d2 Hl Hc ltac:(lra) ltac:(lra) H2)
        as (v & _ & Hv & _ & Hlo & _).
      exists (mapped_top_cm l), v.
      rewrite calculate_mapped_depth_below by assumption.
      unfold calculate_mapped_depth. rewrite Hv. repeat split; lra.
    + destruct (scan_monotone r l d1 d2 Hl Hc ltac:(lra) ltac:(lra) H2)
        as (v1 & v2 & Hv1 & Hv2 & _ & Hle & _).
      exists v1, v2. unfold calculate_mapped_depth. rewrite Hv1, Hv2.
      repeat split; assumption.
Qed.

Lemma calculate_mapped_depth_monotone_witness :
  exists m1 m2,
    calculate_mapped_depth 50 Examples.table = Ok m1 /\
    calculate_mapped_depth 150 Examples.table = Ok m2 /\
    m1 <= m2.
Proof.
  apply calculate_mapped_depth_monotone;
    unfold Examples.table, validated_table, last_layer; simpl;
    unfold layer_ok; simpl;
    [repeat split; lra | lra | lra].
Defined.

(** Past the last bottom no layer matches and the global ratio is used. *)
Lemma extrapolate_beyond_last (t : list mapping_layer) (d : R) :
  validated_table t ->
  bottomDepth_m (last_layer t) <> 0 ->
  bottomDepth_m (last_layer t) < d ->
  calculate_mapped_depth d t =
  Ok (mapped_bottom_cm (last_layer t) * d / bottomDepth_m (last_layer t)).
Proof.
  destruct t as [|l r]; [intros []|]. intros [Hl Hc] Hnz Hd.
  unfold last_layer in *.
  rewrite (last_default_irrelevant r l _ l) in *.
  unfold calculate_mapped_depth. rewrite (scan_above r l d Hl Hc Hd).
  pose proof (chained_last_bottom r l Hl Hc). destruct Hl.
  destruct (Rlt_dec d (topDepth_m l)); [lra|].
  destruct (Req_dec_T (bottomDepth_m (last (l :: r) l)) 0); [contradiction | reflexivity].
Qed.

(** [C2] Extrapolation: on a validated mapping table whose last bottom is
    not zero, a depth strictly greater than the last layer's bottom is
    mapped to [lastLayer.mapped_bottom_cm * d / lastLayer.bottomDepth_m],
    a proportion of the whole table and not of the last layer. *)
Theorem calculate_mapped_depth_extrapolates (t : list mapping_layer) (d : R) :
  validated_table t ->
  bottomDepth_m (last_layer t) <> 0 ->
  bottomDepth_m (last_layer t) < d ->
  calculate_mapped_depth d t =
  Ok (mapped_bottom_cm (last_layer t) * d / bottomDepth_m (last_layer t)).
Proof. exact (extrapolate_beyond_last t d). Qed.

Lemma calculate_mapped_depth_extrapolates_witness :
  calculate_mapped_depth 300 Examples.table = Ok (5 * 300 / 200).
Proof.
  apply (calculate_mapped_depth_extrapolates Examples.table 300);
    unfold Examples.table, validated_table, last_layer; simpl;
    unfold layer_ok; simpl;
    [repeat split; lra | lra | lra].
Defined.

(** On the sample table the extrapolated value at 300 m is 7.5 cm, not the
    9 cm that continuing the last layer's slope would give. *)
Lemma extrapolation_is_not_local_slope :
  exists m,
    calculate_mapped_depth 300 Examples.table = Ok m /\
    m = 7.5 /\
    m <> 5 + (300 - 200) / (200 - 100) * (5 - 1).
Proof.
  exists (5 * 300 / 200). split; [|split; lra].
  apply (extrapolate_beyond_last Examples.table 300);
    unfold Examples.table, validated_table, last_layer; simpl;
    unfold layer_ok; simpl;
    [repeat split; lra | lra | lra].
Qed.

(** The table written by the mapping step is a validated table. *)
Lemma assign_boundaries_chained (ps : list (Stratigraphy.csv_layer * R)) :
  forall (prev : Stratigraphy.csv_layer) (pm : mapping_layer) (mapped_top : R),
    Spec.csv_chained prev (map fst ps) ->
    Forall (fun p => 0 <= snd p) ps ->
    bottomDepth_m pm = Stratigraphy.csv_bottomDepth_m prev ->
    mapped_bottom_cm pm = round mapped_top 4 ->
    chained pm (map of_mapped (Stratigraphy.assign_boundaries mapped_top ps)).
Proof.
  induction ps as [|[l th] ps IH]; intros prev pm t0 Hc Hth Hb Hm; simpl; [exact I|].
  destruct Hc as (Hbt & Hlt & Hc). inversion Hth as [|? ? Hp Hth']; subst.
  simpl in *. unfold layer_ok. simpl.
  split; [lra|]. split; [exact Hm|].
  split; [split; [lra | apply round_le; lra]|].
  apply (IH l); try assumption; reflexivity.
Qed.

Lemma csv_chained_total (r : list Stratigraphy.csv_layer) (l : Stratigraphy.csv_layer) :
  Stratigraphy.csv_topDepth_m l < Stratigraphy.csv_bottomDepth_m l ->
  Spec.csv_chained l r ->
  0 < Rsum (map Stratigraphy.actual_thickness (l :: r)).
Proof.
  revert l. induction r as [|x r IH]; intros l Hl Hc.
  - simpl. unfold Stratigraphy.actual_thickness. lra.
  - destruct Hc as (_ & Hx & Hc). specialize (IH x Hx Hc).
    change (Rsum (map Stratigraphy.actual_thickness (l :: x :: r)))
      with (Stratigraphy.actual_thickness l
            + Rsum (map Stratigraphy.actual_thickness (x :: r))).
    unfold Stratigraphy.actual_thickness at 1. lra.
Qed.

Lemma map_raw_data_validated (ls : list Stratigraphy.csv_layer) (budget : R) :
  Spec.csv_gapless ls ->
  exists mapped,
    Stratigraphy.map_raw_data ls budget = Ok mapped /\
    validated_table (map of_mapped mapped).
Proof.
  destruct ls as [|l r]; [intros []|]. intros [Hl Hc].
  pose proof (csv_chained_total r l Hl Hc) as Hpos.
  unfold Stratigraphy.map_raw_data.
  destruct (Req_dec_T (Rsum (map Stratigraphy.actual_thickness (l :: r))) 0) as [E|_];
    [lra|].
  eexists. split; [reflexivity|].
  set (share := Stratigraphy.proportional_share _ budget).
  simpl. unfold layer_ok. simpl.
  assert (Hfloor : forall x, 0 <= Stratigraphy.adjust_min x).
  { intros x. unfold Stratigraphy.adjust_min, Stratigraphy.min_thickness.
    destruct (Rlt_dec x 0.24); lra. }
  pose proof (Hfloor (share l)).
  split; [split; [lra | apply round_le; lra]|].
  apply (assign_boundaries_chained _ l); try reflexivity.
  - rewrite map_map. simpl. now rewrite map_id.
  - apply Forall_forall. intros p Hp. apply in_map_iff in Hp.
    destruct Hp as (x & <- & _). apply Hfloor.
Qed.

End DepthMappingFacts.

(** ** Stratigraphy: the thickness floor *)

Section ThicknessFacts.

Import Stratigraphy.

Lemma adjust_min_Rmax (x : R) : adjust_min x = Rmax x min_thickness.
Proof.
  unfold adjust_min, Rmax.
  destruct (Rlt_dec x min_thickness), (Rle_dec x min_thickness); lra.
Qed.

Lemma adjust_min_floor (x : R) : min_thickness <= adjust_min x.
Proof. unfold adjust_min. destruct (Rlt_dec x min_thickness); lra. Qed.

Lemma adjust_min_ge (x : R) : x <= adjust_min x.
Proof. unfold adjust_min. destruct (Rlt_dec x min_thickness); lra. Qed.

Lemma adjust_min_gt (x : R) : x < adjust_min x <-> x < min_thickness.
Proof. unfold adjust_min. destruct (Rlt_dec x min_thickness); lra. Qed.

Lemma assign_boundaries_thickness (ps : list (csv_layer * R)) (mapped_top : R) :
  map mapped_thickness_cm (assign_boundaries mapped_top ps) = map snd ps.
Proof.
  revert mapped_top. induction ps as [|[l th] ps IH]; intros t; simpl;
    [reflexivity | now rewrite IH].
Qed.

Lemma assign_boundaries_source (ps : list (csv_layer * R)) (mapped_top : R) :
  map source (assign_boundaries mapped_top ps) = map fst ps.
Proof.
  revert mapped_top. induction ps as [|[l th] ps IH]; intros t; simpl;
    [reflexivity | now rewrite IH].
Qed.

(** The proportional shares add up to the budget. *)
Lemma shares_sum (total budget : R) (ls : list csv_layer) :
  Rsum (map (proportional_share total budget) ls)
  = Rsum (map actual_thickness ls) / total * budget.
Proof.
  induction ls as [|l ls IH]; simpl.
  - unfold Rdiv. ring.
  - rewrite IH. unfold proportional_share, Rdiv. ring.
Qed.

Lemma adjusted_sum_ge (xs : list R) : Rsum xs <= Rsum (map adjust_min xs).
Proof.
  induction xs as [|x xs IH]; simpl; [lra|].
  pose proof (adjust_min_ge x). lra.
Qed.

Lemma adjusted_sum_gt (xs : list R) :
  Rsum xs < Rsum (map adjust_min xs) <-> Exists (fun x => x < min_thickness) xs.
Proof.
  induction xs as [|x xs IH]; simpl.
  - split; [lra | intros H; inversion H].
  - pose proof (adjust_min_ge x) as Hx. pose proof (adjusted_sum_ge xs) as Hs.
    rewrite Exists_cons, <- IH, <- adjust_min_gt. lra.
Qed.

(** [C3] Thickness floor: for a non-empty layer list of positive total
    actual thickness, under the default budget 10.0 and floor 0.24, the
    mapping step returns one mapped layer per layer, with
    [mapped_thickness_cm = max(actual/total * 10.0, 0.24)]; every mapped
    thickness is at least 0.24; the realized total is at least 10.0, and
    exceeds it exactly when some proportional share is below 0.24. *)
Theorem map_raw_data_thickness_floor (stratigraphy : list csv_layer) :
  stratigraphy <> [] ->
  0 < Rsum (map actual_thickness stratigraphy) ->
  let total := Rsum (map actual_thickness stratigraphy) in
  exists mapped,
    map_raw_data stratigraphy default_total_mapped_thickness = Ok mapped /\
    map source mapped = stratigraphy /\
    map mapped_thickness_cm mapped =
      map (fun l => Rmax (actual_thickness l / total * 10.0) 0.24) stratigraphy /\
    Forall (fun m => 0.24 <= mapped_thickness_cm m) mapped /\
    10.0 <= Rsum (map mapped_thickness_cm mapped) /\
    (10.0 < Rsum (map mapped_thickness_cm mapped) <->
     Exists (fun l => actual_thickness l / total * 10.0 < 0.24) stratigraphy).
Proof.
  intros Hne Hpos total.
  destruct stratigraphy as [|l0 ls]; [contradiction|].
  set (ls0 := l0 :: ls) in *.
  set (share := proportional_share total default_total_mapped_thickness).
  exists (assign_boundaries 0 (map (fun l => (l, adjust_min (share l))) ls0)).
  assert (Hth :
    map mapped_thickness_cm
      (assign_boundaries 0 (map (fun l => (l, adjust_min (share l))) ls0))
    = map adjust_min (map share ls0)).
  { rewrite assign_boundaries_thickness, !map_map. reflexivity. }
  assert (Hsum : Rsum (map share ls0) = 10.0).
  { unfold share. rewrite shares_sum. fold total.
    unfold default_total_mapped_thickness. field. unfold total. lra. }
  split; [|split; [|split; [|split; [|split]]]].
  - unfold map_raw_data. fold total. subst ls0.
    destruct (Req_dec_T total 0) as [E|E]; [unfold total in E; lra | reflexivity].
  - rewrite assign_boundaries_source, map_map. apply map_id.
  - rewrite Hth, map_map. apply map_ext. intros l.
    rewrite adjust_min_Rmax. reflexivity.
  - apply Forall_forall. intros m Hm.
    apply (in_map mapped_thickness_cm) in Hm. rewrite Hth in Hm.
    apply in_map_iff in Hm. destruct Hm as (x & <- & _).
    apply adjust_min_floor.
  - rewrite Hth, <- Hsum. apply adjusted_sum_ge.
  - rewrite Hth. pose proof (adjusted_sum_gt (map share ls0)) as Hex.
    rewrite Hsum, Exists_map in Hex. exact Hex.
Qed.

Lemma map_raw_data_thickness_floor_witness :
  exists mapped,
    map_raw_data Examples.csv_layers default_total_mapped_thickness = Ok mapped /\
    Forall (fun m => 0.24 <= mapped_thickness_cm m) mapped /\
    10.0 < Rsum (map mapped_thickness_cm mapped).
Proof.
  assert (Hne : Examples.csv_layers <> []) by discriminate.
  assert (Hpos : 0 < Rsum (map actual_thickness Examples.csv_layers)).
  { unfold Examples.csv_layers, actual_thickness. simpl. lra. }
  destruct (map_raw_data_thickness_floor Examples.csv_layers Hne Hpos)
    as (mapped & Hm & _ & _ & Hfloor & _ & Hiff).
  exists mapped. split; [exact Hm|]. split; [exact Hfloor|].
  apply Hiff. left. unfold Examples.csv_layers, actual_thickness. simpl. lra.
Defined.

End ThicknessFacts.

(** ** Stratigraphy: continuity validation *)

Section ContinuityFacts.

Import Stratigraphy Spec.

Lemma sort_keys_snd (l : list raw_layer) (ks : list (R * raw_layer)) :
  sort_keys l = Ok ks -> map snd ks = l.
Proof.
  revert ks. induction l as [|x l IH]; intros ks; simpl.
  - intros [= <-]. reflexivity.
  - destruct (topDepth_m x); [|discriminate].
    destruct (sort_keys l) as [ks'|]; simpl; [|discriminate].
    intros [= <-]. simpl. now rewrite (IH ks').
Qed.

Lemma sort_keys_ok (l : list raw_layer) :
  Forall (fun x => topDepth_m x <> None) l <-> exists ks, sort_keys l = Ok ks.
Proof.
  induction l as [|x l IH]; simpl.
  - split; [intros _; now exists [] | constructor].
  - split.
    + intros H. inversion H as [|? ? Hx Hl]; subst.
      apply IH in Hl. destruct Hl as [ks ->].
      destruct (topDepth_m x) as [k|]; [|contradiction]. simpl. now eexists.
    + intros [ks H]. destruct (topDepth_m x) as [k|] eqn:E; [|discriminate].
      constructor; [congruence|]. apply IH.
      destruct (sort_keys l) as [ks'|]; [now eexists | discriminate].
Qed.

Lemma insert_by_key_perm (x : R * raw_layer) (l : list (R * raw_layer)) :
  Permutation (x :: l) (insert_by_key x l).
Proof.
  induction l as [|y l IH]; simpl; [reflexivity|].
  destruct (Rle_dec (fst x) (fst y)); [reflexivity|].
  rewrite perm_swap. now constructor.
Qed.

Lemma stable_sort_perm (l : list (R * raw_layer)) : Permutation l (stable_sort l).
Proof.
  induction l as [|x l IH]; simpl; [constructor|].
  rewrite <- insert_by_key_perm. now constructor.
Qed.

Lemma insert_by_key_sorted (x : R * raw_layer) (l : list (R * raw_layer)) :
  LocallySorted key_le l -> LocallySorted key_le (insert_by_key x l).
Proof.
  induction 1 as [|y|y z l Hs IH Hyz]; simpl.
  - apply LSorted_cons1.
  - destruct (Rle_dec (fst x) (fst y)).
    + apply LSorted_consn; [apply LSorted_cons1 | assumption].
    + apply LSorted_consn; [apply LSorted_cons1 | unfold key_le; lra].
  - simpl in IH.
    destruct (Rle_dec (fst x) (fst y)).
    + apply LSorted_consn; [apply LSorted_consn; assumption | assumption].
    + destruct (Rle_dec (fst x) (fst z)).
      * apply LSorted_consn; [assumption | unfold key_le; lra].
      * apply LSorted_consn; assumption.
Qed.

Lemma stable_sort_sorted (l : list (R * raw_layer)) :
  LocallySorted key_le (stable_sort l).
Proof.
  induction l as [|x l IH]; simpl; [constructor | now apply insert_by_key_sorted].
Qed.

(** The sorted list holds the same layers. *)
Lemma sorted_by_top_perm (l s : list raw_layer) :
  sorted_by_top l = Ok s -> Permutation l s.
Proof.
  unfold sorted_by_top. destruct (sort_keys l) as [ks|] eqn:E; simpl; [|discriminate].
  intros [= <-]. rewrite <- (sort_keys_snd l ks E).
  apply Permutation_map, stable_sort_perm.
Qed.

(** The loop never returns [False]. *)
Lemma check_layers_total (s : list raw_layer) :
  check_layers s = Ok true \/ raises (check_layers s).
Proof.
  induction s as [|c rest IH]; simpl; [now left|].
  destruct (name c) as [nm|], (topDepth_m c) as [t|], (bottomDepth_m c) as [b|];
    try (right; eexists; reflexivity).
  destruct (Rge_dec t b) as [Hge|Hlt]; [right; eexists; reflexivity|].
  destruct rest as [|nx rest]; [now left|].
  destruct (topDepth_m nx) as [nt|]; [|right; eexists; reflexivity].
  unfold format_next_name.
  destruct (Req_dec_T b nt) as [He|Hne]; destruct (name nx);
    try (right; eexists; reflexivity).
  assumption.
Qed.

Lemma check_layers_ok (s : list raw_layer) :
  check_layers s = Ok true <->
  Forall (fun l => name l <> None) s /\ gapless_partition s.
Proof.
  induction s as [|c rest IH].
  - simpl. split; [intros _; split; [constructor | exact I] | reflexivity].
  - change (check_layers (c :: rest)) with
      (match name c, topDepth_m c, bottomDepth_m c with
       | Some _, Some top, Some bottom =>
           if Rge_dec top bottom then Raise ValueError
           else
             match rest with
             | [] => check_layers rest
             | next_layer :: _ =>
                 match topDepth_m next_layer with
                 | None => Raise KeyError
                 | Some next_top =>
                     if Req_dec_T bottom next_top
                     then format_next_name next_layer (check_layers rest)
                     else format_next_name next_layer (Raise ValueError)
                 end
             end
       | _, _, _ => Raise ValueError
       end).
    change (gapless_partition (c :: rest)) with
      ((exists top bottom,
           topDepth_m c = Some top /\ bottomDepth_m c = Some bottom /\
           top < bottom /\
           match rest with
           | [] => True
           | next :: _ => topDepth_m next = Some bottom
           end) /\ gapless_partition rest).
    rewrite Forall_cons_iff.
    destruct (name c) as [nm|], (topDepth_m c) as [t|], (bottomDepth_m c) as [b|];
      try (split; [discriminate | intros [[? _] [(? & ? & ? & ? & _) _]]; congruence]).
    destruct (Rge_dec t b) as [Hge|Hlt].
    { split; [discriminate|].
      intros [_ [(t' & b' & [= <-] & [= <-] & Hlt & _) _]]. lra. }
    destruct rest as [|n rest'].
    { rewrite IH. split.
      - intros [Hn Hg].
        split; [split; [discriminate | assumption] | split; [|assumption]].
        exists t, b. repeat split. lra.
      - intros [[_ Hn] [_ Hg]]. now split. }
    destruct (topDepth_m n) as [nt|] eqn:En.
    2:{ split; [discriminate|].
        intros [_ [(t' & b' & _ & _ & _ & Hn) _]]. discriminate. }
    unfold format_next_name.
    destruct (Req_dec_T b nt) as [->|Hne].
    + destruct (name n) as [nn|] eqn:Enn.
      * rewrite IH. split.
        -- intros [Hn Hg].
           split; [split; [discriminate | assumption] | split; [|assumption]].
           exists t, nt. repeat split. lra.
        -- intros [[_ Hn] [_ Hg]]. now split.
      * split; [discriminate|].
        intros [[_ Hn] _]. inversion Hn as [|? ? Hnn _]. congruence.
    + split; [destruct (name n); discriminate|].
      intros [_ [(t' & b' & _ & [= <-] & _ & [= Hn]) _]]. congruence.
Qed.

Lemma gapless_partition_in (s : list raw_layer) (x : raw_layer) :
  gapless_partition s -> In x s ->
  exists top bottom,
    topDepth_m x = Some top /\ bottomDepth_m x = Some bottom /\ top < bottom.
Proof.
  induction s as [|c rest IH]; [intros _ []|].
  intros [(t & b & Ht & Hb & Hlt & _) Hg] [<-|Hin].
  - now exists t, b.
  - now apply IH.
Qed.

Lemma gapless_partition_adjacent (p q : list raw_layer) (current next : raw_layer) :
  gapless_partition (p ++ current :: next :: q) ->
  bottomDepth_m current <> None /\ bottomDepth_m current = topDepth_m next.
Proof.
  induction p as [|c p IH].
  - intros [(t & b & _ & Hb & _ & Hn) _]. simpl in Hn. split; congruence.
  - intros [_ Hg]. apply IH, Hg.
Qed.

Lemma validate_continuity_total (stratigraphy : list raw_layer) :
  validate_continuity stratigraphy = Ok true \/
  raises (validate_continuity stratigraphy).
Proof.
  destruct stratigraphy as [|x l]; [right; eexists; reflexivity|].
  unfold validate_continuity.
  destruct (sorted_by_top (x :: l)) as [s|e]; simpl.
  - apply check_layers_total.
  - right. now exists e.
Qed.

Lemma validate_continuity_ok (stratigraphy : list raw_layer) :
  validate_continuity stratigraphy = Ok true <->
  stratigraphy <> [] /\ Forall complete stratigraphy /\
  exists s, sorted_by_top stratigraphy = Ok s /\ gapless_partition s.
Proof.
  destruct stratigraphy as [|x l].
  { split; [discriminate | intros [H _]; contradiction]. }
  unfold validate_continuity. split.
  - destruct (sorted_by_top (x :: l)) as [s|e] eqn:Es; simpl; [|discriminate].
    intros H. apply check_layers_ok in H. destruct H as [Hn Hg].
    split; [discriminate|]. split; [|now exists s].
    apply Forall_forall. intros y Hy.
    assert (Hs : In y s).
    { eapply Permutation_in; [apply sorted_by_top_perm, Es | exact Hy]. }
    destruct (gapless_partition_in s y Hg Hs) as (t & b & Ht & Hb & _).
    rewrite Forall_forall in Hn. repeat split; [now apply Hn | congruence | congruence].
  - intros (_ & Hc & s & Es & Hg). rewrite Es. simpl.
    apply check_layers_ok. split; [|assumption].
    apply Forall_forall. intros y Hy.
    assert (Hl : In y (x :: l)).
    { eapply Permutation_in;
        [apply Permutation_sym, sorted_by_top_perm, Es | exact Hy]. }
    rewrite Forall_forall in Hc. apply (Hc y Hl).
Qed.

(** [C4] Continuity validation.  [validate_continuity] never returns
    [False]: it returns [True] or raises.  It returns [True] exactly when the
    list is non-empty, every layer has the three required fields, and the
    list sorted by [topDepth_m] is a gapless partition with [top < bottom]
    for every layer (adjacent depths compared exactly).  Hence it raises on
    the empty list, when a layer misses a required field, when a layer has
    [topDepth_m >= bottomDepth_m], and when an adjacent pair of the sorted
    list has [bottomDepth_m <> topDepth_m]; the layers [{0,100},{105,200}]
    are rejected. *)
Theorem validate_continuity_spec (stratigraphy : list raw_layer) :
  (validate_continuity stratigraphy = Ok true \/
   raises (validate_continuity stratigraphy)) /\
  (validate_continuity stratigraphy = Ok true <->
   stratigraphy <> [] /\ Forall complete stratigraphy /\
   exists s, sorted_by_top stratigraphy = Ok s /\ gapless_partition s) /\
  (stratigraphy = [] -> validate_continuity stratigraphy = Raise ValueError) /\
  ((exists l, In l stratigraphy /\ ~ complete l) ->
   raises (validate_continuity stratigraphy)) /\
  (forall l top bottom,
      In l stratigraphy ->
      topDepth_m l = Some top -> bottomDepth_m l = Some bottom ->
      top >= bottom ->
      raises (validate_continuity stratigraphy)) /\
  (forall s p q current next,
      sorted_by_top stratigraphy = Ok s ->
      s = p ++ current :: next :: q ->
      bottomDepth_m current <> topDepth_m next ->
      raises (validate_continuity stratigraphy)) /\
  validate_continuity Examples.gap_layers = Raise ValueError.
Proof.
  pose proof (validate_continuity_total stratigraphy) as Htot.
  pose proof (validate_continuity_ok stratigraphy) as Hok.
  split; [assumption|]. split; [assumption|].
  split; [intros ->; reflexivity|].
  split; [|split; [|split]].
  - intros (l & Hin & Hnc). destruct Htot as [H|H]; [|assumption].
    apply Hok in H. destruct H as (_ & Hc & _).
    rewrite Forall_forall in Hc. elim Hnc. now apply Hc.
  - intros l top bottom Hin Ht Hb Hge.
    destruct Htot as [H|H]; [|assumption].
    apply Hok in H. destruct H as (_ & _ & s & Es & Hg).
    assert (Hs : In l s).
    { eapply Permutation_in; [apply sorted_by_top_perm, Es | exact Hin]. }
    destruct (gapless_partition_in s l Hg Hs) as (t & b & Ht' & Hb' & Hlt).
    rewrite Ht in Ht'. rewrite Hb in Hb'.
    injection Ht' as <-. injection Hb' as <-. lra.
  - intros s p q current next Es -> Hneq.
    destruct Htot as [H|H]; [|assumption].
    apply Hok in H. destruct H as (_ & _ & s' & Es' & Hg).
    rewrite Es in Es'. injection Es' as <-.
    apply gapless_partition_adjacent in Hg. destruct Hg as [_ Hg]. contradiction.
  - unfold Examples.gap_layers, Examples.layer, validate_continuity, sorted_by_top.
    repeat (simpl; decide_reals). reflexivity.
Qed.

(** The out-of-order but continuous list is accepted. *)
Lemma validate_continuity_spec_witness :
  validate_continuity Examples.good_layers = Ok true.
Proof.
  apply (proj1 (proj2 (validate_continuity_spec Examples.good_layers))).
  unfold Examples.good_layers, Examples.layer, complete.
  split; [discriminate|]. split.
  - repeat constructor; simpl; discriminate.
  - exists [Examples.layer "Q" 0 100; Examples.layer "N" 100 200].
    unfold sorted_by_top, Examples.layer. simpl. split.
    + repeat (simpl; decide_reals). reflexivity.
    + split; [exists 0, 100; repeat split; lra|].
      split; [exists 100, 200; repeat split; lra | exact I].
Defined.

End ContinuityFacts.

(** ** Trajectory: the build-arc formulas *)

Section ArcFacts.

Import Deviation.

(** For an angle in (0, 90] degrees, none of the denominators vanishes. *)
Lemma radians_pos (deg : R) : 0 < deg -> 0 < radians deg.
Proof.
  intros H. unfold radians. pose proof PI_RGT_0.
  apply Rmult_lt_0_compat; lra.
Qed.

Lemma radians_le_PI2 (deg : R) : deg <= 90 -> radians deg <= PI / 2.
Proof.
  intros H. unfold radians. pose proof PI_RGT_0.
  replace (PI / 2) with (90 * (PI / 180)) by field.
  apply Rmult_le_compat_r; lra.
Qed.

Lemma radians_0 : radians 0 = 0.
Proof. unfold radians. ring. Qed.

Lemma radians_90 : radians 90 = PI / 2.
Proof. unfold radians. field. Qed.

Lemma sin_radians_pos (deg : R) : 0 < deg <= 90 -> 0 < sin (radians deg).
Proof.
  intros [H0 H90]. pose proof (radians_pos deg H0).
  pose proof (radians_le_PI2 deg H90). pose proof PI_RGT_0.
  apply sin_gt_0; lra.
Qed.

Lemma sin_radians_lt (deg : R) : 0 < deg -> sin (radians deg) < radians deg.
Proof. intros H. apply sin_lt_x, radians_pos, H. Qed.

(** Within the accepted range 0..90 the guards of the three branches fail
    exactly for the angle 0. *)
Lemma degenerate_iff_zero (deg : R) :
  0 <= deg <= 90 ->
  let theta := radians deg in
  ((theta = 0 \/ sin theta = 0) <-> deg = 0) /\
  ((sin theta = theta \/ sin theta = 0) <-> deg = 0).
Proof.
  intros [H0 H90] theta. subst theta.
  destruct (Req_dec_T deg 0) as [->|Hnz].
  - rewrite radians_0, sin_0. split; split; auto.
  - assert (Hpos : 0 < deg) by lra.
    pose proof (radians_pos deg Hpos).
    pose proof (sin_radians_pos deg (conj Hpos H90)).
    pose proof (sin_radians_lt deg Hpos).
    split; split; intros; try contradiction; exfalso; lra.
Qed.

Lemma Rneqb_true (x y : R) : Rneqb x y = true <-> x <> y.
Proof.
  unfold Rneqb. destruct (Req_dec_T x y); split; congruence.
Qed.

Lemma Rneqb_false (x y : R) : Rneqb x y = false <-> x = y.
Proof.
  unfold Rneqb. destruct (Req_dec_T x y); split; congruence.
Qed.

Lemma solve_kickoff_vertical (k a theta s : R) :
  theta <> 0 -> s <> theta ->
  solve_kickoff a (solve_vertical k a theta s) theta s = k.
Proof. intros. unfold solve_kickoff, solve_vertical. field. lra. Qed.

Lemma solve_target_a_vertical (k a theta s : R) :
  theta <> 0 -> s <> 0 ->
  solve_target_a k (solve_vertical k a theta s) theta s = a.
Proof. intros. unfold solve_target_a, solve_vertical. field. lra. Qed.

Lemma solve_kickoff_target_a (k v theta s : R) :
  s <> 0 -> s <> theta ->
  solve_kickoff (solve_target_a k v theta s) v theta s = k.
Proof. intros. unfold solve_kickoff, solve_target_a. field. lra. Qed.

Lemma solve_vertical_target_a (k v theta s : R) :
  theta <> 0 -> s <> 0 ->
  solve_vertical k (solve_target_a k v theta s) theta s = v.
Proof. intros. unfold solve_vertical, solve_target_a. field. lra. Qed.

Lemma solve_vertical_kickoff (a v theta s : R) :
  theta <> 0 -> s <> theta ->
  solve_vertical (solve_kickoff a v theta s) a theta s = v.
Proof. intros. unfold solve_vertical, solve_kickoff. field. lra. Qed.

Lemma solve_target_a_kickoff (a v theta s : R) :
  s <> 0 -> s <> theta ->
  solve_target_a (solve_kickoff a v theta s) v theta s = a.
Proof. intros. unfold solve_target_a, solve_kickoff. field. lra. Qed.

End ArcFacts.

(** ** Trajectory: the geometric stage *)

Section GeometryFacts.

Import Deviation.

Lemma resolve_geometry_vertical (kickoff_point : value) (deg : R) (st : state) :
  is_valid kickoff_point = true ->
  is_valid (get (targetPointA_m (data st))) = true ->
  is_valid (get (targetPointA_verticalDepth_m (data st))) = false ->
  let theta := radians deg in
  resolve_geometry kickoff_point deg st =
  if Rneqb theta 0 && Rneqb (sin theta) 0 then
    match num (get (targetPointA_m (data st))), num kickoff_point with
    | Ok a, Ok k =>
        let v := solve_vertical k a theta (sin theta) in
        (Ok tt,
         mk_state (set_targetPointA_verticalDepth_m (VNum v) (data st))
           ((log st ++ [PrintGeometricParams true true false]) ++ [PrintVertical v]))
    | _, _ =>
        (Raise TypeError,
         mk_state (data st) (log st ++ [PrintGeometricParams true true false]))
    end
  else
    (Ok tt,
     mk_state (data st)
       ((log st ++ [PrintGeometricParams true true false]) ++ [WarnNoVertical])).
Proof.
  intros Hk Ha Hv theta. unfold resolve_geometry. run_stage.
  rewrite Hk, Ha, Hv. cbn [Nat.b2n Nat.add Nat.leb andb negb].
  fold theta.
  destruct (Rneqb theta 0 && Rneqb (sin theta) 0); [|reflexivity].
  destruct (get (targetPointA_m (data st))) as [|sa|a], kickoff_point as [|sk|k];
    reflexivity.
Qed.

Lemma resolve_geometry_target_a (kickoff_point : value) (deg : R) (st : state) :
  is_valid kickoff_point = true ->
  is_valid (get (targetPointA_m (data st))) = false ->
  is_valid (get (targetPointA_verticalDepth_m (data st))) = true ->
  let theta := radians deg in
  resolve_geometry kickoff_point deg st =
  if Rneqb theta 0 && Rneqb (sin theta) 0 then
    match num (get (targetPointA_verticalDepth_m (data st))), num kickoff_point with
    | Ok v, Ok k =>
        let a := solve_target_a k v theta (sin theta) in
        (Ok tt,
         mk_state (set_targetPointA_m (VNum a) (data st))
           ((log st ++ [PrintGeometricParams true false true]) ++ [PrintTargetA a]))
    | _, _ =>
        (Raise TypeError,
         mk_state (data st) (log st ++ [PrintGeometricParams true false true]))
    end
  else
    (Ok tt,
     mk_state (data st)
       ((log st ++ [PrintGeometricParams true false true]) ++ [WarnNoTargetA])).
Proof.
  intros Hk Ha Hv theta. unfold resolve_geometry. run_stage.
  rewrite Hk, Ha, Hv. cbn [Nat.b2n Nat.add Nat.leb andb negb].
  fold theta.
  destruct (Rneqb theta 0 && Rneqb (sin theta) 0); [|reflexivity].
  destruct (get (targetPointA_verticalDepth_m (data st))) as [|sv|v],
    kickoff_point as [|sk|k]; reflexivity.
Qed.

Lemma resolve_geometry_kickoff (kickoff_point : value) (deg : R) (st : state) :
  is_valid kickoff_point = false ->
  is_valid (get (targetPointA_m (data st))) = true ->
  is_valid (get (targetPointA_verticalDepth_m (data st))) = true ->
  let theta := radians deg in
  resolve_geometry kickoff_point deg st =
  if Rneqb (sin theta) theta && Rneqb (sin theta) 0 then
    match num (get (targetPointA_m (data st))),
          num (get (targetPointA_verticalDepth_m (data st))) with
    | Ok a, Ok v =>
        let k := solve_kickoff a v theta (sin theta) in
        (Ok tt,
         mk_state (set_kickoffPoint_m (VNum k) (data st))
           ((log st ++ [PrintGeometricParams false true true]) ++ [PrintKickoff k]))
    | _, _ =>
        (Raise TypeError,
         mk_state (data st) (log st ++ [PrintGeometricParams false true true]))
    end
  else
    (Ok tt,
     mk_state (data st)
       ((log st ++ [PrintGeometricParams false true true]) ++ [WarnNoKickoff])).
Proof.
  intros Hk Ha Hv theta. unfold resolve_geometry. run_stage.
  rewrite Hk, Ha, Hv. cbn [Nat.b2n Nat.add Nat.leb andb negb].
  fold theta.
  destruct (Rneqb (sin theta) theta && Rneqb (sin theta) 0); [|reflexivity].
  destruct (get (targetPointA_m (data st))) as [|sa|a],
    (get (targetPointA_verticalDepth_m (data st))) as [|sv|v]; reflexivity.
Qed.

(** With a valid kickoff the stage neither rewrites [kickoffPoint_m] nor
    enters the kickoff-reconstruction branch. *)
Lemma resolve_geometry_keeps_kickoff (kickoff_point : value) (deg : R) (st : state) :
  is_valid kickoff_point = true ->
  kickoffPoint_m (data (snd (resolve_geometry kickoff_point deg st)))
  = kickoffPoint_m (data st) /\
  filter Spec.kickoff_branch_event (log (snd (resolve_geometry kickoff_point deg st)))
  = filter Spec.kickoff_branch_event (log st).
Proof.
  intros Hk.
  destruct (is_valid (get (targetPointA_m (data st)))) eqn:Ha,
           (is_valid (get (targetPointA_verticalDepth_m (data st)))) eqn:Hv.
  - unfold resolve_geometry. run_stage. rewrite Hk, Ha, Hv. simpl.
    rewrite filter_app, app_nil_r. split; reflexivity.
  - rewrite (resolve_geometry_vertical _ _ _ Hk Ha Hv). cbv zeta.
    destruct (Rneqb (radians deg) 0 && Rneqb (sin (radians deg)) 0);
      [destruct (num (get (targetPointA_m (data st)))), (num kickoff_point)|];
      simpl; rewrite ?filter_app, ?app_nil_r; split; reflexivity.
  - rewrite (resolve_geometry_target_a _ _ _ Hk Ha Hv). cbv zeta.
    destruct (Rneqb (radians deg) 0 && Rneqb (sin (radians deg)) 0);
      [destruct (num (get (targetPointA_verticalDepth_m (data st)))),
         (num kickoff_point)|];
      simpl; rewrite ?filter_app, ?app_nil_r; split; reflexivity.
  - unfold resolve_geometry. run_stage. rewrite Hk, Ha, Hv. simpl.
    split; reflexivity.
Qed.

(** [C5], as the code has it: when two members of the triple are known and
    the guard of the needed branch fails (θ = 0 or sin θ = 0, resp.
    sin θ = θ or sin θ = 0 for the kickoff branch), the geometric stage does
    not raise: it prints a warning, leaves the dict as it is (the third
    member stays missing) and validation goes on. *)
Theorem degenerate_geometry_is_skipped (kickoff_point : value) (deg : R) (st : state) :
  let theta := radians deg in
  let has_k := is_valid kickoff_point in
  let has_a := is_valid (get (targetPointA_m (data st))) in
  let has_v := is_valid (get (targetPointA_verticalDepth_m (data st))) in
  (has_k = true -> has_a = true -> has_v = false ->
   theta = 0 \/ sin theta = 0 ->
   resolve_geometry kickoff_point deg st =
   (Ok tt, mk_state (data st)
             ((log st ++ [PrintGeometricParams true true false])
                ++ [WarnNoVertical]))) /\
  (has_k = true -> has_a = false -> has_v = true ->
   theta = 0 \/ sin theta = 0 ->
   resolve_geometry kickoff_point deg st =
   (Ok tt, mk_state (data st)
             ((log st ++ [PrintGeometricParams true false true])
                ++ [WarnNoTargetA]))) /\
  (has_k = false -> has_a = true -> has_v = true ->
   sin theta = theta \/ sin theta = 0 ->
   resolve_geometry kickoff_point deg st =
   (Ok tt, mk_state (data st)
             ((log st ++ [PrintGeometricParams false true true])
                ++ [WarnNoKickoff]))).
Proof.
  intros theta has_k has_a has_v. subst has_k has_a has_v.
  split; [|split]; intros Hk Ha Hv Hdeg.
  - rewrite (resolve_geometry_vertical _ _ _ Hk Ha Hv). cbv zeta. fold theta.
    destruct Hdeg as [H|H]; apply Rneqb_false in H; rewrite H;
      rewrite ?andb_false_r; reflexivity.
  - rewrite (resolve_geometry_target_a _ _ _ Hk Ha Hv). cbv zeta. fold theta.
    destruct Hdeg as [H|H]; apply Rneqb_false in H; rewrite H;
      rewrite ?andb_false_r; reflexivity.
  - rewrite (resolve_geometry_kickoff _ _ _ Hk Ha Hv). cbv zeta. fold theta.
    destruct Hdeg as [H|H]; apply Rneqb_false in H; rewrite H;
      rewrite ?andb_false_r; reflexivity.
Qed.

Lemma degenerate_geometry_is_skipped_witness :
  resolve_geometry (VNum 1000) 0 (mk_state Examples.degenerate_data []) =
  (Ok tt, mk_state Examples.degenerate_data
            [PrintGeometricParams true true false; WarnNoVertical]).
Proof.
  apply (proj1 (degenerate_geometry_is_skipped (VNum 1000) 0
                  (mk_state Examples.degenerate_data [])));
    try reflexivity.
  left. apply radians_0.
Defined.

(** The property as specified fails: on a horizontal well with angle 0, kickoff
    and target A known and A's vertical depth missing, validation returns
    [True]; the only trace of the degenerate angle is a printed warning. *)
Lemma degenerate_geometry_not_reported :
  run Examples.horizontal_file Examples.degenerate_data =
  (Ok true,
   mk_state
     (set_DistanceAB_m (VNum (Rabs (3000 - 2000))) Examples.degenerate_data)
     [PrintStart; WarnHorizontalAngle (VNum 0);
      PrintGeometricParams true true false; WarnNoVertical;
      PrintDistanceAB (Rabs (3000 - 2000)); PrintPassed]) /\
  ~ raises (fst (run Examples.horizontal_file Examples.degenerate_data)).
Proof.
  assert (E : run Examples.horizontal_file Examples.degenerate_data =
    (Ok true,
     mk_state
       (set_DistanceAB_m (VNum (Rabs (3000 - 2000))) Examples.degenerate_data)
       [PrintStart; WarnHorizontalAngle (VNum 0);
        PrintGeometricParams true true false; WarnNoVertical;
        PrintDistanceAB (Rabs (3000 - 2000)); PrintPassed])).
  { unfold Examples.horizontal_file, Examples.degenerate_data, Examples.well_file.
    run_concrete. rewrite radians_0, sin_0. unfold Rneqb.
    repeat (simpl; decide_reals). reflexivity. }
  split; [exact E|]. rewrite E. intros [e He]. discriminate.
Qed.

(** [C9] Triple closure, over the reals.  For an angle of 0 < deg <= 90
    degrees, with θ its radians, sin θ <> 0 and sin θ <> θ, and each of the
    three formulas undoes the other two: computing A's vertical depth from
    kickoff and target A and then recomputing kickoff (or target A) from the
    result reproduces the original, and likewise through the other two
    branches.  The mapped-space geometry step run twice closes the same
    loop. *)
Theorem triple_closure (deg k a v : R) :
  0 < deg <= 90 ->
  let theta := radians deg in
  let s := sin theta in
  s <> 0 /\ s <> theta /\
  solve_kickoff a (solve_vertical k a theta s) theta s = k /\
  solve_target_a k (solve_vertical k a theta s) theta s = a /\
  solve_kickoff (solve_target_a k v theta s) v theta s = k /\
  solve_vertical k (solve_target_a k v theta s) theta s = v /\
  solve_vertical (solve_kickoff a v theta s) a theta s = v /\
  solve_target_a (solve_kickoff a v theta s) v theta s = a /\
  (let t1 := map_geometry deg (mk_mapped_triple (Some k) (Some a) None) in
   map_geometry deg
     (mk_mapped_triple None (target_a_mapped t1) (target_a_vertical_mapped t1))
   = mk_mapped_triple (Some k) (Some a) (Some (solve_vertical k a theta s))).
Proof.
  intros Hdeg theta s.
  assert (Hth : theta <> 0).
  { pose proof (radians_pos deg (proj1 Hdeg)). unfold theta. lra. }
  assert (Hs : s <> 0).
  { pose proof (sin_radians_pos deg Hdeg). unfold s, theta. lra. }
  assert (Hst : s <> theta).
  { pose proof (sin_radians_lt deg (proj1 Hdeg)). unfold s, theta. lra. }
  split; [exact Hs|]. split; [exact Hst|].
  split; [now apply solve_kickoff_vertical|].
  split; [now apply solve_target_a_vertical|].
  split; [now apply solve_kickoff_target_a|].
  split; [now apply solve_vertical_target_a|].
  split; [now apply solve_vertical_kickoff|].
  split; [now apply solve_target_a_kickoff|].
  unfold map_geometry. cbn [kickoff_mapped target_a_mapped target_a_vertical_mapped].
  fold theta. fold s.
  apply Rneqb_true in Hth, Hs, Hst. rewrite Hth, Hs, Hst.
  cbn [andb target_a_mapped target_a_vertical_mapped].
  apply Rneqb_true in Hth, Hst.
  rewrite solve_kickoff_vertical by assumption. reflexivity.
Qed.

Lemma triple_closure_witness :
  solve_kickoff 2000
    (solve_vertical 1000 2000 (radians 30) (sin (radians 30)))
    (radians 30) (sin (radians 30)) = 1000.
Proof.
  assert (H : 0 < 30 <= 90) by lra.
  exact (proj1 (proj2 (proj2 (triple_closure 30 1000 2000 1900 H)))).
Defined.

End GeometryFacts.

(** ** Trajectory: the A/B/distance triple *)

Section DistanceFacts.

Import Deviation.

(** [C6] The {targetPointA_m, targetPointB_m, DistanceAB_m} step.  With
    fewer than two valid members it raises.  With exactly two (numbers) it
    completes the third: DistanceAB = |B - A|, B = A + DistanceAB,
    A = B - DistanceAB.  With all three it raises exactly when
    | |B - A| - DistanceAB | > 0.001, and otherwise leaves the dict
    unchanged. *)
Theorem resolve_ab_spec (st : state) :
  let A := get (targetPointA_m (data st)) in
  let B := get (targetPointB_m (data st)) in
  let AB := get (DistanceAB_m (data st)) in
  ((Nat.b2n (is_valid A) + Nat.b2n (is_valid B) + Nat.b2n (is_valid AB) < 2)%nat ->
   resolve_ab st = (Raise ValueError, st)) /\
  (forall a b, A = VNum a -> B = VNum b -> is_valid AB = false ->
     resolve_ab st =
     (Ok tt, mk_state (set_DistanceAB_m (VNum (Rabs (b - a))) (data st))
               (log st ++ [PrintDistanceAB (Rabs (b - a))]))) /\
  (forall a ab, A = VNum a -> AB = VNum ab -> is_valid B = false ->
     resolve_ab st =
     (Ok tt, mk_state (set_targetPointB_m (VNum (a + ab)) (data st))
               (log st ++ [PrintTargetB (VNum (a + ab))]))) /\
  (forall b ab, B = VNum b -> AB = VNum ab -> is_valid A = false ->
     resolve_ab st =
     (Ok tt, mk_state (set_targetPointA_m (VNum (b - ab)) (data st))
               (log st ++ [PrintTargetAFromB (b - ab)]))) /\
  (forall a b ab, A = VNum a -> B = VNum b -> AB = VNum ab ->
     (raises (fst (resolve_ab st)) <-> Rabs (Rabs (b - a) - ab) > 0.001) /\
     (Rabs (Rabs (b - a) - ab) > 0.001 -> resolve_ab st = (Raise ValueError, st)) /\
     (~ Rabs (Rabs (b - a) - ab) > 0.001 -> resolve_ab st = (Ok tt, st))).
Proof.
  intros A B AB. subst A B AB.
  split; [|split; [|split; [|split]]].
  - intros Hlt. unfold resolve_ab. run_stage.
    apply Nat.ltb_lt in Hlt. rewrite Hlt. reflexivity.
  - intros a b Ha Hb Hab. unfold resolve_ab. run_stage.
    rewrite Ha, Hb, Hab. reflexivity.
  - intros a ab Ha Hab Hb. unfold resolve_ab. run_stage.
    rewrite Ha, Hab, Hb. reflexivity.
  - intros b ab Hb Hab Ha. unfold resolve_ab. run_stage.
    rewrite Hb, Hab, Ha. reflexivity.
  - intros a b ab Ha Hb Hab.
    assert (Hyes : Rabs (Rabs (b - a) - ab) > 0.001 ->
                   resolve_ab st = (Raise ValueError, st)).
    { intros H. unfold resolve_ab. run_stage. rewrite Ha, Hb, Hab. simpl.
      destruct (Rgt_dec (Rabs (Rabs (b - a) - ab)) 0.001); [reflexivity | contradiction]. }
    assert (Hno : ~ Rabs (Rabs (b - a) - ab) > 0.001 ->
                   resolve_ab st = (Ok tt, st)).
    { intros H. unfold resolve_ab. run_stage. rewrite Ha, Hb, Hab. simpl.
      destruct (Rgt_dec (Rabs (Rabs (b - a) - ab)) 0.001); [contradiction | reflexivity]. }
    split; [|split; assumption].
    split.
    + intros [e He].
      destruct (Rgt_dec (Rabs (Rabs (b - a) - ab)) 0.001) as [H|H]; [exact H|].
      rewrite (Hno H) in He. discriminate.
    + intros H. rewrite (Hyes H). now exists ValueError.
Qed.

Lemma resolve_ab_spec_witness :
  resolve_ab (mk_state Examples.consistent_ab_data []) =
  (Ok tt, mk_state Examples.consistent_ab_data []).
Proof.
  destruct (resolve_ab_spec (mk_state Examples.consistent_ab_data []))
    as (_ & _ & _ & _ & H).
  destruct (H 2000 2500 500 eq_refl eq_refl eq_refl) as (_ & _ & Hkeep).
  apply Hkeep. unfold Rabs. repeat destruct (Rcase_abs _); lra.
Defined.

End DistanceFacts.

(** ** Trajectory: well-type policy and the kickoff fallback *)

Section PolicyFacts.

Import Deviation.

Lemma ltb_irrefl (s : string) : String.ltb s s = false.
Proof.
  unfold String.ltb. pose proof (String.compare_antisym s s) as H.
  destruct (String.compare s s); try reflexivity. discriminate.
Qed.

Lemma well_type_ok (f : json_file) (s : string) :
  s <> ""%string -> well_type_or_empty f = s ->
  (wd <- load f ;; get_well_type wd) = Ok s.
Proof.
  unfold well_type_or_empty.
  destruct (wd <- load f ;; get_well_type wd); intros Hs H; congruence.
Qed.

(** [C7] Straight wells.  When the well type of the file reads
    "straight well" after [strip] and [lower], and T is the file's total
    depth (0 when the key is missing), validation sets
    [deviationAngle_deg = 0], the five depths to T and [DistanceAB_m = 0],
    and returns [True] at once: nothing else is validated.  In particular
    the ordering check is not applied; on the resulting dict it would have
    raised. *)
Theorem straight_well_defaults (wd : well_data) (s : string) (d : deviation_data) :
  wellType wd = Some (VStr s) ->
  PyStr.lower (PyStr.strip s) = "straight well"%string ->
  let T := get_total_depth wd in
  let d' := mk_deviation_data (Some (VNum 0)) (Some T) (Some T) (Some T)
              (Some T) (Some T) (Some (VNum 0)) in
  run (Some wd) d = (Ok true, mk_state d' [PrintStart; PrintStraightDefaults T]) /\
  raises (fst (check_order T (mk_state d' []))).
Proof.
  intros Hwt Hnorm T d'. split.
  - unfold run, validate_deviation_data. run_stage.
    unfold load, bind, get_well_type. rewrite Hwt, Hnorm. reflexivity.
  - unfold check_order. run_stage. subst d'. cbn [data targetPointA_m targetPointB_m item].
    destruct T as [|t|t]; simpl.
    + now exists TypeError.
    + rewrite ltb_irrefl. now exists ValueError.
    + destruct (Rlt_dec t t); [lra|]. now exists ValueError.
Qed.

Lemma straight_well_defaults_witness :
  run Examples.straight_file Examples.degenerate_data =
  (Ok true,
   mk_state
     (mk_deviation_data (Some (VNum 0)) (Some (VNum 3000)) (Some (VNum 3000))
        (Some (VNum 3000)) (Some (VNum 3000)) (Some (VNum 3000))
        (Some (VNum 0)))
     [PrintStart; PrintStraightDefaults (VNum 3000)]).
Proof.
  exact (proj1 (straight_well_defaults
                  (mk_well_data (Some (VStr "  Straight Well ")) (Some (VNum 3000)))
                  "  Straight Well " Examples.degenerate_data eq_refl eq_refl)).
Defined.

(** [C8], as the code has it.  Deviated well: a missing angle ([None], empty
    or "null") is set to 45, and a present angle [<= 1] is overridden to
    30.0 (so 0.5 is stored as 30.0), in validation and in [map_raw_data]
    alike.  Horizontal well: a missing angle is set to 90; a present angle
    in [0, 90) only prints a warning; a negative angle is rejected by the
    0..90 range check like for any other well. *)
Theorem angle_policy (f : json_file) (st : state) :
  let well_type := well_type_or_empty f in
  let angle := get (deviationAngle_deg (data st)) in
  (well_type = "deviated well"%string -> is_null angle = true ->
   resolve_angle f st =
   (Ok 45.0, mk_state (set_deviationAngle_deg (VNum 45.0) (data st))
               (log st ++ [PrintAngleDefault 45.0]))) /\
  (forall a, well_type = "deviated well"%string -> angle = VNum a -> a <= 1 ->
   resolve_angle f st =
   (Ok 30.0, mk_state (set_deviationAngle_deg (VNum 30.0) (data st))
               (log st ++ [PrintLowAngleOverride (VNum a)]))) /\
  (well_type = "horizontal well"%string -> is_null angle = true ->
   resolve_angle f st =
   (Ok 90.0, mk_state (set_deviationAngle_deg (VNum 90.0) (data st))
               (log st ++ [PrintAngleDefault 90.0]))) /\
  (forall a, well_type = "horizontal well"%string -> angle = VNum a ->
   0 <= a < 90 ->
   resolve_angle f st =
   (Ok a, mk_state (data st) (log st ++ [WarnHorizontalAngle (VNum a)]))) /\
  (forall a, well_type = "horizontal well"%string -> angle = VNum a -> a < 0 ->
   resolve_angle f st = (Raise ValueError, st)) /\
  (well_type = "deviated well"%string ->
   map_angle f None = 45.0 /\
   forall a, a <= 1 -> map_angle f (Some a) = 30.0) /\
  (well_type = "horizontal well"%string -> map_angle f None = 90.0).
Proof.
  intros well_type angle. subst well_type angle.
  split; [|split; [|split; [|split; [|split; [|split]]]]].
  - intros Hw Hn. unfold resolve_angle. run_stage. rewrite Hw, Hn.
    repeat (simpl; decide_reals). reflexivity.
  - intros a Hw Ha Hle. unfold resolve_angle. run_stage. rewrite Hw, Ha.
    repeat (simpl; decide_reals). reflexivity.
  - intros Hw Hn. unfold resolve_angle. run_stage. rewrite Hw, Hn.
    repeat (simpl; decide_reals). reflexivity.
  - intros a Hw Ha Hr. unfold resolve_angle. run_stage. rewrite Hw, Ha.
    repeat (simpl; decide_reals). reflexivity.
  - intros a Hw Ha Hneg. unfold resolve_angle. run_stage. rewrite Hw, Ha.
    repeat (simpl; decide_reals). destruct st; reflexivity.
  - intros Hw. apply well_type_ok in Hw; [|discriminate].
    unfold map_angle. rewrite Hw. split.
    + repeat (simpl; decide_reals). reflexivity.
    + intros a Ha. repeat (simpl; decide_reals). reflexivity.
  - intros Hw. apply well_type_ok in Hw; [|discriminate].
    unfold map_angle. rewrite Hw. reflexivity.
Qed.

Lemma angle_policy_witness :
  resolve_angle Examples.deviated_file (mk_state Examples.low_angle_data []) =
  (Ok 30.0,
   mk_state (set_deviationAngle_deg (VNum 30.0) Examples.low_angle_data)
     [PrintLowAngleOverride (VNum 0.5)]).
Proof.
  apply (proj1 (proj2 (angle_policy Examples.deviated_file
                         (mk_state Examples.low_angle_data []))) 0.5);
    [reflexivity | reflexivity | lra].
Defined.

(** The property as specified fails for the horizontal well: the angle -5 is
    below 90 and validation raises. *)
Lemma horizontal_negative_angle_raises :
  run Examples.horizontal_file Examples.negative_angle_data =
  (Raise ValueError, mk_state Examples.negative_angle_data [PrintStart]).
Proof.
  unfold Examples.horizontal_file, Examples.negative_angle_data, Examples.well_file.
  run_concrete. reflexivity.
Qed.

(** End to end: on a deviated well the input angle 0.5 is stored as 30.0. *)
Lemma deviated_low_angle_stored :
  deviationAngle_deg
    (data (snd (run Examples.deviated_file Examples.low_angle_data)))
  = Some (VNum 30.0).
Proof.
  unfold Examples.deviated_file, Examples.low_angle_data, Examples.well_file.
  run_concrete.
  destruct (Rneqb _ _ && Rneqb _ _); repeat (simpl; decide_reals); reflexivity.
Qed.

(** The value taken from the file is always a number: the positive total
    depth, or 0. *)
Lemma kickoff_from_file_valid (f : json_file) (st : state) :
  exists k e,
    kickoff_from_file f st = (Ok (VNum k), mk_state (data st) (log st ++ [e])).
Proof.
  unfold kickoff_from_file. destruct f as [wd|]; simpl.
  - destruct (get_total_depth wd) as [|s|t]; simpl.
    + exists 0, PrintKickoffZero. reflexivity.
    + exists 0, PrintKickoffZero. reflexivity.
    + destruct (Rlt_dec 0 t).
      * exists t, (PrintKickoffFromTotalDepth (VNum t)). reflexivity.
      * exists 0, PrintKickoffZero. reflexivity.
  - exists 0, PrintKickoffZero. reflexivity.
Qed.

Lemma is_valid_get_some (field : option value) :
  is_valid (get field) = true -> exists v, field = Some v /\ is_valid v = true.
Proof.
  destruct field as [v|]; simpl; [intros H; now exists v | discriminate].
Qed.

(** Where the fallback chain works.  It leaves [kickoffPoint_m] valid
    whenever it was valid already, or [REAL_kickoffPoint_m] is absent (the
    file's positive total depth, else 0, is taken), or [REAL_kickoffPoint_m]
    is itself valid; then 'kickoff' is among the geometric parameters and
    the geometric stage neither rewrites [kickoffPoint_m] nor enters the
    kickoff-reconstruction branch.  When [kickoffPoint_m] is invalid and
    [REAL_kickoffPoint_m] is present but invalid ([None], empty or "null"),
    that invalid value is copied and [kickoffPoint_m] stays invalid.  The
    mapped-space pass computes the kickoff from target A and A's vertical
    depth by the same formula. *)
Theorem kickoff_fallback (f : json_file) (st : state) :
  let kickoff := get (kickoffPoint_m (data st)) in
  let real := REAL_kickoffPoint_m (data st) in
  (is_valid kickoff = true \/ real = None \/ is_valid (get real) = true ->
   exists st' k,
     resolve_kickoff f st = (Ok tt, st') /\
     kickoffPoint_m (data st') = Some k /\
     is_valid k = true /\
     forall deg st2,
       kickoffPoint_m (data (snd (resolve_geometry k deg st2)))
       = kickoffPoint_m (data st2) /\
       filter Spec.kickoff_branch_event (log (snd (resolve_geometry k deg st2)))
       = filter Spec.kickoff_branch_event (log st2)) /\
  (forall v, is_valid kickoff = false -> real = Some v -> is_valid v = false ->
   resolve_kickoff f st =
   (Ok tt, mk_state (set_kickoffPoint_m v (data st))
             (log st ++ [PrintKickoffFromReal v]))) /\
  (forall deg a v,
     sin (radians deg) <> radians deg -> sin (radians deg) <> 0 ->
     kickoff_mapped (map_geometry deg (mk_mapped_triple None (Some a) (Some v)))
     = Some (solve_kickoff a v (radians deg) (sin (radians deg)))).
Proof.
  intros kickoff real. subst kickoff real.
  split; [|split].
  - intros H.
    assert (Hgoal : exists st' k,
               resolve_kickoff f st = (Ok tt, st') /\
               kickoffPoint_m (data st') = Some k /\ is_valid k = true).
    { destruct (is_valid (get (kickoffPoint_m (data st)))) eqn:Hk.
      - destruct (is_valid_get_some _ Hk) as (k & Ek & Hvk).
        exists st, k. unfold resolve_kickoff. run_stage.
        unfold is_valid in Hk. apply negb_true_iff in Hk. rewrite Hk, Ek.
        repeat split; assumption.
      - unfold is_valid in Hk. apply negb_false_iff in Hk.
        destruct H as [H|[H|H]]; [discriminate| |].
        + destruct (kickoff_from_file_valid f st) as (k & e & Ef).
          exists (mk_state (set_kickoffPoint_m (VNum k) (data st)) (log st ++ [e])),
            (VNum k).
          unfold resolve_kickoff. run_stage. rewrite Hk, H, Ef.
          repeat split.
        + destruct (is_valid_get_some _ H) as (v & Ev & Hv).
          exists (mk_state (set_kickoffPoint_m v (data st))
                    (log st ++ [PrintKickoffFromReal v])), v.
          unfold resolve_kickoff. run_stage. rewrite Hk, Ev.
          repeat split. assumption. }
    destruct Hgoal as (st' & k & Er & Ek & Hv).
    exists st', k. repeat split; try assumption;
      apply resolve_geometry_keeps_kickoff; assumption.
  - intros v Hk Er Hv. unfold is_valid in Hk. apply negb_false_iff in Hk.
    unfold resolve_kickoff. run_stage. rewrite Hk, Er. reflexivity.
  - intros deg a v H1 H2. unfold map_geometry.
    cbn [kickoff_mapped target_a_mapped target_a_vertical_mapped].
    apply Rneqb_true in H1, H2. rewrite H1, H2. reflexivity.
Qed.

Lemma kickoff_fallback_witness :
  exists st' k,
    resolve_kickoff Examples.horizontal_file
      (mk_state Examples.degenerate_data []) = (Ok tt, st') /\
    kickoffPoint_m (data st') = Some k /\ is_valid k = true.
Proof.
  destruct (proj1 (kickoff_fallback Examples.horizontal_file
                     (mk_state Examples.degenerate_data []))
              (or_introl eq_refl))
    as (st' & k & Hr & Hk & Hv & _).
  exists st', k. repeat split; assumption.
Defined.

(** [C10] The kickoff fallback at a null [REAL_kickoffPoint_m].  With
    [kickoffPoint_m] and [REAL_kickoffPoint_m] both present and null, the
    fallback copies the null: the kickoff is still invalid when the
    geometric stage starts, 'kickoff' is not among the geometric parameters,
    and the stage reconstructs the kickoff from target A and A's vertical
    depth.  The ordering check then compares the stale [None] with target A
    and validation ends in [TypeError]. *)
Theorem null_real_kickoff_reaches_reconstruction :
  let k := solve_kickoff 2000 1800 (radians 90) (sin (radians 90)) in
  is_valid
    (get (kickoffPoint_m
            (data (snd (resolve_kickoff Examples.horizontal_file
                          (mk_state Examples.null_kickoff_data []))))))
  = false /\
  run Examples.horizontal_file Examples.null_kickoff_data =
  (Raise TypeError,
   mk_state
     (set_DistanceAB_m (VNum (Rabs (2500 - 2000)))
        (set_kickoffPoint_m (VNum k) Examples.null_kickoff_data))
     [PrintStart; PrintKickoffFromReal VNone;
      PrintGeometricParams false true true; PrintKickoff k;
      PrintDistanceAB (Rabs (2500 - 2000))]).
Proof.
  intros k. split; [reflexivity|].
  assert (H90 : 0 < 90 <= 90) by lra.
  pose proof (sin_radians_pos 90 H90) as Hs.
  pose proof (sin_radians_lt 90 (proj1 H90)) as Hlt.
  assert (E1 : Rneqb (sin (radians 90)) (radians 90) = true)
    by (apply Rneqb_true; lra).
  assert (E2 : Rneqb (sin (radians 90)) 0 = true) by (apply Rneqb_true; lra).
  unfold Examples.horizontal_file, Examples.null_kickoff_data, Examples.well_file.
  run_concrete. rewrite E1, E2. repeat (simpl; decide_reals). reflexivity.
Qed.

End PolicyFacts.

(** * Further properties of the depth mapper *)

Section DepthMappingMore.

Import DepthMapping.

Lemma chained_tops (r : list mapping_layer) (l x : mapping_layer) :
  layer_ok l -> chained l r -> In x r -> bottomDepth_m l <= topDepth_m x.
Proof.
  revert l. induction r as [|y r IH]; intros l Hl Hc Hin; [destruct Hin|].
  destruct Hc as (Hb & _ & Hy & Hc). destruct Hin as [<-|Hin]; [lra|].
  specialize (IH y Hy Hc Hin). destruct Hy. lra.
Qed.

Lemma scan_boundaries (r : list mapping_layer) :
  forall (l x : mapping_layer),
    layer_ok l -> chained l r -> In x (l :: r) ->
    scan_layers (topDepth_m x) (l :: r) = Some (mapped_top_cm x) /\
    scan_layers (bottomDepth_m x) (l :: r) = Some (mapped_bottom_cm x).
Proof.
  induction r as [|y r IH]; intros l x Hl Hc Hin.
  - destruct Hin as [<-|[]]. simpl.
    assert (E1 : in_layer (topDepth_m l) l = true)
      by (apply in_layer_true; destruct Hl; lra).
    assert (E2 : in_layer (bottomDepth_m l) l = true)
      by (apply in_layer_true; destruct Hl; lra).
    rewrite E1, E2, interpolate_top, interpolate_bottom by apply Hl. now split.
  - change (scan_layers (topDepth_m x) (l :: y :: r))
      with (if in_layer (topDepth_m x) l then Some (interpolate (topDepth_m x) l)
            else scan_layers (topDepth_m x) (y :: r)).
    change (scan_layers (bottomDepth_m x) (l :: y :: r))
      with (if in_layer (bottomDepth_m x) l
            then Some (interpolate (bottomDepth_m x) l)
            else scan_layers (bottomDepth_m x) (y :: r)).
    destruct Hin as [<-|Hin].
    + assert (E1 : in_layer (topDepth_m l) l = true)
        by (apply in_layer_true; destruct Hl; lra).
      assert (E2 : in_layer (bottomDepth_m l) l = true)
        by (apply in_layer_true; destruct Hl; lra).
      rewrite E1, E2, interpolate_top, interpolate_bottom by apply Hl. now split.
    + pose proof (chained_tops (y :: r) l x Hl Hc Hin) as Hge.
      destruct Hc as (Hb & Hm & Hy & Hc).
      destruct (IH y x Hy Hc Hin) as [Ht Hbm].
      assert (Hx : topDepth_m x < bottomDepth_m x).
      { destruct Hin as [<-|Hin]; [apply Hy|].
        clear - Hy Hc Hin. revert y Hy Hc. induction r as [|z r IHr]; intros y Hy Hc;
          [destruct Hin|].
        destruct Hc as (_ & _ & Hz & Hc). destruct Hin as [<-|Hin]; [apply Hz|].
        now apply (IHr Hin z). }
      split.
      * destruct (Rle_dec (topDepth_m x) (bottomDepth_m l)) as [Hle|Hgt].
        -- assert (Heq : topDepth_m x = topDepth_m y) by lra.
           assert (E : in_layer (topDepth_m x) l = true)
             by (apply in_layer_true; destruct Hl; lra).
           rewrite E. f_equal.
           replace (topDepth_m x) with (bottomDepth_m l) by lra.
           rewrite interpolate_bottom by apply Hl. rewrite Hm.
           rewrite Heq in Ht. simpl in Ht.
           assert (Ey : in_layer (topDepth_m y) y = true)
             by (apply in_layer_true; destruct Hy; lra).
           rewrite Ey, interpolate_top in Ht. now injection Ht.
        -- assert (E : in_layer (topDepth_m x) l = false)
             by (apply in_layer_false; right; lra).
           now rewrite E.
      * assert (E : in_layer (bottomDepth_m x) l = false)
          by (apply in_layer_false; right; lra).
        now rewrite E.
Qed.

(** Boundary exactness: on a validated table every layer's top maps to its
    mapped top and its bottom to its mapped bottom, although a shared
    boundary is answered by the upper of the two layers. *)
Theorem calculate_mapped_depth_boundaries (t : list mapping_layer) (x : mapping_layer) :
  validated_table t -> In x t ->
  calculate_mapped_depth (topDepth_m x) t = Ok (mapped_top_cm x) /\
  calculate_mapped_depth (bottomDepth_m x) t = Ok (mapped_bottom_cm x).
Proof.
  destruct t as [|l r]; [intros []|]. intros [Hl Hc] Hin.
  destruct (scan_boundaries r l x Hl Hc Hin) as [Ht Hb].
  unfold calculate_mapped_depth. rewrite Ht, Hb. now split.
Qed.

Lemma calculate_mapped_depth_boundaries_witness :
  calculate_mapped_depth 100 Examples.table = Ok 1 /\
  calculate_mapped_depth 200 Examples.table = Ok 5.
Proof.
  apply (calculate_mapped_depth_boundaries Examples.table
           (mk_mapping_layer 100 200 1 5)).
  - unfold Examples.table, validated_table; simpl; unfold layer_ok; simpl.
    repeat split; lra.
  - right. left. reflexivity.
Defined.

(** Inside the table the mapped depth stays inside the drawing. *)
Lemma mapped_within (l : mapping_layer) (r : list mapping_layer) (d : R) :
  layer_ok l -> chained l r ->
  topDepth_m l <= d <= bottomDepth_m (last (l :: r) l) ->
  exists m,
    calculate_mapped_depth d (l :: r) = Ok m /\
    mapped_top_cm l <= m <= mapped_bottom_cm (last (l :: r) l).
Proof.
  intros Hl Hc [H1 H2].
  destruct (scan_monotone r l d d Hl Hc H1 ltac:(lra) H2)
    as (v & v' & Hv & Hv' & Hlo & _ & Hhi).
  rewrite Hv in Hv'. injection Hv' as <-.
  exists v. unfold calculate_mapped_depth. rewrite Hv. split; [reflexivity | lra].
Qed.

(** Range: a depth between the first top and the last bottom of a validated
    table is mapped, and lands between the first mapped top and the last
    mapped bottom. *)
Theorem calculate_mapped_depth_in_range
  (l : mapping_layer) (r : list mapping_layer) (d : R) :
  validated_table (l :: r) ->
  topDepth_m l <= d <= bottomDepth_m (last_layer (l :: r)) ->
  exists m,
    calculate_mapped_depth d (l :: r) = Ok m /\
    mapped_top_cm l <= m <= mapped_bottom_cm (last_layer (l :: r)).
Proof.
  intros [Hl Hc] Hd. unfold last_layer in *.
  rewrite (last_default_irrelevant r l _ l) in *.
  now apply mapped_within.
Qed.

Lemma calculate_mapped_depth_in_range_witness :
  exists m,
    calculate_mapped_depth 150 Examples.table = Ok m /\ 0 <= m <= 5.
Proof.
  apply (calculate_mapped_depth_in_range
           (mk_mapping_layer 0 100 0 1) [mk_mapping_layer 100 200 1 5] 150).
  - unfold validated_table; simpl; unfold layer_ok; simpl. repeat split; lra.
  - unfold last_layer; simpl. lra.
Defined.

(** Clamp: a depth shallower than the first top of a validated table maps to
    the first mapped top. *)
Theorem calculate_mapped_depth_clamps_above
  (l : mapping_layer) (r : list mapping_layer) (d : R) :
  validated_table (l :: r) -> d < topDepth_m l ->
  calculate_mapped_depth d (l :: r) = Ok (mapped_top_cm l).
Proof. intros [Hl Hc] Hd. now apply calculate_mapped_depth_below. Qed.

Lemma calculate_mapped_depth_clamps_above_witness :
  calculate_mapped_depth (-5) Examples.table = Ok 0.
Proof.
  apply (calculate_mapped_depth_clamps_above
           (mk_mapping_layer 0 100 0 1) [mk_mapping_layer 100 200 1 5] (-5)).
  - unfold validated_table; simpl; unfold layer_ok; simpl. repeat split; lra.
  - simpl. lra.
Defined.

(** Failure: on a validated table the only failure is the division by a last
    bottom of zero, met by depths past that bottom. *)
Theorem calculate_mapped_depth_failure (t : list mapping_layer) (d : R) :
  validated_table t ->
  (raises (calculate_mapped_depth d t) <->
   bottomDepth_m (last_layer t) = 0 /\ bottomDepth_m (last_layer t) < d) /\
  (raises (calculate_mapped_depth d t) ->
   calculate_mapped_depth d t = Raise ZeroDivisionError).
Proof.
  intros Hv.
  assert (Hcases :
    (exists m, calculate_mapped_depth d t = Ok m) /\
      ~ (bottomDepth_m (last_layer t) = 0 /\ bottomDepth_m (last_layer t) < d)
    \/ calculate_mapped_depth d t = Raise ZeroDivisionError /\
       bottomDepth_m (last_layer t) = 0 /\ bottomDepth_m (last_layer t) < d).
  { destruct (Rlt_dec (bottomDepth_m (last_layer t)) d) as [Hbeyond|Hin].
    - destruct (Req_dec_T (bottomDepth_m (last_layer t)) 0) as [Hz|Hnz].
      + right. split; [|now split].
        now apply calculate_mapped_depth_zero_bottom.
      + left. split; [|intros [? _]; contradiction].
        eexists. now apply extrapolate_beyond_last.
    - left. split; [|intros [_ ?]; contradiction].
      destruct t as [|l r]; [destruct Hv|]. destruct Hv as [Hl Hc].
      unfold last_layer in Hin. rewrite (last_default_irrelevant r l _ l) in Hin.
      destruct (Rlt_dec d (topDepth_m l)) as [Hb|Hb].
      + eexists. now apply calculate_mapped_depth_below.
      + destruct (mapped_within l r d Hl Hc ltac:(lra)) as (m & Hm & _).
        now exists m. }
  split; [split|].
  - intros [e He]. destruct Hcases as [[[m Hm] _]|[_ H]]; [congruence | exact H].
  - intros H. destruct Hcases as [[_ Hn]|[Hr _]]; [contradiction|].
    now exists ZeroDivisionError.
  - intros [e He]. destruct Hcases as [[[m Hm] _]|[Hr _]]; [congruence | exact Hr].
Qed.

Lemma calculate_mapped_depth_failure_witness :
  ~ raises (calculate_mapped_depth 300 Examples.table).
Proof.
  intros H.
  apply (proj1 (calculate_mapped_depth_failure Examples.table 300
                  ltac:(unfold Examples.table, validated_table; simpl;
                        unfold layer_ok; simpl; repeat split; lra))) in H.
  unfold Examples.table, last_layer in H. simpl in H. lra.
Defined.

(** Up to the last bottom the map is monotone. *)
Lemma monotone_up_to_last (l : mapping_layer) (r : list mapping_layer) (d1 d2 : R) :
  layer_ok l -> chained l r ->
  d1 <= d2 -> d2 <= bottomDepth_m (last (l :: r) l) ->
  exists m1 m2,
    calculate_mapped_depth d1 (l :: r) = Ok m1 /\
    calculate_mapped_depth d2 (l :: r) = Ok m2 /\
    m1 <= m2 /\ m2 <= mapped_bottom_cm (last (l :: r) l).
Proof.
  intros Hl Hc H12 H2.
  pose proof (chained_last_mapped_bottom r l Hl Hc) as Hmb.
  destruct (Rlt_dec d2 (topDepth_m l)) as [Hb2|Hb2].
  - exists (mapped_top_cm l), (mapped_top_cm l).
    rewrite !calculate_mapped_depth_below by (assumption || lra).
    destruct Hl. repeat split; lra.
  - destruct (mapped_within l r d2 Hl Hc ltac:(lra)) as (m2 & Hm2 & Hlo2 & Hhi2).
    destruct (Rlt_dec d1 (topDepth_m l)) as [Hb1|Hb1].
    + exists (mapped_top_cm l), m2.
      rewrite calculate_mapped_depth_below by assumption.
      repeat split; try assumption; lra.
    + destruct (scan_monotone r l d1 d2 Hl Hc ltac:(lra) H12 H2)
        as (v1 & v2 & Hv1 & Hv2 & _ & Hle & Hhi).
      exists v1, v2. unfold calculate_mapped_depth. rewrite Hv1, Hv2.
      repeat split; assumption.
Qed.

(** The map is monotone past the last bottom too. *)
Lemma monotone_everywhere
  (l : mapping_layer) (r : list mapping_layer) (d1 d2 : R) :
  validated_table (l :: r) ->
  0 < bottomDepth_m (last_layer (l :: r)) ->
  0 <= mapped_top_cm l ->
  d1 <= d2 ->
  exists m1 m2,
    calculate_mapped_depth d1 (l :: r) = Ok m1 /\
    calculate_mapped_depth d2 (l :: r) = Ok m2 /\
    m1 <= m2.
Proof.
  intros Hv Hpos Hm0 H12.
  pose proof Hv as [Hl Hc].
  pose proof (chained_last_mapped_bottom r l Hl Hc) as Hmb.
  assert (Hext : forall d, bottomDepth_m (last_layer (l :: r)) < d ->
            calculate_mapped_depth d (l :: r) =
            Ok (mapped_bottom_cm (last_layer (l :: r)) * d
                / bottomDepth_m (last_layer (l :: r)))).
  { intros d Hd. apply extrapolate_beyond_last; [assumption | lra | assumption]. }
  unfold last_layer in *. rewrite (last_default_irrelevant r l _ l) in *.
  set (B := bottomDepth_m (last (l :: r) l)) in *.
  set (MB := mapped_bottom_cm (last (l :: r) l)) in *.
  assert (HMB : 0 <= MB) by (destruct Hl; lra).
  assert (Hgrow : forall d, B < d -> MB <= MB * d / B).
  { intros d Hd. unfold Rdiv. rewrite Rmult_assoc.
    rewrite <- (Rmult_1_r MB) at 1. apply Rmult_le_compat_l; [assumption|].
    apply (Rmult_le_reg_r B); [assumption|]. field_simplify; lra. }
  destruct (Rlt_dec B d2) as [Hout2|Hin2].
  - destruct (Rlt_dec B d1) as [Hout1|Hin1].
    + exists (MB * d1 / B), (MB * d2 / B). rewrite !Hext by assumption.
      repeat split. unfold Rdiv. apply Rmult_le_compat_r.
      * left. now apply Rinv_0_lt_compat.
      * apply Rmult_le_compat_l; assumption.
    + destruct (monotone_up_to_last l r d1 d1 Hl Hc ltac:(lra) ltac:(fold B; lra))
        as (m1 & m1' & Hm1 & _ & _ & Hhi).
      rewrite Hm1 in *. exists m1, (MB * d2 / B). rewrite Hext by assumption.
      repeat split. destruct (monotone_up_to_last l r d1 d1 Hl Hc ltac:(lra)
                                ltac:(fold B; lra))
        as (n1 & n1' & Hn1 & Hn1' & Hle & Hhi').
      rewrite Hm1 in Hn1, Hn1'. injection Hn1 as <-. injection Hn1' as <-.
      fold MB in Hhi'. pose proof (Hgrow d2 Hout2). lra.
  - destruct (monotone_up_to_last l r d1 d2 Hl Hc H12 ltac:(fold B; lra))
      as (m1 & m2 & Hm1 & Hm2 & Hle & _).
    now exists m1, m2.
Qed.

(** Global monotonicity: when the last bottom is positive and the first
    mapped top is not negative (as for every table the mapping step writes
    for a well that starts at or below the surface), the map is monotone
    over all depths, extrapolated ones included, and never fails. *)
Theorem calculate_mapped_depth_monotone_everywhere
  (l : mapping_layer) (r : list mapping_layer) (d1 d2 : R) :
  validated_table (l :: r) ->
  0 < bottomDepth_m (last_layer (l :: r)) ->
  0 <= mapped_top_cm l ->
  d1 <= d2 ->
  exists m1 m2,
    calculate_mapped_depth d1 (l :: r) = Ok m1 /\
    calculate_mapped_depth d2 (l :: r) = Ok m2 /\
    m1 <= m2.
Proof. apply monotone_everywhere. Qed.

Lemma calculate_mapped_depth_monotone_everywhere_witness :
  exists m1 m2,
    calculate_mapped_depth 150 Examples.table = Ok m1 /\
    calculate_mapped_depth 300 Examples.table = Ok m2 /\
    m1 <= m2.
Proof.
  apply (calculate_mapped_depth_monotone_everywhere
           (mk_mapping_layer 0 100 0 1) [mk_mapping_layer 100 200 1 5] 150 300).
  - unfold validated_table; simpl; unfold layer_ok; simpl. repeat split; lra.
  - unfold last_layer; simpl. lra.
  - simpl. lra.
  - lra.
Defined.

End DepthMappingMore.

(** * Further properties of the stratigraphy mapping step *)

Section MappingStepMore.

Import Stratigraphy.

(** The table written by the mapping step, as [load_stratigraphy_mapping]
    reads it, is a validated table: for a gapless list of layers the step
    returns, and every query of the depth mapper can rely on the table. *)
Theorem mapping_step_writes_validated_table
  (ls : list csv_layer) (total_mapped_thickness : R) :
  Spec.csv_gapless ls ->
  exists mapped,
    map_raw_data ls total_mapped_thickness = Ok mapped /\
    DepthMapping.validated_table (map DepthMapping.of_mapped mapped).
Proof. apply map_raw_data_validated. Qed.

Lemma mapping_step_writes_validated_table_witness :
  exists mapped,
    map_raw_data Examples.csv_layers 10 = Ok mapped /\
    DepthMapping.validated_table (map DepthMapping.of_mapped mapped).
Proof.
  apply mapping_step_writes_validated_table.
  unfold Examples.csv_layers. simpl. repeat split; lra.
Defined.

Lemma assign_boundaries_cumulative (ps : list (csv_layer * R)) (mapped_top : R) :
  Spec2.cumulative mapped_top (assign_boundaries mapped_top ps) /\
  mapped_bottom_cm
    (last (assign_boundaries mapped_top ps)
       (mk_mapped_layer (mk_csv_layer "" 0 0) 0 0 mapped_top mapped_top))
  = mapped_top + Rsum (map snd ps).
Proof.
  revert mapped_top. induction ps as [|[l th] ps IH]; intros t0.
  - simpl. split; [exact I | lra].
  - destruct (IH (t0 + th)) as [Hc Hl]. split.
    + simpl. repeat split. exact Hc.
    + change (assign_boundaries t0 ((l, th) :: ps))
        with (mk_mapped_layer l (actual_thickness l) th t0 (t0 + th)
                :: assign_boundaries (t0 + th) ps).
      destruct (assign_boundaries (t0 + th) ps) as [|m ms] eqn:E.
      * destruct ps as [|[l' th'] ps']; [simpl; lra | discriminate].
      * change (last (?x :: m :: ms) ?d) with (last (m :: ms) d).
        erewrite last_default_irrelevant. rewrite Hl. simpl. lra.
Qed.

(** Mapped boundaries: the step returns unless the list is non-empty with
    total thickness 0; the mapped layers are the input layers in order, the
    first mapped top is 0, each mapped bottom is the mapped top plus the
    mapped thickness and is the next mapped top, and the last mapped bottom
    is the realized total mapped thickness. *)
Theorem map_raw_data_boundaries (ls : list csv_layer) (total_mapped_thickness : R) :
  ls = [] \/ Rsum (map actual_thickness ls) <> 0 ->
  exists mapped,
    map_raw_data ls total_mapped_thickness = Ok mapped /\
    map source mapped = ls /\
    Spec2.cumulative 0 mapped /\
    mapped_bottom_cm
      (last mapped (mk_mapped_layer (mk_csv_layer "" 0 0) 0 0 0 0))
    = Rsum (map mapped_thickness_cm mapped).
Proof.
  intros H. unfold map_raw_data. destruct ls as [|l0 ls].
  - exists []. simpl. repeat split.
  - destruct H as [H|H]; [discriminate|].
    destruct (Req_dec_T (Rsum (map actual_thickness (l0 :: ls))) 0) as [E|_];
      [contradiction|].
    eexists. split; [reflexivity|].
    split; [|split].
    + rewrite assign_boundaries_source, map_map. apply map_id.
    + apply assign_boundaries_cumulative.
    + rewrite (proj2 (assign_boundaries_cumulative _ 0)).
      rewrite assign_boundaries_thickness. lra.
Qed.

Lemma map_raw_data_boundaries_witness :
  exists mapped,
    map_raw_data Examples.csv_layers 10 = Ok mapped /\
    Spec2.cumulative 0 mapped.
Proof.
  destruct (map_raw_data_boundaries Examples.csv_layers 10) as (m & Hm & _ & Hc & _).
  - right. unfold Examples.csv_layers, actual_thickness. simpl. lra.
  - now exists m.
Defined.

Lemma in_layer_nearly_linear (l : csv_layer) (t0 T B d : R) :
  T <> 0 ->
  csv_topDepth_m l < csv_bottomDepth_m l ->
  csv_topDepth_m l <= d <= csv_bottomDepth_m l ->
  - (0.00005)
  <= DepthMapping.interpolate d
       (DepthMapping.of_mapped
          (mk_mapped_layer l (actual_thickness l) (proportional_share T B l) t0
             (t0 + proportional_share T B l)))
     - (t0 + (d - csv_topDepth_m l) / T * B)
  <= 0.00005.
Proof.
  intros HT Hl [H1 H2]. rewrite interpolate_eq by (simpl; lra).
  cbn [DepthMapping.of_mapped DepthMapping.topDepth_m DepthMapping.bottomDepth_m
       DepthMapping.mapped_top_cm DepthMapping.mapped_bottom_cm
       source mapped_top_cm mapped_bottom_cm].
  set (sh := proportional_share T B l).
  set (ratio := (d - csv_topDepth_m l) / (csv_bottomDepth_m l - csv_topDepth_m l)).
  assert (Hr : 0 <= ratio <= 1).
  { unfold ratio. split.
    - apply Rmult_le_pos; [lra|]. left. apply Rinv_0_lt_compat. lra.
    - apply (Rmult_le_reg_r (csv_bottomDepth_m l - csv_topDepth_m l)); [lra|].
      unfold Rdiv. rewrite Rmult_assoc, Rinv_l by lra. lra. }
  replace (round t0 4 + ratio * (round (t0 + sh) 4 - round t0 4)
           - (t0 + (d - csv_topDepth_m l) / T * B))
    with ((1 - ratio) * (round t0 4 - t0)
          + ratio * (round (t0 + sh) 4 - (t0 + sh)))
    by (unfold sh, ratio, proportional_share, actual_thickness; field; split; lra).
  apply interpolation_error; [exact Hr | apply round4_error | apply round4_error].
Qed.

Lemma scan_nearly_linear (r : list csv_layer) :
  forall (l : csv_layer) (t0 T B d : R),
    T <> 0 ->
    csv_topDepth_m l < csv_bottomDepth_m l ->
    Spec.csv_chained l r ->
    csv_topDepth_m l <= d <= csv_bottomDepth_m (last (l :: r) l) ->
    exists m,
      DepthMapping.scan_layers d
        (map DepthMapping.of_mapped
           (assign_boundaries t0
              (map (fun x => (x, proportional_share T B x)) (l :: r))))
      = Some m /\
      - (0.00005) <= m - (t0 + (d - csv_topDepth_m l) / T * B) <= 0.00005.
Proof.
  induction r as [|y r IH]; intros l t0 T B d HT Hl Hc [H1 H2];
    set (f := fun x : csv_layer => (x, proportional_share T B x));
    set (hd := DepthMapping.of_mapped
                 (mk_mapped_layer l (actual_thickness l)
                    (proportional_share T B l) t0
                    (t0 + proportional_share T B l))).
  - simpl in H2.
    change (DepthMapping.scan_layers d
              (map DepthMapping.of_mapped (assign_boundaries t0 (map f [l]))))
      with (if DepthMapping.in_layer d hd
            then Some (DepthMapping.interpolate d hd) else None).
    assert (E : DepthMapping.in_layer d hd = true)
      by (apply in_layer_true; simpl; lra).
    rewrite E. eexists. split; [reflexivity|].
    apply in_layer_nearly_linear; [assumption | assumption | lra].
  - destruct Hc as (Hb & Hy & Hc).
    change (last (l :: y :: r) l) with (last (y :: r) l) in H2.
    rewrite (last_default_irrelevant r y l y) in H2.
    change (DepthMapping.scan_layers d
              (map DepthMapping.of_mapped
                 (assign_boundaries t0 (map f (l :: y :: r)))))
      with (if DepthMapping.in_layer d hd
            then Some (DepthMapping.interpolate d hd)
            else DepthMapping.scan_layers d
                   (map DepthMapping.of_mapped
                      (assign_boundaries (t0 + proportional_share T B l)
                         (map f (y :: r))))).
    destruct (Rle_dec d (csv_bottomDepth_m l)) as [Hin|Hout].
    + assert (E : DepthMapping.in_layer d hd = true)
        by (apply in_layer_true; simpl; lra).
      rewrite E. eexists. split; [reflexivity|].
      apply in_layer_nearly_linear; [assumption | assumption | lra].
    + assert (E : DepthMapping.in_layer d hd = false)
        by (apply in_layer_false; simpl; right; lra).
      rewrite E. unfold f.
      destruct (IH y (t0 + proportional_share T B l) T B d HT Hy Hc ltac:(lra))
        as (m & Em & Hm).
      exists m. split; [exact Em|].
      replace (t0 + (d - csv_topDepth_m l) / T * B)
        with (t0 + proportional_share T B l + (d - csv_topDepth_m y) / T * B);
        [exact Hm|].
      unfold proportional_share, actual_thickness. rewrite <- Hb. field. lra.
Qed.

(** Without clamping the map is one linear scale, up to the rounding of the
    table: when every proportional share reaches the minimum thickness, a
    depth between the first top and the last bottom is drawn within 0.00005
    cm of [(d - firstTop) / totalThickness * budget], whatever layer it lies
    in.  The boundaries the mapper reads are rounded to four decimals, so
    the value need not be that product itself. *)
Theorem unclamped_map_is_linear_up_to_rounding
  (l : csv_layer) (r : list csv_layer) (total_mapped_thickness d : R) :
  let total := Rsum (map actual_thickness (l :: r)) in
  Spec.csv_gapless (l :: r) ->
  Forall (fun x => min_thickness <= proportional_share total total_mapped_thickness x)
    (l :: r) ->
  csv_topDepth_m l <= d <= csv_bottomDepth_m (last (l :: r) l) ->
  exists mapped m,
    map_raw_data (l :: r) total_mapped_thickness = Ok mapped /\
    DepthMapping.calculate_mapped_depth d (map DepthMapping.of_mapped mapped)
    = Ok m /\
    Rabs (m - (d - csv_topDepth_m l) / total * total_mapped_thickness) <= 0.00005.
Proof.
  intros total [Hl Hc] Hshares Hd.
  pose proof (csv_chained_total r l Hl Hc) as Hpos. fold total in Hpos.
  assert (HT : total <> 0) by lra.
  destruct (scan_nearly_linear r l 0 total total_mapped_thickness d HT Hl Hc Hd)
    as (m & Em & Hm).
  unfold map_raw_data. fold total.
  destruct (Req_dec_T total 0) as [E|_]; [lra|].
  eexists. exists m. split; [reflexivity|].
  assert (Hmap :
    map (fun x => (x, adjust_min (proportional_share total total_mapped_thickness x)))
      (l :: r)
    = map (fun x => (x, proportional_share total total_mapped_thickness x)) (l :: r)).
  { apply map_ext_in. intros x Hx. f_equal.
    rewrite Forall_forall in Hshares. specialize (Hshares x Hx).
    unfold adjust_min.
    destruct (Rlt_dec (proportional_share total total_mapped_thickness x) min_thickness);
      [lra | reflexivity]. }
  rewrite Hmap. unfold DepthMapping.calculate_mapped_depth. rewrite Em.
  split; [reflexivity|]. apply Rabs_le. lra.
Qed.

Lemma unclamped_map_is_linear_up_to_rounding_witness :
  exists mapped m,
    map_raw_data [mk_csv_layer "Q" 0 100; mk_csv_layer "N" 100 200] 10 = Ok mapped /\
    DepthMapping.calculate_mapped_depth 150 (map DepthMapping.of_mapped mapped)
    = Ok m /\
    Rabs (m - (150 - 0) / Rsum [100 - 0; 200 - 100] * 10) <= 0.00005.
Proof.
  apply (unclamped_map_is_linear_up_to_rounding
           (mk_csv_layer "Q" 0 100) [mk_csv_layer "N" 100 200] 10 150).
  - simpl. repeat split; lra.
  - unfold proportional_share, actual_thickness, min_thickness. simpl.
    repeat constructor; simpl; lra.
  - simpl. lra.
Defined.

End MappingStepMore.

(** * Further properties of the continuity validation *)

Section ContinuityMore.

Import Stratigraphy Spec.

Lemma sort_keys_fst (l : list raw_layer) (ks : list (R * raw_layer)) :
  sort_keys l = Ok ks -> Forall (fun p => topDepth_m (snd p) = Some (fst p)) ks.
Proof.
  revert ks. induction l as [|x l IH]; intros ks; simpl.
  - intros [= <-]. constructor.
  - destruct (topDepth_m x) as [k|] eqn:E; [|discriminate].
    destruct (sort_keys l) as [ks'|]; simpl; [|discriminate].
    intros [= <-]. constructor; [exact E | now apply IH].
Qed.

Lemma sort_keys_error (l : list raw_layer) (e : exn) :
  sort_keys l = Raise e -> e = KeyError.
Proof.
  induction l as [|x l IH]; simpl; [discriminate|].
  destruct (topDepth_m x); [|now intros [= <-]].
  destruct (sort_keys l); simpl; [discriminate|]. intros [= <-]. now apply IH.
Qed.

(** The sorted list is sorted by [topDepth_m]. *)
Lemma sorted_by_top_sorted (l s : list raw_layer) :
  sorted_by_top l = Ok s ->
  StronglySorted (fun a b => Spec2.top_of a <= Spec2.top_of b) s.
Proof.
  unfold sorted_by_top. destruct (sort_keys l) as [ks|] eqn:E; simpl; [|discriminate].
  intros [= <-].
  pose proof (sort_keys_fst l ks E) as Hk.
  assert (Hk' : Forall (fun p => topDepth_m (snd p) = Some (fst p)) (stable_sort ks)).
  { apply Forall_forall. intros p Hp. rewrite Forall_forall in Hk. apply Hk.
    eapply Permutation_in; [apply Permutation_sym, stable_sort_perm | exact Hp]. }
  pose proof (stable_sort_sorted ks) as Hs.
  apply Sorted_LocallySorted_iff in Hs.
  apply Sorted_StronglySorted in Hs; [|intros a b c; unfold key_le; lra].
  induction Hs as [|p ps Hs IH Hall]; simpl; constructor.
  - apply IH. now inversion Hk'.
  - inversion Hk' as [|? ? Hp Hps]; subst.
    rewrite Forall_forall in *. intros y Hy.
    apply in_map_iff in Hy. destruct Hy as (q & <- & Hq).
    specialize (Hall q Hq). specialize (Hps q Hq).
    unfold Spec2.top_of, key_le in *. rewrite Hp, Hps. exact Hall.
Qed.

(** In a gapless partition the tops strictly increase. *)
Lemma gapless_partition_strict (s : list raw_layer) :
  gapless_partition s ->
  StronglySorted (fun a b => Spec2.top_of a < Spec2.top_of b) s.
Proof.
  induction s as [|c rest IH]; intros Hg; [constructor|].
  destruct Hg as [(t & b & Ht & Hb & Hlt & Hn) Hg].
  specialize (IH Hg). constructor; [exact IH|].
  destruct rest as [|n rest]; [constructor|].
  assert (Hcn : Spec2.top_of c < Spec2.top_of n).
  { unfold Spec2.top_of. rewrite Ht, Hn. exact Hlt. }
  constructor; [exact Hcn|].
  inversion IH as [|? ? _ Hall]; subst.
  eapply Forall_impl; [|exact Hall]. simpl. intros a Ha. lra.
Qed.

(** A sorted permutation of a strictly sorted list is that list. *)
Lemma sorted_unique (s s' : list raw_layer) :
  StronglySorted (fun a b => Spec2.top_of a < Spec2.top_of b) s ->
  StronglySorted (fun a b => Spec2.top_of a <= Spec2.top_of b) s' ->
  Permutation s s' -> s' = s.
Proof.
  revert s'. induction s as [|a s IH]; intros s' Hs Hs' Hp.
  - now apply Permutation_nil in Hp.
  - destruct s' as [|b s']; [now apply Permutation_sym, Permutation_nil in Hp|].
    inversion Hs as [|? ? Hs1 Ha]; subst. inversion Hs' as [|? ? Hs1' Hb]; subst.
    assert (Hab : a = b).
    { assert (Hin : In a (b :: s')) by (eapply Permutation_in; [exact Hp | now left]).
      assert (Hin' : In b (a :: s))
        by (eapply Permutation_in; [apply Permutation_sym, Hp | now left]).
      destruct Hin as [->|Hin]; [reflexivity|].
      destruct Hin' as [->|Hin']; [reflexivity|].
      rewrite Forall_forall in Ha, Hb.
      specialize (Ha b Hin'). specialize (Hb a Hin). lra. }
    subst b. f_equal. apply IH; try assumption.
    now apply Permutation_cons_inv in Hp.
Qed.

(** One turn of the loop. *)
Lemma check_layers_cons (c : raw_layer) (rest : list raw_layer) :
  check_layers (c :: rest) =
  match name c, topDepth_m c, bottomDepth_m c with
  | Some _, Some top, Some bottom =>
      if Rge_dec top bottom then Raise ValueError
      else
        match rest with
        | [] => Ok true
        | next_layer :: _ =>
            match topDepth_m next_layer with
            | None => Raise KeyError
            | Some next_top =>
                if Req_dec_T bottom next_top
                then format_next_name next_layer (check_layers rest)
                else format_next_name next_layer (Raise ValueError)
            end
        end
  | _, _, _ => Raise ValueError
  end.
Proof. destruct rest; reflexivity. Qed.

Lemma check_layers_errors (s : list raw_layer) :
  Forall (fun x => topDepth_m x <> None) s ->
  Forall (fun x => name x <> None) s ->
  check_layers s = Ok true \/ check_layers s = Raise ValueError.
Proof.
  induction s as [|c rest IH]; intros Hall Hnamed; [now left|].
  inversion Hall as [|? ? Hc Hrest]; subst.
  inversion Hnamed as [|? ? Hcn Hrestn]; subst.
  specialize (IH Hrest Hrestn). rewrite check_layers_cons.
  destruct (name c) as [nm|], (topDepth_m c) as [t|], (bottomDepth_m c) as [b|];
    try (now right).
  destruct (Rge_dec t b) as [Hge|Hlt]; [now right|].
  destruct rest as [|nx rest]; [now left|].
  inversion Hrest as [|? ? Hnx _]; subst.
  inversion Hrestn as [|? ? Hnxn _]; subst.
  destruct (topDepth_m nx) as [nt|]; [|contradiction].
  unfold format_next_name.
  destruct (name nx) as [nxn|]; [|contradiction].
  destruct (Req_dec_T b nt) as [He|Hne]; [exact IH | now right].
Qed.

(** The three outcomes of the validation when every layer has a name. *)
Lemma validate_continuity_outcome (l : list raw_layer) :
  Forall (fun x => name x <> None) l ->
  (validate_continuity l = Raise KeyError /\
   l <> [] /\ ~ Forall (fun x => topDepth_m x <> None) l) \/
  (validate_continuity l = Raise ValueError /\
   (l = [] \/ Forall (fun x => topDepth_m x <> None) l)) \/
  validate_continuity l = Ok true.
Proof.
  intros Hnamed.
  destruct l as [|x l]; [right; left; split; [reflexivity | now left]|].
  unfold validate_continuity, sorted_by_top.
  destruct (sort_keys (x :: l)) as [ks|e] eqn:E; simpl.
  - assert (Hall : Forall (fun y => topDepth_m y <> None) (x :: l))
      by (apply sort_keys_ok; now exists ks).
    assert (Hperm : Permutation (x :: l) (map snd (stable_sort ks))).
    { apply sorted_by_top_perm. unfold sorted_by_top. now rewrite E. }
    assert (Hall' : Forall (fun y => topDepth_m y <> None) (map snd (stable_sort ks)))
      by (eapply Permutation_Forall; eassumption).
    assert (Hnamed' : Forall (fun y => name y <> None) (map snd (stable_sort ks)))
      by (eapply Permutation_Forall; eassumption).
    destruct (check_layers_errors _ Hall' Hnamed') as [H|H]; rewrite H;
      [now right; right | right; left; split; [reflexivity | now right]].
  - left. rewrite (sort_keys_error _ _ E). split; [reflexivity|].
    split; [discriminate|]. intros Hall. apply sort_keys_ok in Hall.
    destruct Hall as [ks Hks]. congruence.
Qed.

Lemma validate_continuity_ok_perm (l l' : list raw_layer) :
  Permutation l l' ->
  validate_continuity l = Ok true -> validate_continuity l' = Ok true.
Proof.
  intros Hp H. apply validate_continuity_ok in H.
  destruct H as (Hne & Hc & s & Es & Hg).
  apply validate_continuity_ok. split; [|split].
  - intros ->. apply Permutation_sym, Permutation_nil in Hp. contradiction.
  - eapply Permutation_Forall; eassumption.
  - assert (Hall : Forall (fun x => topDepth_m x <> None) l').
    { eapply Permutation_Forall; [exact Hp|].
      eapply Forall_impl; [|exact Hc]. intros a (_ & Ha & _). exact Ha. }
    apply sort_keys_ok in Hall. destruct Hall as [ks Hks].
    assert (Es' : sorted_by_top l' = Ok (map snd (stable_sort ks)))
      by (unfold sorted_by_top; now rewrite Hks).
    exists (map snd (stable_sort ks)). split; [exact Es'|].
    rewrite (sorted_unique s (map snd (stable_sort ks))); [exact Hg | | |].
    + now apply gapless_partition_strict.
    + now apply (sorted_by_top_sorted l').
    + rewrite <- (sorted_by_top_perm l s Es), Hp.
      now apply sorted_by_top_perm.
Qed.

(** Order and the outcome.  Whether the validation passes does not depend
    on the order of the layers.  When every layer has a name, the whole
    outcome, the exception included, is the same for every arrangement.
    Without that the exception can depend on the order: of two layers with
    the same top, a named one and an unnamed one, the unnamed one raises
    [KeyError] when it comes second (its name is read for the gap message)
    and [ValueError] when it comes first. *)
Theorem validate_continuity_permutation (l l' : list raw_layer) :
  Permutation l l' ->
  (validate_continuity l = Ok true <-> validate_continuity l' = Ok true) /\
  (Forall (fun x => name x <> None) l ->
   validate_continuity l = validate_continuity l') /\
  (Permutation Examples2.named_first Examples2.unnamed_first /\
   validate_continuity Examples2.named_first = Raise KeyError /\
   validate_continuity Examples2.unnamed_first = Raise ValueError).
Proof.
  intros Hp. split; [|split].
  - split; [apply validate_continuity_ok_perm, Hp |
            apply validate_continuity_ok_perm, Permutation_sym, Hp].
  - intros Hnamed.
    assert (Hnamed' : Forall (fun x => name x <> None) l')
      by (eapply Permutation_Forall; eassumption).
    assert (Htops : Forall (fun x => topDepth_m x <> None) l <->
                    Forall (fun x => topDepth_m x <> None) l').
    { split; intros H; eapply Permutation_Forall; try exact H;
        [exact Hp | apply Permutation_sym, Hp]. }
    assert (Hnil : l = [] <-> l' = []).
    { split; intros ->; [now apply Permutation_nil in Hp |
                         now apply Permutation_sym, Permutation_nil in Hp]. }
    destruct (validate_continuity_outcome l Hnamed)
      as [(E & Hne & Hk)|[(E & Hv)|E]];
      destruct (validate_continuity_outcome l' Hnamed')
        as [(E' & Hne' & Hk')|[(E' & Hv')|E']];
      rewrite E, E'; try reflexivity; exfalso.
    + destruct Hv' as [Hv'|Hv']; [apply Hne, Hnil, Hv' | apply Hk, Htops, Hv'].
    + apply (validate_continuity_ok_perm l' l (Permutation_sym Hp)) in E'. congruence.
    + destruct Hv as [Hv|Hv]; [apply Hne', Hnil, Hv | apply Hk', Htops, Hv].
    + apply (validate_continuity_ok_perm l' l (Permutation_sym Hp)) in E'. congruence.
    + apply (validate_continuity_ok_perm l l' Hp) in E. congruence.
    + apply (validate_continuity_ok_perm l l' Hp) in E. congruence.
  - split; [apply perm_swap|].
    unfold Examples2.named_first, Examples2.unnamed_first,
      validate_continuity, sorted_by_top.
    split; repeat (simpl; decide_reals); reflexivity.
Qed.

Lemma validate_continuity_permutation_witness :
  validate_continuity [Examples.layer "Q" 0 100; Examples.layer "N" 100 200]
  = validate_continuity Examples.good_layers.
Proof.
  apply (proj1 (proj2 (validate_continuity_permutation
                         [Examples.layer "Q" 0 100; Examples.layer "N" 100 200]
                         Examples.good_layers (perm_swap _ _ _)))).
  unfold Examples.layer. repeat constructor; simpl; discriminate.
Defined.

End ContinuityMore.

(** * The two stratigraphy steps in a row *)

Section StratigraphyPipeline.

Import Stratigraphy Spec StratigraphyExport.

Lemma export_rows_chained (rest : list raw_layer) :
  forall (c : raw_layer),
    gapless_partition (c :: rest) ->
    Forall (fun x => name x <> None /\ name x <> Some ""%string) (c :: rest) ->
    exists row,
      export_rows (c :: rest) = row :: export_rows rest /\
      topDepth_m c = Some (csv_topDepth_m row) /\
      bottomDepth_m c = Some (csv_bottomDepth_m row) /\
      csv_topDepth_m row < csv_bottomDepth_m row /\
      csv_chained row (export_rows rest) /\
      List.length (export_rows rest) = List.length rest.
Proof.
  induction rest as [|n rest IH]; intros c Hg Hn.
  - destruct Hg as [(t & b & Ht & Hb & Hlt & _) _].
    inversion Hn as [|? ? [Hn1 Hn2] _]; subst.
    destruct (name c) as [nm|] eqn:En; [|contradiction].
    exists (mk_csv_layer nm t b). simpl. unfold export_row. rewrite En, Ht, Hb.
    destruct (String.eqb_spec nm ""); [subst; contradiction|].
    repeat split; simpl; try reflexivity; lra.
  - destruct Hg as [(t & b & Ht & Hb & Hlt & Hnext) Hg].
    inversion Hn as [|? ? [Hn1 Hn2] Hrest]; subst.
    destruct (IH n Hg Hrest) as (rown & Erow & Htn & Hbn & Hltn & Hcn & Hlen).
    destruct (name c) as [nm|] eqn:En; [|contradiction].
    exists (mk_csv_layer nm t b).
    change (export_rows (c :: n :: rest))
      with (match export_row c with
            | Some row => row :: export_rows (n :: rest)
            | None => export_rows (n :: rest)
            end).
    unfold export_row at 1. rewrite En, Ht, Hb.
    destruct (String.eqb_spec nm ""); [subst; contradiction|].
    rewrite Erow. simpl.
    repeat split; try reflexivity; try assumption; try lra.
    + rewrite Hnext in Htn. now injection Htn.
    + now rewrite Hlen.
Qed.

Lemma map_raw_data_source (ls : list csv_layer) (budget : R)
  (mapped : list mapped_layer) :
  map_raw_data ls budget = Ok mapped -> map source mapped = ls.
Proof.
  unfold map_raw_data. destruct ls as [|l ls]; [now intros [= <-]|].
  destruct (Req_dec_T _ 0); [discriminate|]. intros H.
  assert (E : mapped = assign_boundaries 0
                (map (fun x => (x, adjust_min
                                     (proportional_share
                                        (Rsum (map actual_thickness (l :: ls)))
                                        budget x))) (l :: ls)))
    by congruence.
  rewrite E, assign_boundaries_source, map_map. apply map_id.
Qed.

(** Steps 1 and 2 compose: for layers that pass [validate_continuity] and
    whose names are not empty, the raw export followed by the mapping step
    returns one mapped layer per layer, and the table it writes is a
    validated mapping table. *)
Theorem validated_layers_give_validated_table
  (stratigraphy : list raw_layer) (total_mapped_thickness : R) :
  validate_continuity stratigraphy = Ok true ->
  Forall Spec2.named stratigraphy ->
  exists mapped,
    process_steps stratigraphy total_mapped_thickness = Ok mapped /\
    List.length mapped = List.length stratigraphy /\
    DepthMapping.validated_table (map DepthMapping.of_mapped mapped).
Proof.
  intros Hv Hnamed. apply validate_continuity_ok in Hv.
  destruct Hv as (Hne & Hc & s & Es & Hg).
  assert (Hperm : Permutation stratigraphy s) by now apply sorted_by_top_perm.
  assert (Hs : Forall (fun x => name x <> None /\ name x <> Some ""%string) s).
  { eapply Permutation_Forall; [exact Hperm|].
    apply Forall_forall. intros x Hx. rewrite Forall_forall in Hc, Hnamed.
    split; [apply (Hc x Hx) | apply (Hnamed x Hx)]. }
  destruct s as [|c rest].
  { apply Permutation_sym, Permutation_nil in Hperm. contradiction. }
  destruct (export_rows_chained rest c Hg Hs)
    as (row & Erow & _ & _ & Hlt & Hchain & Hlen).
  destruct (map_raw_data_validated (row :: export_rows rest) total_mapped_thickness)
    as (mapped & Hm & Hval); [now split|].
  exists mapped. unfold process_steps, export_raw_data. rewrite Es.
  unfold bind. rewrite Erow. split; [exact Hm|]. split; [|exact Hval].
  pose proof (map_raw_data_source _ _ _ Hm) as Hsrc.
  rewrite <- (List.length_map source), Hsrc. simpl. rewrite Hlen.
  now rewrite (Permutation_length Hperm).
Qed.

Lemma validated_layers_give_validated_table_witness :
  exists mapped,
    process_steps Examples.good_layers 10 = Ok mapped /\
    List.length mapped = 2%nat /\
    DepthMapping.validated_table (map DepthMapping.of_mapped mapped).
Proof.
  apply (validated_layers_give_validated_table Examples.good_layers 10).
  - unfold Examples.good_layers, Examples.layer, validate_continuity, sorted_by_top.
    repeat (simpl; decide_reals). reflexivity.
  - repeat constructor; discriminate.
Defined.

End StratigraphyPipeline.

(** * Interval datasets *)

Section SortingFacts.

Context {A : Type}.
Variable key : A -> option R.

Lemma gsort_keys_snd (l : list A) (ks : list (R * A)) :
  Sorting.sort_keys key l = Ok ks -> map snd ks = l.
Proof.
  revert ks. induction l as [|x l IH]; intros ks; simpl.
  - intros [= <-]. reflexivity.
  - destruct (key x); [|discriminate].
    destruct (Sorting.sort_keys key l) as [ks'|]; simpl; [|discriminate].
    intros [= <-]. simpl. now rewrite (IH ks').
Qed.

Lemma gsort_keys_ok (l : list A) :
  Forall (fun x => key x <> None) l <-> exists ks, Sorting.sort_keys key l = Ok ks.
Proof.
  induction l as [|x l IH]; simpl.
  - split; [intros _; now exists [] | constructor].
  - split.
    + intros H. inversion H as [|? ? Hx Hl]; subst.
      apply IH in Hl. destruct Hl as [ks ->].
      destruct (key x) as [k|]; [|contradiction]. simpl. now eexists.
    + intros [ks H]. destruct (key x) as [k|] eqn:E; [|discriminate].
      constructor; [congruence|]. apply IH.
      destruct (Sorting.sort_keys key l) as [ks'|]; [now eexists | discriminate].
Qed.

Lemma gsort_keys_error (l : list A) (e : exn) :
  Sorting.sort_keys key l = Raise e -> e = KeyError.
Proof.
  induction l as [|x l IH]; simpl; [discriminate|].
  destruct (key x); [|now intros [= <-]].
  destruct (Sorting.sort_keys key l); simpl; [discriminate|].
  intros [= <-]. now apply IH.
Qed.

Lemma ginsert_perm (x : R * A) (l : list (R * A)) :
  Permutation (x :: l) (Sorting.insert_by_key x l).
Proof.
  induction l as [|y l IH]; simpl; [reflexivity|].
  destruct (Rle_dec (fst x) (fst y)); [reflexivity|].
  rewrite perm_swap. now constructor.
Qed.

Lemma gstable_sort_perm (l : list (R * A)) : Permutation l (Sorting.stable_sort l).
Proof.
  induction l as [|x l IH]; simpl; [constructor|].
  rewrite <- ginsert_perm. now constructor.
Qed.

Lemma gsorted_perm (l s : list A) :
  Sorting.sorted key l = Ok s -> Permutation l s.
Proof.
  unfold Sorting.sorted.
  destruct (Sorting.sort_keys key l) as [ks|] eqn:E; simpl; [|discriminate].
  intros [= <-]. rewrite <- (gsort_keys_snd l ks E).
  apply Permutation_map, gstable_sort_perm.
Qed.

(** Sorting succeeds exactly when every element has the key, and otherwise
    raises [KeyError]. *)
Lemma gsorted_outcome (l : list A) :
  (exists s, Sorting.sorted key l = Ok s /\ Permutation l s /\
             Forall (fun x => key x <> None) l) \/
  (Sorting.sorted key l = Raise KeyError /\
   ~ Forall (fun x => key x <> None) l).
Proof.
  unfold Sorting.sorted.
  destruct (Sorting.sort_keys key l) as [ks|e] eqn:E; simpl.
  - left. exists (map snd (Sorting.stable_sort ks)). split; [reflexivity|]. split.
    + rewrite <- (gsort_keys_snd l ks E) at 1.
      apply Permutation_map, gstable_sort_perm.
    + apply gsort_keys_ok. now exists ks.
  - right. rewrite (gsort_keys_error l e E). split; [reflexivity|].
    intros H. apply gsort_keys_ok in H. destruct H as [ks H]. congruence.
Qed.

End SortingFacts.

Section HoleSectionFacts.

Import HoleSections.

Lemma hole_check_sections_outcome (s : list section) :
  (check_sections s = Ok true /\ Forall valid s) \/
  (check_sections s = Raise ValueError /\ ~ Forall valid s).
Proof.
  induction s as [|c rest IH]; simpl; [left; split; [reflexivity | constructor]|].
  assert (Hbad : ~ valid c -> ~ Forall valid (c :: rest))
    by (intros H F; inversion F; contradiction).
  destruct (topDepth_m c) as [t|] eqn:Et;
    [|right; split; [reflexivity|];
      apply Hbad; intros (t' & b' & H & _); congruence].
  destruct (bottomDepth_m c) as [b|] eqn:Eb;
    [|right; split; [reflexivity|];
      apply Hbad; intros (t' & b' & _ & H & _); congruence].
  destruct (diameter_mm c) as [dm|] eqn:Ed;
    [|right; split; [reflexivity|];
      apply Hbad; intros (t' & b' & _ & _ & H & _); congruence].
  destruct (note_in c) as [nt|] eqn:En;
    [|right; split; [reflexivity|];
      apply Hbad; intros (t' & b' & _ & _ & _ & H & _); congruence].
  destruct (Rge_dec t b) as [Hge|Hlt].
  - right. split; [reflexivity|]. apply Hbad.
    intros (t' & b' & Ht & Hb & _ & _ & H).
    assert (t' = t) by congruence. assert (b' = b) by congruence. lra.
  - assert (Hc : valid c).
    { exists t, b. rewrite Ed, En.
      repeat split; try assumption; try discriminate. lra. }
    destruct IH as [[E F]|[E F]]; [left | right]; (split; [exact E|]).
    + now constructor.
    + intros G. inversion G. contradiction.
Qed.

(** Hole sections: [validate_data] returns [True] exactly for a non-empty
    list whose every section has its four fields and [top < bottom]; nothing
    is asked of how the sections lie to each other, so gaps and overlaps
    pass.  Otherwise it raises: [KeyError] when a section has no
    [topDepth_m] (the sort fails first), else [ValueError]. *)
Theorem hole_validate_data_spec (hole_sections : list section) :
  (validate_data hole_sections = Ok true <->
   hole_sections <> [] /\ Forall valid hole_sections) /\
  (validate_data hole_sections = Raise KeyError <->
   hole_sections <> [] /\ ~ Forall (fun s => topDepth_m s <> None) hole_sections) /\
  (validate_data hole_sections = Ok true \/
   validate_data hole_sections = Raise KeyError \/
   validate_data hole_sections = Raise ValueError).
Proof.
  destruct hole_sections as [|x l].
  { simpl. split; [split; [discriminate | intros [H _]; contradiction]|].
    split; [split; [discriminate | intros [H _]; contradiction]|].
    right. now right. }
  unfold validate_data.
  destruct (gsorted_outcome topDepth_m (x :: l)) as [(s & Es & Hp & Hk)|[Es Hk]];
    rewrite Es; simpl.
  - destruct (hole_check_sections_outcome s) as [[E F]|[E F]]; rewrite E.
    + assert (F' : Forall valid (x :: l))
        by (eapply Permutation_Forall; [apply Permutation_sym, Hp | exact F]).
      split; [split; [intros _; split; [discriminate | exact F'] | reflexivity]|].
      split; [split; [discriminate | intros [_ H]; contradiction]|]. now left.
    + assert (F' : ~ Forall valid (x :: l)).
      { intros G. apply F. eapply Permutation_Forall; [exact Hp | exact G]. }
      split; [split; [discriminate | intros [_ H]; contradiction]|].
      split; [split; [discriminate | intros [_ H]; contradiction]|].
      right. now right.
  - split; [split; [discriminate|]|].
    + intros [_ F]. exfalso. apply Hk.
      eapply Forall_impl; [|exact F]. intros a (t & b & Ht & _). congruence.
    + split; [split; [intros _; split; [discriminate | exact Hk] | reflexivity]|].
      right. now left.
Qed.

(** Overlapping sections pass. *)
Lemma hole_validate_data_spec_witness :
  validate_data Examples2.overlapping_holes = Ok true.
Proof.
  apply (proj1 (hole_validate_data_spec Examples2.overlapping_holes)).
  split; [discriminate|].
  unfold Examples2.overlapping_holes, valid.
  constructor; [|constructor; [|constructor]]; simpl.
  - exists 0, 1500. repeat split; try discriminate. lra.
  - exists 0, 500. repeat split; try discriminate. lra.
Defined.

End HoleSectionFacts.

Section CasingSectionFacts.

Import CasingSections.

Lemma casing_check_sections_outcome (s : list section) :
  (check_sections s = Ok true /\ Forall valid s) \/
  (check_sections s = Raise ValueError /\ ~ Forall valid s).
Proof.
  induction s as [|c rest IH]; simpl; [left; split; [reflexivity | constructor]|].
  assert (Hbad : ~ valid c -> ~ Forall valid (c :: rest))
    by (intros H F; inversion F; contradiction).
  destruct (topDepth_m c) as [t|] eqn:Et;
    [|right; split; [reflexivity|];
      apply Hbad; intros (t' & b' & H & _); congruence].
  destruct (bottomDepth_m c) as [b|] eqn:Eb;
    [|right; split; [reflexivity|];
      apply Hbad; intros (t' & b' & _ & H & _); congruence].
  destruct (od_mm c) as [dm|] eqn:Ed;
    [|right; split; [reflexivity|];
      apply Hbad; intros (t' & b' & _ & _ & H & _); congruence].
  destruct (note_in c) as [nt|] eqn:En;
    [|right; split; [reflexivity|];
      apply Hbad; intros (t' & b' & _ & _ & _ & H & _); congruence].
  destruct (Rgt_dec t b) as [Hgt|Hle].
  - right. split; [reflexivity|]. apply Hbad.
    intros (t' & b' & Ht & Hb & _ & _ & H).
    assert (t' = t) by congruence. assert (b' = b) by congruence. lra.
  - assert (Hc : valid c).
    { exists t, b. rewrite Ed, En.
      repeat split; try assumption; try discriminate. lra. }
    destruct IH as [[E F]|[E F]]; [left | right]; (split; [exact E|]).
    + now constructor.
    + intros G. inversion G. contradiction.
Qed.

(** Casing sections: [validate_data] returns [True] exactly for a non-empty
    list whose every section has its four fields and [top <= bottom]: unlike
    a hole section, a casing section of length zero passes.  It raises
    [KeyError] when a section has no [bottomDepth_m], the key it sorts by,
    else [ValueError]. *)
Theorem casing_validate_data_spec (casing_sections : list section) :
  (validate_data casing_sections = Ok true <->
   casing_sections <> [] /\ Forall valid casing_sections) /\
  (validate_data casing_sections = Raise KeyError <->
   casing_sections <> [] /\
   ~ Forall (fun s => bottomDepth_m s <> None) casing_sections) /\
  (validate_data casing_sections = Ok true \/
   validate_data casing_sections = Raise KeyError \/
   validate_data casing_sections = Raise ValueError).
Proof.
  destruct casing_sections as [|x l].
  { simpl. split; [split; [discriminate | intros [H _]; contradiction]|].
    split; [split; [discriminate | intros [H _]; contradiction]|].
    right. now right. }
  unfold validate_data.
  destruct (gsorted_outcome bottomDepth_m (x :: l)) as [(s & Es & Hp & Hk)|[Es Hk]];
    rewrite Es; simpl.
  - destruct (casing_check_sections_outcome s) as [[E F]|[E F]]; rewrite E.
    + assert (F' : Forall valid (x :: l))
        by (eapply Permutation_Forall; [apply Permutation_sym, Hp | exact F]).
      split; [split; [intros _; split; [discriminate | exact F'] | reflexivity]|].
      split; [split; [discriminate | intros [_ H]; contradiction]|]. now left.
    + assert (F' : ~ Forall valid (x :: l)).
      { intros G. apply F. eapply Permutation_Forall; [exact Hp | exact G]. }
      split; [split; [discriminate | intros [_ H]; contradiction]|].
      split; [split; [discriminate | intros [_ H]; contradiction]|].
      right. now right.
  - split; [split; [discriminate|]|].
    + intros [_ F]. exfalso. apply Hk.
      eapply Forall_impl; [|exact F]. intros a (t & b & _ & Hb & _). congruence.
    + split; [split; [intros _; split; [discriminate | exact Hk] | reflexivity]|].
      right. now left.
Qed.

(** A casing section with [top = bottom] passes. *)
Lemma casing_validate_data_spec_witness :
  validate_data Examples2.zero_length_casing = Ok true.
Proof.
  apply (proj1 (casing_validate_data_spec Examples2.zero_length_casing)).
  split; [discriminate|].
  unfold Examples2.zero_length_casing, valid.
  constructor; [|constructor]; simpl.
  exists 500, 500. repeat split; try discriminate. lra.
Defined.

End CasingSectionFacts.

Section DrillingFluidFacts.

Import DrillingFluid.

Lemma fluid_sort_keys (l : list section) :
  Stratigraphy.sort_keys (map as_layer l)
  = match Sorting.sort_keys topDepth_m l with
    | Ok ks => Ok (map as_pair ks)
    | Raise e => Raise e
    end.
Proof.
  induction l as [|x l IH]; simpl; [reflexivity|].
  destruct (topDepth_m x) as [k|]; [|reflexivity].
  rewrite IH. destruct (Sorting.sort_keys topDepth_m l); reflexivity.
Qed.

Lemma fluid_insert (x : R * section) (l : list (R * section)) :
  Stratigraphy.insert_by_key (as_pair x) (map as_pair l)
  = map as_pair (Sorting.insert_by_key x l).
Proof.
  induction l as [|y l IH]; simpl; [reflexivity|].
  destruct (Rle_dec (fst x) (fst y)); simpl; [reflexivity | now rewrite IH].
Qed.

Lemma fluid_stable_sort (l : list (R * section)) :
  Stratigraphy.stable_sort (map as_pair l) = map as_pair (Sorting.stable_sort l).
Proof.
  induction l as [|x l IH]; simpl; [reflexivity|].
  rewrite <- fluid_insert. f_equal. exact IH.
Qed.

Lemma fluid_sorted (l : list section) :
  Stratigraphy.sorted_by_top (map as_layer l)
  = match Sorting.sorted topDepth_m l with
    | Ok s => Ok (map as_layer s)
    | Raise e => Raise e
    end.
Proof.
  unfold Stratigraphy.sorted_by_top, Sorting.sorted. rewrite fluid_sort_keys.
  destruct (Sorting.sort_keys topDepth_m l) as [ks|e]; [|reflexivity].
  cbn [bind]. rewrite fluid_stable_sort. now rewrite !map_map.
Qed.

(** One turn of the drilling-fluid loop. *)
Lemma check_sections_cons (c : section) (rest : list section) :
  check_sections (c :: rest) =
  match topDepth_m c, bottomDepth_m c, porePressure_gcm3 c,
        pressureWindow_gcm3 c with
  | Some top, Some bottom, Some _, Some pressure_window =>
      if negb (window_ok pressure_window) then Raise ValueError
      else if Rge_dec top bottom then Raise ValueError
      else
        match rest with
        | [] => Ok true
        | next_section :: _ =>
            match topDepth_m next_section with
            | None => Raise KeyError
            | Some next_top =>
                if Req_dec_T bottom next_top then check_sections rest
                else Raise ValueError
            end
        end
  | _, _, _, _ => Raise ValueError
  end.
Proof. destruct rest; reflexivity. Qed.

Lemma as_layer_unnamed (c : section) (rest : list section) :
  Stratigraphy.name (as_layer c) = None ->
  check_sections (c :: rest) = Raise ValueError.
Proof.
  rewrite check_sections_cons. unfold as_layer. cbn [Stratigraphy.name].
  destruct (topDepth_m c), (bottomDepth_m c), (porePressure_gcm3 c),
    (pressureWindow_gcm3 c) as [pw|]; try reflexivity.
  destruct (window_ok pw); [discriminate | reflexivity].
Qed.

(** Section by section the two loops differ in one place only: where the
    next section is incomplete, the stratigraphy loop fails on its missing
    name with [KeyError], the drilling-fluid loop on its missing field with
    [ValueError]. *)
Lemma fluid_check (s : list section) :
  Forall (fun x => topDepth_m x <> None) s ->
  check_sections s
  = Spec2.key_error_as_value_error (Stratigraphy.check_layers (map as_layer s)).
Proof.
  induction s as [|c rest IH]; intros Hall; [reflexivity|].
  inversion Hall as [|? ? Hc Hrest]; subst. specialize (IH Hrest).
  cbn [map]. rewrite check_layers_cons, check_sections_cons.
  unfold as_layer at 1 2 3.
  cbn [Stratigraphy.name Stratigraphy.topDepth_m Stratigraphy.bottomDepth_m].
  destruct (topDepth_m c) as [t|], (bottomDepth_m c) as [b|],
    (porePressure_gcm3 c) as [pp|], (pressureWindow_gcm3 c) as [pw|];
    try reflexivity; try (destruct (window_ok pw); reflexivity).
  destruct (window_ok pw); [|reflexivity]. cbn [negb].
  destruct (Rge_dec t b) as [Hge|Hlt]; [reflexivity|].
  destruct rest as [|nx rest]; [reflexivity|].
  cbn [map] in *.
  change (Stratigraphy.topDepth_m (as_layer nx)) with (topDepth_m nx).
  inversion Hrest as [|? ? Hnx _]; subst.
  destruct (topDepth_m nx) as [nt|]; [|contradiction].
  unfold Stratigraphy.format_next_name.
  destruct (Stratigraphy.name (as_layer nx)) as [nn|] eqn:En.
  - destruct (Req_dec_T b nt) as [He|Hne]; [exact IH | reflexivity].
  - destruct (Req_dec_T b nt) as [He|Hne]; [|reflexivity].
    now apply as_layer_unnamed.
Qed.

Lemma fluid_check_complete (s : list section) :
  Forall (fun x => Stratigraphy.name (as_layer x) <> None) s ->
  check_sections s = Stratigraphy.check_layers (map as_layer s).
Proof.
  induction s as [|c rest IH]; intros Hall; [reflexivity|].
  inversion Hall as [|? ? Hc Hrest]; subst. specialize (IH Hrest).
  cbn [map]. rewrite check_layers_cons, check_sections_cons.
  unfold as_layer at 1 2 3.
  cbn [Stratigraphy.name Stratigraphy.topDepth_m Stratigraphy.bottomDepth_m].
  destruct (topDepth_m c) as [t|], (bottomDepth_m c) as [b|],
    (porePressure_gcm3 c) as [pp|], (pressureWindow_gcm3 c) as [pw|];
    try reflexivity; try (destruct (window_ok pw); reflexivity).
  destruct (window_ok pw); [|reflexivity]. cbn [negb].
  destruct (Rge_dec t b) as [Hge|Hlt]; [reflexivity|].
  destruct rest as [|nx rest]; [reflexivity|].
  cbn [map] in *.
  change (Stratigraphy.topDepth_m (as_layer nx)) with (topDepth_m nx).
  destruct (topDepth_m nx) as [nt|]; [|reflexivity].
  inversion Hrest as [|? ? Hnx _]; subst.
  unfold Stratigraphy.format_next_name.
  destruct (Stratigraphy.name (as_layer nx)) as [nn|]; [|contradiction].
  destruct (Req_dec_T b nt) as [He|Hne]; [exact IH | reflexivity].
Qed.

Lemma fluid_validate (drilling_fluid_data : list section) :
  (Forall (fun s => Stratigraphy.name (as_layer s) <> None) drilling_fluid_data ->
   validate_continuity drilling_fluid_data
   = Stratigraphy.validate_continuity (map as_layer drilling_fluid_data)) /\
  (Forall (fun s => topDepth_m s <> None) drilling_fluid_data ->
   validate_continuity drilling_fluid_data
   = Spec2.key_error_as_value_error
       (Stratigraphy.validate_continuity (map as_layer drilling_fluid_data))) /\
  (~ Forall (fun s => topDepth_m s <> None) drilling_fluid_data ->
   validate_continuity drilling_fluid_data = Raise KeyError /\
   Stratigraphy.validate_continuity (map as_layer drilling_fluid_data)
   = Raise KeyError).
Proof.
  destruct drilling_fluid_data as [|x l].
  { split; [reflexivity|]. split; [reflexivity|].
    intros H. elim H. constructor. }
  unfold validate_continuity, Stratigraphy.validate_continuity.
  cbn [map]. change (as_layer x :: map as_layer l) with (map as_layer (x :: l)).
  rewrite fluid_sorted.
  destruct (gsorted_outcome topDepth_m (x :: l)) as [(s & Es & Hp & Htops)|[Es Hn]];
    rewrite Es; cbn [bind].
  - split; [|split].
    + intros Hnamed. apply fluid_check_complete.
      eapply Permutation_Forall; eassumption.
    + intros _. apply fluid_check.
      eapply Permutation_Forall; eassumption.
    + intros Hn. contradiction.
  - split; [reflexivity|]. split; [intros H; contradiction|].
    intros _. split; reflexivity.
Qed.

(** The drilling-fluid validation against the stratigraphy validation run
    on the sections seen as layers (named exactly when the pore pressure and
    a window dict with [min] and [max] are present).  Both pass on the same
    lists.  When every section is complete the outcomes are identical, the
    exception included.  In general, with every [topDepth_m] present, the
    drilling-fluid outcome is the stratigraphy outcome with [KeyError] read
    as [ValueError]: an incomplete section that follows a complete one fails
    the stratigraphy validation on its missing name while the message is
    formatted, and the drilling-fluid validation on its own field check. *)
Theorem fluid_validate_continuity_is_stratigraphy (drilling_fluid_data : list section) :
  let strat := Stratigraphy.validate_continuity (map as_layer drilling_fluid_data) in
  (validate_continuity drilling_fluid_data = Ok true <-> strat = Ok true) /\
  (Forall (fun s => Stratigraphy.name (as_layer s) <> None) drilling_fluid_data ->
   validate_continuity drilling_fluid_data = strat) /\
  (Forall (fun s => topDepth_m s <> None) drilling_fluid_data ->
   validate_continuity drilling_fluid_data
   = Spec2.key_error_as_value_error strat) /\
  (validate_continuity Examples2.unfinished_fluid = Raise ValueError /\
   Stratigraphy.validate_continuity (map as_layer Examples2.unfinished_fluid)
   = Raise KeyError).
Proof.
  intros strat. subst strat.
  destruct (fluid_validate drilling_fluid_data) as (Hsame & Hdemote & Hkey).
  split; [|split; [exact Hsame|split; [exact Hdemote|]]].
  - destruct (gsorted_outcome topDepth_m drilling_fluid_data)
      as [(s & _ & _ & Hall)|[_ Hnot]].
    + rewrite (Hdemote Hall).
      destruct (Stratigraphy.validate_continuity (map as_layer drilling_fluid_data))
        as [b|[]]; simpl; split; intros H; (exact H || discriminate).
    + destruct (Hkey Hnot) as [-> ->]. split; discriminate.
  - unfold Examples2.unfinished_fluid, validate_continuity, Sorting.sorted,
      Stratigraphy.validate_continuity, Stratigraphy.sorted_by_top.
    split; repeat (simpl; decide_reals); reflexivity.
Qed.

Lemma fluid_validate_continuity_is_stratigraphy_witness :
  validate_continuity Examples2.fluid_sections = Ok true.
Proof.
  apply (proj1 (fluid_validate_continuity_is_stratigraphy Examples2.fluid_sections)).
  unfold Examples2.fluid_sections, Stratigraphy.validate_continuity,
    Stratigraphy.sorted_by_top.
  repeat (simpl; decide_reals). reflexivity.
Defined.

End DrillingFluidFacts.

Section SectionMappingFacts.

Import SectionMapping.

(** Mapped intervals keep their orientation: on a validated table with a
    positive last bottom and a first mapped top that is not negative, every
    list of sections with [top <= bottom] is mapped without an exception,
    section by section in the order given, and each mapped top is at most
    its mapped bottom, also for sections that reach below the last layer. *)
Theorem map_sections_oriented
  (l : DepthMapping.mapping_layer) (r : list DepthMapping.mapping_layer)
  (sections : list interval) :
  DepthMapping.validated_table (l :: r) ->
  0 < DepthMapping.bottomDepth_m (DepthMapping.last_layer (l :: r)) ->
  0 <= DepthMapping.mapped_top_cm l ->
  Forall (fun s => topDepth_m s <= bottomDepth_m s) sections ->
  exists mapped,
    map_sections sections (l :: r) = Ok mapped /\
    map source mapped = sections /\
    Forall (fun m => mapped_top_cm m <= mapped_bottom_cm m) mapped.
Proof.
  intros Hv Hpos Hm0. induction sections as [|s rest IH]; intros Hall.
  - exists []. repeat split; constructor.
  - inversion Hall as [|? ? Hs Hrest]; subst.
    destruct (IH Hrest) as (mapped & Em & Esrc & Hord).
    destruct (monotone_everywhere l r (topDepth_m s) (bottomDepth_m s)
                Hv Hpos Hm0 Hs) as (m1 & m2 & E1 & E2 & Hle).
    exists (mk_mapped_interval s m1 m2 :: mapped).
    cbn [map_sections]. rewrite E1, E2, Em. simpl.
    repeat split; [now rewrite Esrc | now constructor].
Qed.

Lemma map_sections_oriented_witness :
  exists mapped,
    map_sections Examples2.intervals Examples.table = Ok mapped /\
    map source mapped = Examples2.intervals /\
    Forall (fun m => mapped_top_cm m <= mapped_bottom_cm m) mapped.
Proof.
  apply (map_sections_oriented
           (DepthMapping.mk_mapping_layer 0 100 0 1)
           [DepthMapping.mk_mapping_layer 100 200 1 5]).
  - unfold DepthMapping.validated_table; simpl; unfold DepthMapping.layer_ok; simpl.
    repeat split; lra.
  - unfold DepthMapping.last_layer; simpl. lra.
  - simpl. lra.
  - unfold Examples2.intervals. repeat constructor; simpl; lra.
Defined.

End SectionMappingFacts.

(** * Further properties of the trajectory validation *)

Section ValidationMore.

Import Deviation.

Lemma mbind_ok {A B : Type} (m : M A) (k : A -> M B) (st st' : state) (b : B) :
  mbind m k st = (Ok b, st') ->
  exists a st1, m st = (Ok a, st1) /\ k a st1 = (Ok b, st').
Proof.
  unfold mbind. destruct (m st) as [[a|e] st1]; [|discriminate].
  intros H. now exists a, st1.
Qed.

Lemma mbind_raise {A B : Type} (m : M A) (k : A -> M B) (st st' : state) (e : exn) :
  m st = (Raise e, st') -> mbind m k st = (Raise e, st').
Proof. unfold mbind. now intros ->. Qed.

Lemma mbind_step {A B : Type} (m : M A) (k : A -> M B) (st st1 : state) (a : A) :
  m st = (Ok a, st1) -> mbind m k st = k a st1.
Proof. unfold mbind. now intros ->. Qed.

(** The kickoff stage always returns. *)
Lemma resolve_kickoff_total (f : json_file) (st : state) :
  exists st' kickoff_point,
    resolve_kickoff f st = (Ok tt, st') /\
    kickoffPoint_m (data st') = Some kickoff_point /\
    Spec3.same_but_kickoff (data st) (data st') /\
    (is_valid (get (kickoffPoint_m (data st))) = true -> st' = st).
Proof.
  unfold resolve_kickoff. run_stage.
  destruct (is_null (get (kickoffPoint_m (data st)))) eqn:Hk.
  - destruct (REAL_kickoffPoint_m (data st)) as [v|] eqn:Er.
    + eexists _, v. simpl. repeat split.
      unfold is_valid. rewrite Hk. discriminate.
    + destruct (kickoff_from_file_valid f st) as (k & e & Ef). rewrite Ef.
      eexists _, (VNum k). simpl. repeat split.
      unfold is_valid. rewrite Hk. discriminate.
  - destruct (kickoffPoint_m (data st)) as [k|] eqn:Ek; [|discriminate].
    exists st, k. repeat split. exact Ek.
Qed.

(** The kickoff stage cannot fail: the key is there afterwards, so the
    required-field check that follows never raises, and no other key is
    touched. *)
Theorem resolve_kickoff_never_raises (f : json_file) (st : state) :
  exists st' kickoff_point,
    resolve_kickoff f st = (Ok tt, st') /\
    kickoffPoint_m (data st') = Some kickoff_point /\
    Spec3.same_but_kickoff (data st) (data st') /\
    (is_valid (get (kickoffPoint_m (data st))) = true -> st' = st).
Proof. apply resolve_kickoff_total. Qed.

Lemma resolve_angle_ok (f : json_file) (st st' : state) (deg : R) :
  resolve_angle f st = (Ok deg, st') ->
  0 <= deg <= 90 /\
  deviationAngle_deg (data st') = Some (VNum deg) /\
  Spec3.same_but_angle (data st) (data st').
Proof.
  unfold resolve_angle. run_stage. cbn zeta.
  generalize (well_type_or_empty f =? "horizontal well")%string as hz.
  generalize (well_type_or_empty f =? "deviated well")%string as dv.
  intros dv hz.
  destruct (deviationAngle_deg (data st)) as [[|s|a]|] eqn:Ea; simpl;
    intros H; split_ifs H; try discriminate;
    injection H as <- <-; simpl; unfold Spec3.same_but_angle; simpl;
    reals_from_hyps; repeat split; try lra; assumption.
Qed.

Lemma invalid_not_less (kickoff_point : value) (a : R) :
  is_valid kickoff_point = false -> py_lt kickoff_point (VNum a) <> Ok true.
Proof. destruct kickoff_point; simpl; discriminate. Qed.

Lemma resolve_geometry_ok (kickoff_point : value) (deg : R) (st st' : state) :
  resolve_geometry kickoff_point deg st = (Ok tt, st') ->
  deviationAngle_deg (data st') = deviationAngle_deg (data st) /\
  targetPointB_m (data st') = targetPointB_m (data st) /\
  DistanceAB_m (data st') = DistanceAB_m (data st) /\
  (kickoffPoint_m (data st') = kickoffPoint_m (data st) \/
   is_valid kickoff_point = false /\
   exists a, targetPointA_m (data st') = Some (VNum a)).
Proof.
  destruct (is_valid kickoff_point) eqn:Hk,
           (is_valid (get (targetPointA_m (data st)))) eqn:Ha,
           (is_valid (get (targetPointA_verticalDepth_m (data st)))) eqn:Hv.
  - unfold resolve_geometry. run_stage. rewrite Hk, Ha, Hv. simpl.
    intros [= <-]. simpl. repeat split. now left.
  - rewrite (resolve_geometry_vertical _ _ _ Hk Ha Hv). cbv zeta.
    intros H. split_ifs H; try discriminate; injection H as <-; simpl;
      repeat split; now left.
  - rewrite (resolve_geometry_target_a _ _ _ Hk Ha Hv). cbv zeta.
    intros H. split_ifs H; try discriminate; injection H as <-; simpl;
      repeat split; now left.
  - unfold resolve_geometry. run_stage. rewrite Hk, Ha, Hv. simpl.
    intros [= <-]. simpl. repeat split. now left.
  - rewrite (resolve_geometry_kickoff _ _ _ Hk Ha Hv). cbv zeta.
    intros H.
    destruct (Rneqb (sin (radians deg)) (radians deg) && Rneqb (sin (radians deg)) 0).
    + destruct (get (targetPointA_m (data st))) as [|sa|a] eqn:Ea;
        try discriminate.
      destruct (num (get (targetPointA_verticalDepth_m (data st)))) as [v|];
        try discriminate.
      simpl in H. injection H as <-. simpl. repeat split. right.
      split; [reflexivity|]. exists a.
      destruct (targetPointA_m (data st)) as [x|]; simpl in Ea; congruence.
    + injection H as <-. simpl. repeat split. now left.
  - unfold resolve_geometry. run_stage. rewrite Hk, Ha, Hv. simpl.
    intros [= <-]. simpl. repeat split. now left.
  - unfold resolve_geometry. run_stage. rewrite Hk, Ha, Hv. simpl.
    intros [= <-]. simpl. repeat split. now left.
  - unfold resolve_geometry. run_stage. rewrite Hk, Ha, Hv. simpl.
    intros [= <-]. simpl. repeat split. now left.
Qed.

Lemma resolve_ab_ok (st st' : state) :
  resolve_ab st = (Ok tt, st') ->
  deviationAngle_deg (data st') = deviationAngle_deg (data st) /\
  kickoffPoint_m (data st') = kickoffPoint_m (data st) /\
  (exists a b ab,
     targetPointA_m (data st') = Some a /\
     targetPointB_m (data st') = Some b /\
     DistanceAB_m (data st') = Some ab) /\
  (forall a, targetPointA_m (data st) = Some (VNum a) ->
             targetPointA_m (data st') = Some (VNum a)).
Proof.
  unfold resolve_ab. run_stage. cbn zeta.
  destruct (targetPointA_m (data st)) as [va|] eqn:Ea,
           (targetPointB_m (data st)) as [vb|] eqn:Eb,
           (DistanceAB_m (data st)) as [vab|] eqn:Eab; cbn [get];
    change (is_valid VNone) with false;
    repeat match goal with
      | |- context [is_valid ?v] => destruct (is_valid v) eqn:?
      end;
    cbn [Nat.b2n Nat.add Nat.ltb Nat.leb andb];
    intros H; split_ifs H; try discriminate; injection H as <-; simpl;
    rewrite ?Ea, ?Eb, ?Eab;
    (split; [reflexivity|]); (split; [reflexivity|]);
    (split; [do 3 eexists; repeat split; reflexivity|]);
    intros depth_a Hdepth_a; try assumption; try discriminate;
    try (injection Hdepth_a as ->; simpl in *; discriminate).
Qed.

Lemma check_order_ok (kickoff_point : value) (st st' : state) :
  check_order kickoff_point st = (Ok tt, st') ->
  st' = st /\
  exists a b,
    targetPointA_m (data st) = Some a /\
    targetPointB_m (data st) = Some b /\
    py_lt kickoff_point a = Ok true /\
    py_le a b = Ok true.
Proof.
  unfold check_order. run_stage.
  destruct (targetPointA_m (data st)) as [a|]; [|discriminate].
  destruct (targetPointB_m (data st)) as [b|]; [|discriminate].
  cbn [item]. 
  destruct (py_lt kickoff_point a) as [[|]|] eqn:Elt; try discriminate.
  destruct (py_le a b) as [[|]|] eqn:Ele; try discriminate.
  simpl. intros [= <-]. split; [reflexivity|]. now exists a, b.
Qed.

Lemma validate_directional_ok (f : json_file) (st st' : state) (b : bool) :
  validate_directional f st = (Ok b, st') ->
  b = true /\ Spec3.resolved (data st').
Proof.
  unfold validate_directional. intros H.
  apply mbind_ok in H. destruct H as ([] & st1 & Hk & H).
  apply mbind_ok in H. destruct H as (d1 & st1' & Hread & H).
  unfold read in Hread. injection Hread as <- <-.
  apply mbind_ok in H. destruct H as (kp & st1' & Hitem & H).
  unfold lift in Hitem.
  destruct (kickoffPoint_m (data st1)) as [k|] eqn:Ek; [|discriminate].
  simpl in Hitem. injection Hitem as <- <-.
  apply mbind_ok in H. destruct H as (deg & st2 & Hangle & H).
  apply mbind_ok in H. destruct H as ([] & st3 & Hgeo & H).
  apply mbind_ok in H. destruct H as ([] & st4 & Hab & H).
  apply mbind_ok in H. destruct H as ([] & st5 & Hord & H).
  unfold mbind, print, ret in H. simpl in H. injection H as <- <-.
  split; [reflexivity|]. simpl.
  apply resolve_angle_ok in Hangle.
  destruct Hangle as (Hdeg & Hang2 & (Hk2 & _)).
  apply resolve_geometry_ok in Hgeo.
  destruct Hgeo as (Hang3 & _ & _ & Hk3).
  apply resolve_ab_ok in Hab.
  destruct Hab as (Hang4 & Hk4 & (a & b & ab & Ha4 & Hb4 & Hab4) & HkeepA).
  apply check_order_ok in Hord.
  destruct Hord as (-> & a' & b' & Ha5 & Hb5 & Hlt & Hle).
  rewrite Ha4 in Ha5. injection Ha5 as <-.
  rewrite Hb4 in Hb5. injection Hb5 as <-.
  exists deg, k, a, b, ab.
  split; [congruence|]. split; [exact Hdeg|].
  split; [|repeat split; assumption].
  rewrite Hk4. destruct Hk3 as [Hsame|(Hinv & a3 & Ha3)]; [congruence|].
  exfalso. specialize (HkeepA a3 Ha3). rewrite Ha4 in HkeepA.
  injection HkeepA as ->. now apply (invalid_not_less k a3).
Qed.

(** What success means.  When validation returns, it returns [True], and the
    dict it leaves is either the straight-well default dict or a resolved
    directional dict: a numeric angle within 0..90, [kickoffPoint_m],
    [targetPointA_m], [targetPointB_m] and [DistanceAB_m] all present, and
    [kickoff < targetA <= targetB] in Python's order. *)
Theorem validation_success (f : json_file) (d : deviation_data)
  (b : bool) (st' : state) :
  run f d = (Ok b, st') ->
  b = true /\
  ((exists total_depth, data st' = straight_defaults total_depth d) \/
   Spec3.resolved (data st')).
Proof.
  unfold run, validate_deviation_data. intros H.
  apply mbind_ok in H. destruct H as ([] & st1 & Hp & H).
  destruct (wd <- load f;; wt <- get_well_type wd;; Ok (wt, get_total_depth wd))
    as [[well_type total_depth]|e].
  - destruct (well_type =? "straight well")%string.
    + unfold mbind, update, print, ret in H. simpl in H.
      unfold print in Hp. injection Hp as <-. injection H as <- <-.
      split; [reflexivity|]. left. now exists total_depth.
    + apply validate_directional_ok in H. destruct H as [-> H]. now split; [|right].
  - apply mbind_ok in H. destruct H as ([] & st2 & _ & H).
    apply validate_directional_ok in H. destruct H as [-> H]. now split; [|right].
Qed.

Lemma validation_success_witness :
  Spec3.resolved
    (data (snd (run Examples.horizontal_file Examples.degenerate_data))).
Proof.
  destruct (run Examples.horizontal_file Examples.degenerate_data)
    as [[b|e] st'] eqn:E.
  - destruct (validation_success _ _ _ _ E) as [_ [[T HT]|H]]; [|exact H].
    exfalso. revert E HT.
    unfold Examples.horizontal_file, Examples.degenerate_data, Examples.well_file.
    run_concrete. rewrite radians_0, sin_0. unfold Rneqb.
    repeat (simpl; decide_reals). intros [= _ <-]. simpl.
    unfold straight_defaults. simpl. discriminate.
  - exfalso. revert E.
    unfold Examples.horizontal_file, Examples.degenerate_data, Examples.well_file.
    run_concrete. rewrite radians_0, sin_0. unfold Rneqb.
    repeat (simpl; decide_reals). discriminate.
Defined.

Lemma well_type_not_straight (f : json_file) :
  well_type_or_empty f <> "straight well"%string ->
  forall st,
    validate_deviation_data f st
    = (print PrintStart ;;; validate_directional f) st \/
    validate_deviation_data f st
    = (print PrintStart ;;; print WarnReadWellType ;;; validate_directional f) st.
Proof.
  intros Hw st. unfold validate_deviation_data, well_type_or_empty in *.
  destruct f as [wd|]; simpl in *; [|now right].
  destruct (get_well_type wd) as [wt|e]; simpl in *; [|now right].
  destruct (String.eqb_spec wt "straight well"); [contradiction | now left].
Qed.

(** The range check: on a well that is not straight, an angle above 90 is
    rejected with [ValueError] whatever the well type, and a negative angle
    is rejected unless the well is a deviated well (where it is replaced by
    30).  The angle stored in the dict is left as given. *)
Theorem angle_out_of_range_raises (f : json_file) (d : deviation_data) (a : R) :
  well_type_or_empty f <> "straight well"%string ->
  deviationAngle_deg d = Some (VNum a) ->
  90 < a \/ (a < 0 /\ well_type_or_empty f <> "deviated well"%string) ->
  fst (run f d) = Raise ValueError /\
  deviationAngle_deg (data (snd (run f d))) = Some (VNum a).
Proof.
  intros Hw Ha Hrange.
  assert (Hdir : forall st,
            deviationAngle_deg (data st) = Some (VNum a) ->
            fst (validate_directional f st) = Raise ValueError /\
            deviationAngle_deg (data (snd (validate_directional f st)))
            = Some (VNum a)).
  { intros st Hst. unfold validate_directional.
    destruct (resolve_kickoff_total f st) as (st1 & k & Ek & Hk & Hsame & _).
    rewrite (mbind_step _ _ _ _ _ Ek).
    rewrite (mbind_step read _ st1 st1 (data st1) eq_refl).
    rewrite (mbind_step (lift (item (kickoffPoint_m (data st1)))) _ st1 st1 k)
      by (unfold lift; now rewrite Hk).
    assert (Hang : resolve_angle f st1 = (Raise ValueError, st1)).
    { unfold resolve_angle. run_stage. cbn zeta.
      destruct Hsame as (Hsa & _). rewrite Hsa, Hst.
      destruct (String.eqb_spec (well_type_or_empty f) "deviated well") as [Ed|Ed];
        destruct Hrange as [Hr|[Hr Hnd]]; try contradiction;
        repeat (simpl; decide_reals);
        destruct (well_type_or_empty f =? "horizontal well")%string;
        repeat (simpl; decide_reals); destruct st1; reflexivity. }
    rewrite (mbind_raise _ _ _ _ _ Hang). simpl.
    destruct Hsame as (Hsa & _). now rewrite Hsa. }
  unfold run.
  destruct (well_type_not_straight f Hw (mk_state d [])) as [E|E]; rewrite E;
    unfold mbind at 1; simpl.
  - now apply Hdir.
  - unfold mbind at 1. simpl. now apply Hdir.
Qed.

Lemma angle_out_of_range_raises_witness :
  fst (run Examples.horizontal_file Examples.negative_angle_data) = Raise ValueError.
Proof.
  apply (angle_out_of_range_raises Examples.horizontal_file
           Examples.negative_angle_data (-5)).
  - discriminate.
  - reflexivity.
  - right. split; [lra | discriminate].
Defined.

End ValidationMore.

(** ** Trajectory: the geometric step in mapped space *)

Section MappedGeometryFacts.

Import Deviation DeviationExport.

Lemma guards_pass (deg : R) :
  0 < deg <= 90 ->
  Rneqb (sin (radians deg)) (radians deg) = true /\
  Rneqb (sin (radians deg)) 0 = true /\
  Rneqb (radians deg) 0 = true.
Proof.
  intros Hdeg.
  pose proof (radians_pos deg (proj1 Hdeg)).
  pose proof (sin_radians_pos deg Hdeg).
  pose proof (sin_radians_lt deg (proj1 Hdeg)).
  repeat split; apply Rneqb_true; lra.
Qed.

Ltac case_guards :=
  repeat match goal with
         | |- context [Rneqb ?x ?y] => destruct (Rneqb x y) eqn:?; simpl
         end.

(** The completion pass only fills gaps: a value that was mapped directly is
    never replaced, and a second pass changes nothing. *)
Theorem map_geometry_fills_gaps_only (deg : R) (t : mapped_triple) :
  (forall k, kickoff_mapped t = Some k ->
             kickoff_mapped (map_geometry deg t) = Some k) /\
  (forall a, target_a_mapped t = Some a ->
             target_a_mapped (map_geometry deg t) = Some a) /\
  (forall v, target_a_vertical_mapped t = Some v ->
             target_a_vertical_mapped (map_geometry deg t) = Some v) /\
  map_geometry deg (map_geometry deg t) = map_geometry deg t.
Proof.
  destruct t as [[k|] [a|] [v|]]; unfold map_geometry; simpl;
    (split; [|split; [|split]]); try discriminate; intros;
    case_guards; try congruence; try reflexivity.
Qed.

Lemma on_arc_iff (deg k a v : R) :
  0 < deg <= 90 ->
  on_arc deg (mk_mapped_triple (Some k) (Some a) (Some v)) <->
  v = solve_vertical k a (radians deg) (sin (radians deg)).
Proof.
  intros Hdeg. unfold on_arc, solve_vertical. split.
  - intros (k' & a' & v' & [= -> -> ->] & H). cbv zeta in H. symmetry. exact H.
  - intros ->. exists k, a. eexists. split; [reflexivity|]. cbv zeta. reflexivity.
Qed.

(** With two of the three depths mapped directly and an angle in (0, 90]
    degrees, the completion pass computes the third one, and the completed
    triple obeys both arc equations; with fewer than two it computes
    nothing. *)
Theorem map_geometry_completes (deg k a v : R) :
  0 < deg <= 90 ->
  (exists v', map_geometry deg (mk_mapped_triple (Some k) (Some a) None)
              = mk_mapped_triple (Some k) (Some a) (Some v') /\
              on_arc deg (mk_mapped_triple (Some k) (Some a) (Some v'))) /\
  (exists a', map_geometry deg (mk_mapped_triple (Some k) None (Some v))
              = mk_mapped_triple (Some k) (Some a') (Some v) /\
              on_arc deg (mk_mapped_triple (Some k) (Some a') (Some v))) /\
  (exists k', map_geometry deg (mk_mapped_triple None (Some a) (Some v))
              = mk_mapped_triple (Some k') (Some a) (Some v) /\
              on_arc deg (mk_mapped_triple (Some k') (Some a) (Some v))) /\
  (forall t, (kickoff_mapped t = None /\ target_a_mapped t = None) \/
             (kickoff_mapped t = None /\ target_a_vertical_mapped t = None) \/
             (target_a_mapped t = None /\ target_a_vertical_mapped t = None) ->
             map_geometry deg t = t).
Proof.
  intros Hdeg.
  destruct (guards_pass deg Hdeg) as (G1 & G2 & G3).
  assert (Hth : radians deg <> 0) by now apply Rneqb_true.
  assert (Hs : sin (radians deg) <> 0) by now apply Rneqb_true.
  assert (Hst : sin (radians deg) <> radians deg) by now apply Rneqb_true.
  split; [|split; [|split]].
  - eexists. unfold map_geometry. simpl. rewrite G3. split; [reflexivity|].
    now apply on_arc_iff.
  - eexists. unfold map_geometry. simpl. rewrite G2. split; [reflexivity|].
    apply on_arc_iff; [assumption|].
    symmetry. now apply solve_vertical_target_a.
  - eexists. unfold map_geometry. simpl. rewrite G1, G2. simpl.
    split; [reflexivity|].
    apply on_arc_iff; [assumption|].
    symmetry. now apply solve_vertical_kickoff.
  - intros [[k0|] [a0|] [v0|]]; simpl; intros [[H1 H2]|[[H1 H2]|[H1 H2]]];
      try discriminate; reflexivity.
Qed.

Lemma map_geometry_completes_witness :
  exists v', map_geometry 30 (mk_mapped_triple (Some 4) (Some 6) None)
             = mk_mapped_triple (Some 4) (Some 6) (Some v').
Proof.
  assert (H : 0 < 30 <= 90) by lra.
  destruct (map_geometry_completes 30 4 6 5 H) as ((v' & E & _) & _).
  exists v'. exact E.
Defined.

(** The geometric step of the CSV export, which always has a mapped kickoff
    and target A.  For an angle in (0, 90] degrees the exported triple obeys
    the arc equations and keeps target A.  Without A's vertical depth it is
    what the completion pass of [map_raw_data] gives.  With A's vertical
    depth the directly mapped kickoff is discarded and recomputed from the
    other two, where [map_raw_data] keeps all three as mapped: the two
    agree exactly when the mapped triple already lies on the arc. *)
Theorem export_geometry_recomputes_kickoff (deg k a : R) (v : option R) :
  0 < deg <= 90 ->
  let theta := radians deg in
  let t := mk_mapped_triple (Some k) (Some a) v in
  on_arc deg (export_geometry deg t) /\
  target_a_mapped (export_geometry deg t) = Some a /\
  match v with
  | None => export_geometry deg t = map_geometry deg t
  | Some v =>
      export_geometry deg t
      = mk_mapped_triple (Some (solve_kickoff a v theta (sin theta)))
          (Some a) (Some v) /\
      map_geometry deg t = t /\
      (export_geometry deg t = map_geometry deg t <-> on_arc deg t)
  end.
Proof.
  intros Hdeg theta t. subst theta t.
  destruct (guards_pass deg Hdeg) as (G1 & G2 & G3).
  assert (Hth : radians deg <> 0) by now apply Rneqb_true.
  assert (Hs : sin (radians deg) <> 0) by now apply Rneqb_true.
  assert (Hst : sin (radians deg) <> radians deg) by now apply Rneqb_true.
  destruct v as [v|].
  - assert (E : export_geometry deg (mk_mapped_triple (Some k) (Some a) (Some v))
                = mk_mapped_triple
                    (Some (solve_kickoff a v (radians deg) (sin (radians deg))))
                    (Some a) (Some v)).
    { unfold export_geometry. simpl. now rewrite G1, G2. }
    assert (M : map_geometry deg (mk_mapped_triple (Some k) (Some a) (Some v))
                = mk_mapped_triple (Some k) (Some a) (Some v)) by reflexivity.
    rewrite E, M. split; [|split; [reflexivity|split; [reflexivity|split; [reflexivity|]]]].
    + apply on_arc_iff; [assumption|]. symmetry. now apply solve_vertical_kickoff.
    + rewrite (on_arc_iff deg k a v Hdeg). split.
      * intros [= Hk]. rewrite <- Hk at 1.
        symmetry. now apply solve_vertical_kickoff.
      * intros Hv. rewrite Hv at 1.
        now rewrite solve_kickoff_vertical.
  - assert (E : export_geometry deg (mk_mapped_triple (Some k) (Some a) None)
                = mk_mapped_triple (Some k) (Some a)
                    (Some (solve_vertical k a (radians deg) (sin (radians deg))))).
    { unfold export_geometry. simpl. now rewrite G3. }
    rewrite E. split; [|split; [reflexivity|]].
    + now apply on_arc_iff.
    + unfold map_geometry. simpl. now rewrite G3.
Qed.

Lemma export_geometry_recomputes_kickoff_witness :
  target_a_mapped
    (export_geometry 30 (mk_mapped_triple (Some 4) (Some 6) (Some 5)))
  = Some 6.
Proof.
  assert (H : 0 < 30 <= 90) by lra.
  exact (proj1 (proj2 (export_geometry_recomputes_kickoff 30 4 6 (Some 5) H))).
Defined.

End MappedGeometryFacts.

(** ** Plot: the drawn trajectory *)

Section PlotFacts.

Import Deviation DeviationExport Plot.

Lemma trajectory_a (origin_x k rad a ab : R) (v : option R) :
  let t := trajectory_points false origin_x k rad a ab v in
  aux_x t = origin_x + radius t /\ aux_y t = k /\
  a_x t = origin_x + radius t * (1 - cos rad) /\
  a_y t = k + radius t * sin rad /\
  b_x t = a_x t + ab * sin rad /\ b_y t = a_y t + ab * cos rad /\
  extend_x t = b_x t + ab / 10 * sin rad /\
  extend_y t = b_y t + ab / 10 * cos rad.
Proof.
  unfold trajectory_points. cbv zeta.
  cbn [radius aux_x aux_y a_x a_y b_x b_y extend_x extend_y].
  rewrite Rtrigo_facts.cos_pi_minus, sin_PI_x.
  repeat split; ring.
Qed.

(** The drawn trajectory of a well that is not straight, for any numbers
    read from the table: the kickoff point and A both lie on the auxiliary
    circle, A is reached from the kickoff point by turning through the
    deviation angle, B lies at the AB distance from A, and the extension
    past B continues the segment AB by a tenth of its length. *)
Theorem trajectory_geometry (origin_x k rad a ab : R) (v : option R) :
  let t := trajectory_points false origin_x k rad a ab v in
  dist2 origin_x k (aux_x t) (aux_y t) = (radius t)² /\
  dist2 (a_x t) (a_y t) (aux_x t) (aux_y t) = (radius t)² /\
  a_x t = origin_x + radius t * (1 - cos rad) /\
  a_y t = k + radius t * sin rad /\
  dist2 (b_x t) (b_y t) (a_x t) (a_y t) = ab² /\
  extend_x t - b_x t = (b_x t - a_x t) / 10 /\
  extend_y t - b_y t = (b_y t - a_y t) / 10.
Proof.
  intros t.
  destruct (trajectory_a origin_x k rad a ab v)
    as (Hax & Hay & Ha & Ha' & Hb & Hb' & He & He').
  fold t in Hax, Hay, Ha, Ha', Hb, Hb', He, He'.
  pose proof (sin2_cos2 rad) as Hsc. unfold Rsqr in Hsc.
  unfold dist2, Rsqr.
  rewrite He, He', Hb, Hb', Ha, Ha', Hax, Hay.
  split; [ring|]. split.
  - transitivity (radius t * radius t * (sin rad * sin rad + cos rad * cos rad));
      [ring | rewrite Hsc; ring].
  - split; [reflexivity|]. split; [reflexivity|]. split.
    + transitivity (ab * ab * (sin rad * sin rad + cos rad * cos rad));
        [ring | rewrite Hsc; ring].
    + split; field.
Qed.

(** When the table gives A's vertical depth and the angle is in (0, 90]
    degrees, A is drawn at exactly that depth; the radius is not negative
    when the kickoff is not below it; and for a triple that obeys the arc
    equations the drawn arc from the kickoff to A is as long as the mapped
    measured depth between them. *)
Theorem trajectory_honours_vertical_depth (origin_x deg k a ab v : R) :
  0 < deg <= 90 ->
  let rad := radians deg in
  let t := trajectory_points false origin_x k rad a ab (Some v) in
  a_y t = v /\
  (k <= v -> 0 <= radius t) /\
  (on_arc deg (mk_mapped_triple (Some k) (Some a) (Some v)) ->
   radius t * rad = a - k).
Proof.
  intros Hdeg rad t.
  destruct (guards_pass deg Hdeg) as (G1 & G2 & G3).
  assert (Hth : rad <> 0) by now apply Rneqb_true.
  assert (Hs : sin rad <> 0) by now apply Rneqb_true.
  pose proof (sin_radians_pos deg Hdeg) as Hpos. fold rad in Hpos.
  destruct (trajectory_a origin_x k rad a ab (Some v)) as (_ & _ & _ & Ha' & _).
  fold t in Ha'.
  assert (Hr : radius t = (v - k) / sin rad).
  { unfold t, trajectory_points. cbv zeta. cbn [radius].
    unfold rad. now rewrite G2. }
  split; [|split].
  - rewrite Ha', Hr. field. exact Hs.
  - intros Hkv. rewrite Hr. apply Rmult_le_pos; [lra|].
    left. now apply Rinv_0_lt_compat.
  - intros Harc. apply (on_arc_iff deg k a v Hdeg) in Harc.
    fold rad in Harc. rewrite Hr, Harc. unfold solve_vertical. field.
    split; assumption.
Qed.

Lemma trajectory_honours_vertical_depth_witness :
  a_y (trajectory_points false 2 4 (radians 30) 6 1 (Some 5)) = 5.
Proof.
  assert (H : 0 < 30 <= 90) by lra.
  exact (proj1 (trajectory_honours_vertical_depth 2 30 4 6 1 5 H)).
Defined.

(** On a well drawn as horizontal the angle of the table is ignored: the
    arc is a quarter circle, A lies straight under the centre at one radius
    below the kickoff, and the segment AB and its extension are drawn
    horizontally to the right of A. *)
Theorem horizontal_trajectory_is_level (origin_x deg k a ab : R) (v : option R) :
  let rad := radians (plot_angle_deg true deg) in
  let t := trajectory_points false origin_x k rad a ab v in
  rad = PI / 2 /\
  a_x t = aux_x t /\ a_y t = k + radius t /\
  b_y t = a_y t /\ extend_y t = a_y t /\
  b_x t = a_x t + ab /\ extend_x t = b_x t + ab / 10 /\
  (forall vertical, v = Some vertical -> radius t = vertical - k /\ a_y t = vertical).
Proof.
  intros rad t.
  assert (Hrad : rad = PI / 2).
  { unfold rad, plot_angle_deg, radians. lra. }
  destruct (trajectory_a origin_x k rad a ab v)
    as (Hax & Hay & Ha & Ha' & Hb & Hb' & He & He').
  fold t in Hax, Hay, Ha, Ha', Hb, Hb', He, He'.
  rewrite Hrad in Ha, Ha', Hb, Hb', He, He'.
  rewrite cos_PI2 in Ha, Hb', He'. rewrite sin_PI2 in Ha', Hb, He.
  split; [exact Hrad|].
  split; [rewrite Ha, Hax; ring|].
  split; [rewrite Ha'; ring|].
  split; [rewrite Hb'; ring|].
  split; [rewrite He', Hb'; ring|].
  split; [rewrite Hb; ring|].
  split; [rewrite He; ring|].
  intros vertical ->.
  assert (Hr : radius t = vertical - k).
  { unfold t, trajectory_points. cbv zeta. cbn [radius].
    rewrite Hrad, sin_PI2.
    assert (G : Rneqb 1 0 = true) by (apply Rneqb_true; lra).
    rewrite G. field. }
  split; [exact Hr|]. rewrite Ha', Hr. ring.
Qed.

Lemma clip_unit (x : R) : 0 <= x <= 1 -> clip x 0.0 1.0 = x.
Proof.
  intros [H0 H1]. unfold clip, Rmin, Rmax.
  destruct (Rle_dec x 0.0); destruct (Rle_dec _ 1.0); lra.
Qed.

(** The wellbore wall along the build arc is drawn between the angles of
    [depth_to_angle] at the kickoff depth and at A's depth.  For an angle in
    (0, π/2] and a radius of at least 1e-9 these are exactly π and π - θ,
    the angles of the kickoff point and of A on the auxiliary circle, so the
    wall starts and ends where the trajectory arc does.  With a radius that
    is not positive, A is not below the kickoff and no arc wall is drawn. *)
Theorem curved_section_meets_kickoff_and_A (origin_x k rad a ab : R) (v : option R) :
  0 < rad <= PI / 2 ->
  let t := trajectory_points false origin_x k rad a ab v in
  (1e-9 <= radius t -> curved_section t k = Some (PI, PI - rad)) /\
  (radius t <= 0 -> curved_section t k = None).
Proof.
  intros [Hr0 Hr2] t.
  destruct (trajectory_a origin_x k rad a ab v) as (_ & Hay & _ & Ha' & _).
  fold t in Hay, Ha'.
  pose proof PI_RGT_0 as Hpi.
  assert (Hsin : 0 < sin rad) by (apply sin_gt_0; lra).
  pose proof (SIN_bound rad) as [_ Hsin1].
  unfold curved_section. rewrite Hay. split.
  - intros Hrad.
    assert (Hpos : 0 < radius t) by lra.
    assert (Hprod : 0 < radius t * sin rad) by now apply Rmult_lt_0_compat.
    rewrite Rmax_left by lra.
    destruct (Rgt_dec (a_y t) k) as [_|Hn]; [|exfalso; lra].
    unfold depth_to_angle. cbv zeta.
    rewrite (Rmax_left (radius t) 1e-9) by lra.
    replace ((k - k) / radius t) with 0 by (field; lra).
    replace ((a_y t - k) / radius t) with (sin rad) by (rewrite Ha'; field; lra).
    rewrite !clip_unit by lra.
    rewrite asin_0, asin_sin by lra.
    f_equal. f_equal. ring.
  - intros Hrad.
    assert (Hprod : radius t * sin rad <= 0).
    { replace 0 with (0 * sin rad) by ring.
      apply Rmult_le_compat_r; lra. }
    rewrite Rmax_right by lra.
    destruct (Rgt_dec k k) as [Hgt|_]; [exfalso; lra | reflexivity].
Qed.

Lemma curved_section_meets_kickoff_and_A_witness :
  curved_section (trajectory_points false 2 4 (PI / 2) 6 1 (Some 5)) 4
  = Some (PI, PI - PI / 2).
Proof.
  assert (H : 0 < PI / 2 <= PI / 2) by (pose proof PI_RGT_0; lra).
  apply (proj1 (curved_section_meets_kickoff_and_A 2 4 (PI / 2) 6 1 (Some 5) H)).
  unfold trajectory_points. cbv zeta. cbn [radius].
  rewrite sin_PI2. unfold Rneqb.
  destruct (Req_dec_T 1 0) as [Hn|_]; [exfalso; lra | lra].
Defined.

(** Below A the wall of a deviated well is drawn around
    [depth_to_trajectory_position].  For an angle short of 90 degrees and a
    depth between A and the end of the extension, that position lies at the
    asked depth on the straight line through A in the direction of the
    deviation angle, and it passes through A, B and the end of the
    extension. *)
Theorem inclined_section_follows_trajectory
    (origin_x k rad a ab : R) (v : option R) (depth : R) :
  0 < cos rad -> 0 <= ab ->
  let t := trajectory_points false origin_x k rad a ab v in
  a_y t <= depth <= extend_y t ->
  snd (depth_to_trajectory_position t depth) = depth /\
  (fst (depth_to_trajectory_position t depth) - a_x t) * cos rad
  = (depth - a_y t) * sin rad /\
  depth_to_trajectory_position t (a_y t) = (a_x t, a_y t) /\
  depth_to_trajectory_position t (b_y t) = (b_x t, b_y t) /\
  depth_to_trajectory_position t (extend_y t) = (extend_x t, extend_y t).
Proof.
  intros Hc Hab t [Hlo Hhi].
  destruct (trajectory_a origin_x k rad a ab v)
    as (_ & _ & _ & _ & Hb & Hb' & He & He').
  fold t in Hb, Hb', He, He'.
  assert (Hprod : 0 <= ab * cos rad) by (apply Rmult_le_pos; lra).
  assert (Hzero : ab = 0 -> ab * cos rad = 0) by (intros ->; ring).
  assert (Hpos : ab <> 0 -> 0 < ab * cos rad)
    by (intros; apply Rmult_lt_0_compat; lra).
  assert (Hext : ab / 10 * cos rad = ab * cos rad / 10) by field.
  unfold depth_to_trajectory_position. cbv zeta.
  split; [|split; [|split; [|split]]].
  - destruct (Rle_dec depth (a_y t)); [|destruct (Rle_dec depth (b_y t))];
      reflexivity.
  - destruct (Rle_dec depth (a_y t)) as [Hd|Hd]; cbn [fst].
    + replace depth with (a_y t) by lra. ring.
    + destruct (Req_dec_T ab 0) as [E0|Hnz].
      { exfalso. specialize (Hzero E0). lra. }
      specialize (Hpos Hnz).
      destruct (Rle_dec depth (b_y t)) as [Hd'|Hd']; cbn [fst].
      * rewrite Hb, Hb'. field. repeat split; lra.
      * rewrite He, He', Hb, Hb'. field. repeat split; lra.
  - destruct (Rle_dec (a_y t) (a_y t)) as [_|Hn]; [reflexivity | exfalso; lra].
  - destruct (Rle_dec (b_y t) (a_y t)) as [Hd|Hd].
    + destruct (Req_dec_T ab 0) as [E0|Hnz].
      * f_equal. rewrite Hb, E0. ring.
      * exfalso. specialize (Hpos Hnz). lra.
    + destruct (Rle_dec (b_y t) (b_y t)) as [_|Hn]; [|exfalso; lra].
      f_equal. field. lra.
  - destruct (Req_dec_T ab 0) as [E0|Hnz].
    + specialize (Hzero E0).
      destruct (Rle_dec (extend_y t) (a_y t)) as [_|Hn]; [|exfalso; lra].
      f_equal. rewrite He, Hb, E0. field.
    + specialize (Hpos Hnz).
      destruct (Rle_dec (extend_y t) (a_y t)) as [Hd|_]; [exfalso; lra|].
      destruct (Rle_dec (extend_y t) (b_y t)) as [Hd|_]; [exfalso; lra|].
      f_equal. field. lra.
Qed.

Lemma inclined_section_follows_trajectory_witness :
  snd (depth_to_trajectory_position
         (trajectory_points false 2 4 0 6 1 (Some 5)) 5) = 5.
Proof.
  assert (Hc : 0 < cos 0) by (rewrite cos_0; lra).
  assert (Hab : 0 <= 1) by lra.
  refine (proj1 (inclined_section_follows_trajectory 2 4 0 6 1 (Some 5) 5 Hc Hab _)).
  unfold trajectory_points. cbv zeta. cbn [a_y extend_y].
  rewrite sin_0. unfold Rneqb.
  destruct (Req_dec_T 0 0) as [_|Hn]; [|exfalso; lra].
  rewrite Rminus_0_r, sin_PI, cos_0. lra.
Defined.

(** Above the kickoff point the hole sections are drawn one by one.  For a
    section whose top is not below its bottom, what is drawn is the part of
    the section above the kickoff depth: from its top down to its bottom or
    to the kickoff depth, whichever comes first; a section that starts at or
    below the kickoff depth and ends below it is not drawn at all. *)
Theorem vertical_segment_stops_at_kickoff (kickoff_depth top_depth bottom_depth : R) :
  top_depth <= bottom_depth ->
  match vertical_segment kickoff_depth top_depth bottom_depth with
  | Some (top, bottom) =>
      top = top_depth /\ bottom = Rmin bottom_depth kickoff_depth /\
      (top_depth < kickoff_depth \/ bottom_depth <= kickoff_depth)
  | None => kickoff_depth <= top_depth /\ kickoff_depth < bottom_depth
  end.
Proof.
  intros Hord. unfold vertical_segment, Rmin.
  destruct (Rle_dec bottom_depth kickoff_depth) as [Hb|Hb].
  - repeat split; auto.
  - destruct (Rlt_dec top_depth kickoff_depth) as [Ht|Ht];
      destruct (Rgt_dec bottom_depth kickoff_depth) as [Hg|Hg]; simpl.
    + repeat split; auto.
    + exfalso; lra.
    + split; lra.
    + exfalso; lra.
Qed.

Lemma vertical_segment_stops_at_kickoff_witness :
  match vertical_segment 5 3 8 with
  | Some (top, bottom) => top = 3 /\ bottom = Rmin 8 5 /\ (3 < 5 \/ 8 <= 5)
  | None => 5 <= 3 /\ 5 < 8
  end.
Proof.
  apply (vertical_segment_stops_at_kickoff 5 3 8). lra.
Defined.

End PlotFacts.

(** ** Plot: the well type and the trajectory dict *)

Section PlotWellTypeFacts.

Import Deviation Plot.

Lemma detect_directional (wd : well_data) (d : deviation_data) (wt : string) :
  get_well_type wd = Ok wt ->
  wt = "horizontal well"%string \/ wt = "deviated well"%string ->
  forall s d',
    detect_well_type wd d = (Ok s, d') ->
    (s = wt /\ required_fields_present d' = true \/
     s = "straight well"%string /\ required_fields_present d' = false) /\
    forall lg, exists st',
      resolve_kickoff (Some wd) (mk_state d lg) = (Ok tt, st') /\ data st' = d'.
Proof.
  intros Hwt Hdir s d' H. unfold detect_well_type in H. rewrite Hwt in H.
  assert (E1 : (wt =? "")%string = false) by (destruct Hdir; subst; reflexivity).
  assert (E2 : ((wt =? "horizontal well") || (wt =? "deviated well"))%string = true)
    by (destruct Hdir; subst; reflexivity).
  rewrite E1, E2 in H. cbv zeta in H.
  assert (Hcheck : forall d0,
            (if required_fields_present d0 then (Ok wt, d0)
             else (Ok "straight well"%string, d0)) = (Ok s, d') ->
            (s = wt /\ required_fields_present d' = true \/
             s = "straight well"%string /\ required_fields_present d' = false) /\
            d0 = d').
  { intros d0 H0. destruct (required_fields_present d0) eqn:Hreq;
      injection H0 as <- <-; auto. }
  unfold resolve_kickoff, kickoff_from_file, load. run_stage. cbn [data log].
  destruct (is_null (get (kickoffPoint_m d))) eqn:Hnull.
  - destruct (REAL_kickoffPoint_m d) as [v|] eqn:Hreal.
    + apply Hcheck in H as [H1 <-]. split; [exact H1|].
      intros lg. eexists. split; reflexivity.
    + destruct (py_lt (VNum 0) (get_total_depth wd)) as [[|]|e] eqn:Hlt;
        [| |discriminate];
        apply Hcheck in H as [H1 <-]; (split; [exact H1|]);
        intros lg; eexists; split; reflexivity.
  - apply Hcheck in H as [H1 <-]. split; [exact H1|].
    intros lg. destruct (kickoffPoint_m d) as [k|] eqn:Hk.
    + eexists. cbn [data]. rewrite Hk. split; reflexivity.
    + discriminate.
Qed.

(** What [detect_well_type] can return.  When it returns, the type is one
    of the three known ones.  A type other than "straight well" is returned
    only if it is the type of the file and the dict, after the kickoff
    fallback, holds the kickoff, the angle and both targets.  For an empty
    or unknown type of the file the dict is left untouched. *)
Theorem detect_well_type_result (wd : well_data) (d d' : deviation_data) (s : string) :
  detect_well_type wd d = (Ok s, d') ->
  (s = "straight well" \/ s = "horizontal well" \/ s = "deviated well")%string /\
  (s <> "straight well"%string ->
   get_well_type wd = Ok s /\ required_fields_present d' = true) /\
  (forall wt, get_well_type wd = Ok wt ->
     wt <> "straight well"%string -> wt <> "horizontal well"%string ->
     wt <> "deviated well"%string -> s = "straight well"%string /\ d' = d).
Proof.
  intros H.
  destruct (get_well_type wd) as [wt|e] eqn:Hwt;
    [|unfold detect_well_type in H; rewrite Hwt in H; discriminate].
  destruct (String.eqb_spec wt "horizontal well") as [Eh|Nh];
    [|destruct (String.eqb_spec wt "deviated well") as [Ed|Nd]].
  - destruct (detect_directional wd d wt Hwt (or_introl Eh) s d' H)
      as ([[-> Hreq]|[-> Hreq]] & _); subst wt.
    + split; [auto|]. split; [auto|]. intros wt' [= <-]. congruence.
    + split; [auto|]. split; [congruence|]. intros wt' [= <-]. congruence.
  - destruct (detect_directional wd d wt Hwt (or_intror Ed) s d' H)
      as ([[-> Hreq]|[-> Hreq]] & _); subst wt.
    + split; [auto|]. split; [auto|]. intros wt' [= <-]. congruence.
    + split; [auto|]. split; [congruence|]. intros wt' [= <-]. congruence.
  - unfold detect_well_type in H. rewrite Hwt in H.
    apply String.eqb_neq in Nh, Nd. rewrite Nh, Nd in H. cbn [orb] in H.
    destruct (wt =? "")%string.
    + injection H as <- <-. split; [auto|]. split; [congruence|].
      intros wt' [= <-]. auto.
    + destruct (String.eqb_spec wt "straight well") as [Es|Ns].
      * injection H as <- <-. split; [auto|]. split; [congruence|].
        intros wt' [= <-]. congruence.
      * injection H as <- <-. split; [auto|]. split; [congruence|].
        intros wt' [= <-]. auto.
Qed.

Lemma detect_well_type_result_witness :
  exists s d',
    detect_well_type (mk_well_data (Some (VStr "Horizontal Well")) (Some (VNum 3000)))
      Examples.null_kickoff_data = (Ok s, d') /\
    (s = "straight well" \/ s = "horizontal well" \/ s = "deviated well")%string.
Proof.
  eexists. eexists. split; [reflexivity|].
  exact (proj1 (detect_well_type_result
                  (mk_well_data (Some (VStr "Horizontal Well")) (Some (VNum 3000)))
                  Examples.null_kickoff_data _ _ eq_refl)).
Defined.

(** The plot reads the same JSON file as the validation and resolves the
    trajectory dict the same way.  For a straight well it writes the defaults
    the validation writes.  For a horizontal or deviated well, whenever it
    returns, the dict it leaves is the dict the kickoff stage of the
    validation leaves: both take the kickoff from [REAL_kickoffPoint_m] when
    that key is present, else from a positive total depth, else 0. *)
Theorem detect_well_type_agrees_with_validation
    (wd : well_data) (d d' : deviation_data) (s : string) :
  detect_well_type wd d = (Ok s, d') ->
  (get_well_type wd = Ok "straight well"%string ->
   d' = data (snd (run (Some wd) d))) /\
  (get_well_type wd = Ok "horizontal well"%string \/
   get_well_type wd = Ok "deviated well"%string ->
   forall lg, exists st',
     resolve_kickoff (Some wd) (mk_state d lg) = (Ok tt, st') /\ data st' = d').
Proof.
  intros H. split.
  - intros Hwt. unfold detect_well_type in H. rewrite Hwt in H. simpl in H.
    injection H as _ <-.
    unfold run, validate_deviation_data. run_stage.
    unfold load, bind. rewrite Hwt. reflexivity.
  - intros [Hwt|Hwt].
    + exact (proj2 (detect_directional wd d _ Hwt (or_introl eq_refl) s d' H)).
    + exact (proj2 (detect_directional wd d _ Hwt (or_intror eq_refl) s d' H)).
Qed.

Lemma detect_well_type_agrees_with_validation_witness :
  exists st',
    resolve_kickoff
      (Some (mk_well_data (Some (VStr "Horizontal Well")) (Some (VNum 3000))))
      (mk_state Examples.null_kickoff_data []) = (Ok tt, st') /\
    data st' = set_kickoffPoint_m VNone Examples.null_kickoff_data.
Proof.
  exact (proj2 (detect_well_type_agrees_with_validation
                  (mk_well_data (Some (VStr "Horizontal Well")) (Some (VNum 3000)))
                  Examples.null_kickoff_data
                  (set_kickoffPoint_m VNone Examples.null_kickoff_data)
                  "horizontal well" eq_refl)
           (or_introl eq_refl) []).
Defined.

End PlotWellTypeFacts.

(** ** Trajectory: the build-arc formulas in double precision *)

Section Binary64Facts.

(** At 30 degrees the same round trip closes well within the tolerance. *)
Lemma triple_closure_within_tolerance_at_30 :
  forallb (fun sin_theta =>
             Binary64.in_domain Binary64.thirty_deg Binary64.kickoff_example
               Binary64.target_a_example sin_theta
             && Binary64.within_tolerance Binary64.thirty_deg
                  Binary64.kickoff_example Binary64.target_a_example sin_theta)
    Binary64.thirty_degree_sines = true.
Proof. vm_compute. reflexivity. Qed.

(** [C9], the floating-point half.  At an angle of 1e-5 degrees, with the
    kickoff at 1000 and target A at 2000, the angle is in (0, 90], its sine
    is neither 0 nor the angle itself, and the kickoff recomputed through
    A's vertical depth is off by more than 1e-6 in relative terms (about
    7e-3 for the correctly rounded sine), whichever of the three doubles
    around the sine [math.sin] returns: the difference [sin θ - θ] cancels
    almost all digits. *)
Lemma triple_closure_exceeds_tolerance :
  forallb (fun sin_theta =>
             Binary64.in_domain Binary64.small_angle_deg
               Binary64.kickoff_example Binary64.target_a_example sin_theta
             && negb (Binary64.within_tolerance Binary64.small_angle_deg
                        Binary64.kickoff_example Binary64.target_a_example
                        sin_theta))
    Binary64.small_angle_sines = true.
Proof. vm_compute. reflexivity. Qed.

End Binary64Facts.
